(** * Document assembly pipeline: a shallow embedding and its properties

    The development follows the TypeScript sources:
    - [types.ts]: the data model;
    - [utils/sortUtils.ts], [utils/pdfUtils.ts]: natural sort, the input
      filter, PDF rasterisation and the region cropper;
    - [services/geminiService.ts]: rotation, page analysis, reordering and
      summary generation;
    - [services/docxService.ts]: the document assembler;
    - [App.tsx]: folder ingestion and the pipeline orchestrator.

    Conventions.  A JavaScript string is a [string]; one [ascii] stands for
    one code unit.  JavaScript numbers that hold integers are [Z]; the
    cropper's fractional pixel arithmetic is carried out on IEEE 754 doubles,
    operation by operation; the halves of the rotation, which doubles hold
    exactly, are rationals.
    Promises that may reject become values of [result].  The external
    services (the generative model, the PDF renderer, the image decoder, the
    canvas encoder and the DOCX packer) are fields of one record of
    collaborators, so that every theorem quantifies over all their
    behaviours. *)

From Stdlib Require Import List Bool Arith ZArith Lia String Ascii.
From Stdlib Require Import Permutation Sorted.
From Stdlib Require Import QArith Qminmax Lqa.
From Stdlib Require Import DecimalString.
From Stdlib Require Import Floats.
Import ListNotations.

Local Open Scope nat_scope.
Local Open Scope string_scope.
Local Open Scope list_scope.

(** ** Rejected promises *)

Inductive exn : Type :=
| ApiKeyNotFound        (* getAiClient: "API Key not found in environment variables." *)
| PdfLoadFailed         (* pdfjsLib.getDocument(...).promise rejects *)
| NoPagesExtracted      (* convertPdfToImages: no page blob was produced *)
| ImageLoadFailed       (* img.onerror *)
| NoCanvasContext       (* canvas.getContext('2d') is null *)
| CanvasToBlobFailed    (* canvas.toBlob hands back null *)
| FileReadFailed        (* FileReader.onerror in fileToGenerativePart *)
| PackerFailed          (* Packer.toBlob rejects *)
| NotAFunction.         (* TypeError: calling a property that is not a function *)

Inductive result (A : Type) : Type :=
| Ok (a : A)
| Throw (e : exn).
Arguments Ok {A} a.
Arguments Throw {A} e.

Definition bind {A B} (r : result A) (k : A -> result B) : result B :=
  match r with
  | Ok a => k a
  | Throw e => Throw e
  end.

Notation "'try!' x '<-' r ';' k" := (bind r (fun x => k))
  (at level 10, x name, r at level 100, k at level 200).

(** ** Strings and arrays the way JavaScript indexes them *)

Definition str_length (s : string) : Z := Z.of_nat (String.length s).

(** [s.substring(a, b)]: both bounds are clamped to [0, s.length] and swapped
    when they come in the wrong order. *)
Definition clampIndex (s : string) (i : Z) : nat :=
  Z.to_nat (Z.min (Z.max 0 i) (str_length s)).

Definition js_substring (s : string) (a b : Z) : string :=
  let lo := Nat.min (clampIndex s a) (clampIndex s b) in
  let hi := Nat.max (clampIndex s a) (clampIndex s b) in
  String.substring lo (hi - lo) s.

(** [s.substring(a)] *)
Definition js_substring_from (s : string) (a : Z) : string :=
  js_substring s a (str_length s).

(** [xs.join(sep)] *)
Fixpoint join (sep : string) (xs : list string) : string :=
  match xs with
  | [] => ""
  | [x] => x
  | x :: rest => x ++ sep ++ join sep rest
  end.

(** [arr[i]] for a numeric [i]: [undefined] outside [0, arr.length). *)
Definition js_index {A} (arr : list A) (i : Z) : option A :=
  if (i <? 0)%Z then None else nth_error arr (Z.to_nat i).

(** [arr.includes(idx)] on an array of integers. *)
Definition includes (arr : list Z) (idx : nat) : bool :=
  existsb (Z.eqb (Z.of_nat idx)) arr.

(** [arr.map((x, index) => ...)] and [arr.forEach((x, index) => ...)] see
    every element together with its index. *)
Definition indexed {A} (arr : list A) : list (nat * A) :=
  combine (seq 0 (List.length arr)) arr.

(** [[...arr].sort(cmp)].  ECMAScript requires the sort to be stable; for a
    comparator induced by integer keys the result is therefore determined.
    An element moves in front of the first later element it does not compare
    greater than. *)
Fixpoint sort_insert {A} (cmp : A -> A -> Z) (x : A) (l : list A) : list A :=
  match l with
  | [] => [x]
  | y :: l' => if (cmp x y <=? 0)%Z then x :: y :: l'
               else y :: sort_insert cmp x l'
  end.

Definition js_sort {A} (cmp : A -> A -> Z) (arr : list A) : list A :=
  fold_right (sort_insert cmp) [] arr.

(** Ascending order of integer keys. *)
Definition keyLe {A} (key : A -> Z) (a b : A) : Prop := (key a <= key b)%Z.

(** ** Data model ([types.ts]) *)

Record Blob : Type := {
  blob_type : string;           (* MIME type *)
  blob_bytes : list Byte.byte
}.

Record File : Type := {
  file_blob : Blob;
  file_name : string;
  webkitRelativePath : string
}.

Definition file_type (f : File) : string := blob_type (file_blob f).
Definition file_size (f : File) : N := N.of_nat (List.length (blob_bytes (file_blob f))).

(** [new File([blob], name, { type })] *)
Definition newFile (b : Blob) (name type : string) : File :=
  {| file_blob := {| blob_type := type; blob_bytes := blob_bytes b |};
     file_name := name;
     webkitRelativePath := "" |}.

Inductive ItemType : Type := image | pdf.

Record FileItem : Type := {
  id : string;
  name : string;
  path : string;
  file : File;
  item_type : ItemType;
  selected : bool;
  rotation : Z
}.

Inductive Status : Type := pending | processing | completed | error.

Record FolderGroup : Type := {
  folderName : string;
  files : list FileItem;
  status : Status;
  resultDocBlob : option Blob
}.

Record ProcessingOptions : Type := {
  language : string;
  generateSummary_opt : bool
}.

Inductive BlockType : Type :=
| heading | subheading | author | paragraph | image_description
| table_row | table_crop | formula_crop | image_crop.

Definition BlockType_eqb (a b : BlockType) : bool :=
  match a, b with
  | heading, heading | subheading, subheading | author, author
  | paragraph, paragraph | image_description, image_description
  | table_row, table_row | table_crop, table_crop
  | formula_crop, formula_crop | image_crop, image_crop => true
  | _, _ => false
  end.

Record PageContentBlock : Type := {
  block_type : BlockType;
  text : string;
  isTranslated : option bool;
  boundingBox : option (list Z)
}.

Record PageAnalysisResult : Type := {
  pageNumber : option Z;
  blocks : list PageContentBlock;
  hasContinuingSentence : bool
}.

Record DocxGenerationData : Type := {
  originalFileName : string;
  analysis : PageAnalysisResult;
  imageBlob : option Blob;
  sourceType : ItemType
}.

(** ** Canvas, PDF and document-tree values *)

(** The natural size of a decoded image ([img.width], [img.height]). *)
Record Image : Type := {
  img_width : Z;
  img_height : Z
}.

(** Calls made on a 2D context.  Numbers are kept in lowest terms, so that
    equal numbers are equal terms. *)
Inductive CtxOp : Type :=
| Translate (x y : Q)
| Rotate (degrees : Z)                    (* ctx.rotate((degrees * Math.PI) / 180) *)
| DrawImage (src : Blob) (sx sy sw sh dx dy dw dh : Q).

(** [ctx.drawImage(img, sx, sy, sw, sh, dx, dy, dw, dh)] *)
Definition drawImage9 (src : Blob) (sx sy sw sh dx dy dw dh : Q) : CtxOp :=
  DrawImage src (Qred sx) (Qred sy) (Qred sw) (Qred sh)
                (Qred dx) (Qred dy) (Qred dw) (Qred dh).

(** [ctx.drawImage(img, dx, dy)]: the whole image at its natural size. *)
Definition drawImage3 (src : Blob) (img : Image) (dx dy : Q) : CtxOp :=
  drawImage9 src 0 0 (inject_Z (img_width img)) (inject_Z (img_height img))
             dx dy (inject_Z (img_width img)) (inject_Z (img_height img)).

Record Canvas : Type := {
  canvas_width : Z;
  canvas_height : Z;
  canvas_ops : list CtxOp
}.

(** One iteration of the page loop of [convertPdfToImages]. *)
Inductive PageRender : Type :=
| RenderRejects                  (* getPage or render rejects *)
| RenderNoContext                (* getContext('2d') is null *)
| RenderNullBlob                 (* toBlob hands back null *)
| Rendered (jpeg : list Byte.byte).

Record PdfDocument : Type := {
  numPages : nat;
  renderPage : nat -> Q -> PageRender    (* page index (from 1), viewport scale *)
}.

Inductive ConsoleEntry : Type :=
| ErrorRenderingPage (i : nat).

(** The children handed to [new Document]. *)
Inductive DocChild : Type :=
| SummaryHeading
| SummaryBody (s : string)
| DocumentSeparator
| CroppedImage (data : list Byte.byte)
| Caption (s : string)
| CropErrorText (s : string)
| Heading2 (s : string)
| Heading3 (s : string)
| AuthorLine (s : string)
| BodyParagraph (s : string).

(** The descriptor of one page sent to the ranking model. *)
Record PageSummary : Type := {
  tempId : nat;
  fileName : string;
  detectedPageNum : option Z;
  firstSentence : string;
  lastSentence : string
}.

(** What the [try] block of [reorderPagesByContent] meets.  The response
    schema of the request fixes the reply to an array of integers. *)
Inductive RankingResponse : Type :=
| RankRejected                   (* generateContent rejects *)
| RankNoText                     (* response.text is empty or missing *)
| RankNotAnArray                 (* JSON.parse throws, or its value has no forEach *)
| RankIds (newOrderIds : list Z).

(** Messages handed to [addLog] (the time stamp is left out). *)
Inductive LogEntry : Type :=
| LogLoaded (folderCount : nat)
| LogNothingSelected
| LogStart
| LogPhase1
| LogPdfExtract (name : string)
| LogPdfPageCount (n : nat)
| LogPdfPageAnalysis (idx total : nat)
| LogRotation (degrees : Z) (name : string)
| LogImageAnalysis (name : string)
| LogItemError (name : string) (e : exn)
| LogPhase2 (pageCount : nat)
| LogOrderRestored
| LogPhase3
| LogPhase4
| LogSuccess (downloadName : string)
| LogDocxError (e : exn)
| LogAllDone.

(** ** The collaborators *)

Record Collaborators : Type := {
  (* process.env.API_KEY is set *)
  apiKey : bool;
  (* Intl.Collator(undefined, { numeric: true, sensitivity: 'base' }).compare *)
  collatorCompare : string -> string -> Z;
  (* file.arrayBuffer() followed by pdfjsLib.getDocument *)
  getDocument : File -> option PdfDocument;
  (* new Image() with src set to the blob: onload with the natural size, or onerror *)
  decodeImage : Blob -> option Image;
  (* canvas.getContext('2d') is not null *)
  canvasContext : bool;
  (* canvas.toBlob(cb, mime) *)
  canvasToBlob : Canvas -> string -> option (list Byte.byte);
  (* FileReader.readAsDataURL succeeds *)
  fileReadable : File -> bool;
  (* the layout model: the parsed response, or nothing when the call or the parse throws *)
  analyzeModel : File -> string -> option PageAnalysisResult;
  (* the ranking model *)
  rankModel : list PageSummary -> RankingResponse;
  (* the summarisation model: response.text, or nothing when the call rejects *)
  summaryModel : string -> option string;
  (* Packer.toBlob *)
  packer : list DocChild -> option Blob
}.

(** ** [utils/sortUtils.ts] *)

Definition lowerAscii (c : ascii) : ascii :=
  let n := nat_of_ascii c in
  if ((65 <=? n) && (n <=? 90))%nat then ascii_of_nat (n + 32) else c.

Fixpoint lowerCase (s : string) : string :=
  match s with
  | EmptyString => EmptyString
  | String c s' => String (lowerAscii c) (lowerCase s')
  end.

Definition startsWith (s p : string) : bool := String.prefix p s.

Definition endsWith (s suffix : string) : bool :=
  let n := String.length s in
  let k := String.length suffix in
  (k <=? n)%nat && String.eqb (String.substring (n - k) k s) suffix.

(** [/\.(jpe?g|png|tiff?|bmp)$/i.test(name)] *)
Definition imageExtension (name : string) : bool :=
  existsb (endsWith (lowerCase name))
          [".jpg"; ".jpeg"; ".png"; ".tif"; ".tiff"; ".bmp"].

(** [/\.pdf$/i.test(name)] *)
Definition pdfExtension (name : string) : bool :=
  endsWith (lowerCase name) ".pdf".

Definition isImage (f : File) : bool :=
  startsWith (file_type f) "image/" || imageExtension (file_name f).

Definition isPdf (f : File) : bool :=
  String.eqb (file_type f) "application/pdf" || pdfExtension (file_name f).

Definition naturalSort {T} (E : Collaborators) (array : list T)
    (keySelector : T -> string) : list T :=
  js_sort (fun a b => collatorCompare E (keySelector a) (keySelector b)) array.

(** ** [utils/pdfUtils.ts] *)

Definition jpegBlob (bytes : list Byte.byte) : Blob :=
  {| blob_type := "image/jpeg"; blob_bytes := bytes |}.

Definition pngBlob (bytes : list Byte.byte) : Blob :=
  {| blob_type := "image/png"; blob_bytes := bytes |}.

(** The body of the page loop: the console output and the blobs pushed. *)
Fixpoint renderPages (doc : PdfDocument) (pageIndices : list nat)
  : list ConsoleEntry * list Blob :=
  match pageIndices with
  | [] => ([], [])
  | i :: rest =>
      let '(console, pageBlobs) := renderPages doc rest in
      match renderPage doc i 2 with
      | RenderRejects => (ErrorRenderingPage i :: console, pageBlobs)
      | RenderNoContext => (console, pageBlobs)
      | RenderNullBlob => (console, pageBlobs)
      | Rendered jpeg => (console, jpegBlob jpeg :: pageBlobs)
      end
  end.

Definition convertPdfToImages (E : Collaborators) (f : File)
  : list ConsoleEntry * result (list Blob) :=
  match getDocument E f with
  | None => ([], Throw PdfLoadFailed)
  | Some doc =>
      let '(console, pageBlobs) := renderPages doc (seq 1 (numPages doc)) in
      if (List.length pageBlobs =? 0)%nat
      then (console, Throw NoPagesExtracted)
      else (console, Ok pageBlobs)
  end.

(** JavaScript numbers.  [numberOfZ] is the double nearest to an integer (the
    integer itself below 2^53); [maxNumber] and [minNumber] are [Math.max] and
    [Math.min], NaN and signed zeros included. *)
Definition numberOfZ (z : Z) : float :=
  SF2Prim (binary_normalize prec emax z 0 false).

Definition isNaN (x : float) : bool := negb (PrimFloat.eqb x x).

Definition maxNumber (a b : float) : float :=
  if isNaN a || isNaN b then nan
  else if PrimFloat.ltb a b then b
  else if PrimFloat.ltb b a then a
  else if PrimFloat.is_zero a then (a + b)%float else a.

Definition minNumber (a b : float) : float :=
  if isNaN a || isNaN b then nan
  else if PrimFloat.ltb b a then b
  else if PrimFloat.ltb a b then a
  else if PrimFloat.is_zero a then (- (- a + - b))%float else a.

(** The integer part of a number; 0 for NaN and the infinities. *)
Definition truncated (x : float) : Z :=
  match Prim2SF x with
  | S754_finite s m e =>
      let magnitude := if (0 <=? e)%Z then (Zpos m * 2 ^ e)%Z
                       else (Zpos m / 2 ^ (- e))%Z in
      if s then (- magnitude)%Z else magnitude
  | _ => 0%Z
  end.

(** Assigning a number to [canvas.width] or [canvas.height]: the number is
    converted to an unsigned 32-bit integer (integer part, modulo 2^32), and a
    value above 2^31 - 1 gives the attribute its default. *)
Definition toCanvasSize (default : Z) (x : float) : Z :=
  let n := (truncated x mod 2 ^ 32)%Z in
  if (n <=? 2147483647)%Z then n else default.

(** The value of a finite number. *)
Definition numberToQ (x : float) : option Q :=
  match Prim2SF x with
  | S754_zero _ => Some 0%Q
  | S754_finite s m e =>
      let n := if s then Zneg m else Zpos m in
      Some (if (0 <=? e)%Z then inject_Z (n * 2 ^ e)
            else n # Pos.pow 2 (Z.to_pos (- e)))
  | _ => None
  end.

(** The rectangle computed from a box and the image size. *)
Record CropRect : Type := {
  finalX : float; finalY : float; finalW : float; finalH : float
}.

Definition padding : float := 5.

Definition cropRect (img : Image) (ymin xmin ymax xmax : Z) : CropRect :=
  let width := numberOfZ (img_width img) in
  let height := numberOfZ (img_height img) in
  let pixelX := ((numberOfZ xmin / 1000) * width)%float in
  let pixelY := ((numberOfZ ymin / 1000) * height)%float in
  let pixelW := (((numberOfZ xmax - numberOfZ xmin) / 1000) * width)%float in
  let pixelH := (((numberOfZ ymax - numberOfZ ymin) / 1000) * height)%float in
  let fX := maxNumber 0 (pixelX - padding) in
  let fY := maxNumber 0 (pixelY - padding) in
  {| finalX := fX;
     finalY := fY;
     finalW := minNumber (width - fX) (pixelW + padding * 2);
     finalH := minNumber (height - fY) (pixelH + padding * 2) |}.

(** The test [finalW <= 0 || finalH <= 0]. *)
Definition degenerate (r : CropRect) : bool :=
  PrimFloat.leb (finalW r) 0 || PrimFloat.leb (finalH r) 0.

Definition wholeImageCanvas (src : Blob) (img : Image) : Canvas :=
  {| canvas_width := img_width img;
     canvas_height := img_height img;
     canvas_ops := [drawImage3 src img 0 0] |}.

(** [ctx.drawImage] with nine arguments returns without drawing when one of
    them is not finite. *)
Definition regionCanvas (src : Blob) (r : CropRect) : Canvas :=
  {| canvas_width := toCanvasSize 300 (finalW r);
     canvas_height := toCanvasSize 150 (finalH r);
     canvas_ops :=
       match numberToQ (finalX r), numberToQ (finalY r),
             numberToQ (finalW r), numberToQ (finalH r) with
       | Some x, Some y, Some w, Some h => [drawImage9 src x y w h 0 0 w h]
       | _, _, _, _ => []
       end |}.

Definition cropCanvas (src : Blob) (img : Image) (ymin xmin ymax xmax : Z) : Canvas :=
  let r := cropRect img ymin xmin ymax xmax in
  if degenerate r then wholeImageCanvas src img else regionCanvas src r.

Definition cropImageFromBlob (E : Collaborators) (sourceBlob : Blob) (box : list Z)
  : result Blob :=
  match box with
  | ymin :: xmin :: ymax :: xmax :: _ =>
      match decodeImage E sourceBlob with
      | None => Throw ImageLoadFailed
      | Some img =>
          if negb (canvasContext E) then Throw NoCanvasContext
          else
            match canvasToBlob E (cropCanvas sourceBlob img ymin xmin ymax xmax)
                               "image/png" with
            | Some bytes => Ok (pngBlob bytes)
            | None => Throw CanvasToBlobFailed
            end
      end
  | _ => Ok sourceBlob                    (* box.length < 4 *)
  end.

(** ** [services/geminiService.ts] *)

(** *** Image rotation *)

Definition rotationCanvas (src : Blob) (img : Image) (rotationDegrees : Z) : Canvas :=
  let '(w, h) :=
    if ((rotationDegrees =? 90) || (rotationDegrees =? 270))%Z
    then (img_height img, img_width img)
    else (img_width img, img_height img) in
  {| canvas_width := w;
     canvas_height := h;
     canvas_ops :=
       [ Translate (Qred (inject_Z w / 2)) (Qred (inject_Z h / 2));
         Rotate rotationDegrees;
         drawImage3 src img (- inject_Z (img_width img) / 2)
                            (- inject_Z (img_height img) / 2) ] |}.

Definition processImageWithRotation (E : Collaborators) (f : File) (rotationDegrees : Z)
  : result File :=
  if (rotationDegrees =? 0)%Z then Ok f
  else
    match decodeImage E (file_blob f) with
    | None => Throw ImageLoadFailed
    | Some img =>
        if negb (canvasContext E) then Throw NoCanvasContext
        else
          match canvasToBlob E (rotationCanvas (file_blob f) img rotationDegrees)
                             (file_type f) with
          | Some bytes =>
              Ok (newFile {| blob_type := file_type f; blob_bytes := bytes |}
                          (file_name f) (file_type f))
          | None => Throw CanvasToBlobFailed
          end
    end.

(** *** Text clean-up *)

(** The class [[\x00-\x08\x0B\x0C\x0E-\x1F]]. *)
Definition isControl (c : ascii) : bool :=
  let n := nat_of_ascii c in
  ((n <=? 8) || (n =? 11) || (n =? 12) || ((14 <=? n) && (n <=? 31)))%nat.

(** White space as [trim] and [\s] see it, among the code units below 256. *)
Definition isWhiteSpace (c : ascii) : bool :=
  let n := nat_of_ascii c in
  (((9 <=? n) && (n <=? 13)) || (n =? 32) || (n =? 160))%nat.

Fixpoint dropWhile {A} (p : A -> bool) (l : list A) : list A :=
  match l with
  | [] => []
  | x :: l' => if p x then dropWhile p l' else l
  end.

Definition trim (s : string) : string :=
  string_of_list_ascii
    (rev (dropWhile isWhiteSpace (rev (dropWhile isWhiteSpace (list_ascii_of_string s))))).

Fixpoint removeChars (p : ascii -> bool) (s : string) : string :=
  match s with
  | EmptyString => EmptyString
  | String c s' => if p c then removeChars p s' else String c (removeChars p s')
  end.

Definition sanitizeText (s : string) : string :=
  trim (removeChars isControl s).

(** [s.replace(/cc/g, "")] for a doubled character. *)
Fixpoint removePairs (c : ascii) (s : string) : string :=
  match s with
  | String a ((String b s') as rest) =>
      if Ascii.eqb a c && Ascii.eqb b c then removePairs c s'
      else String a (removePairs c rest)
  | _ => s
  end.

Fixpoint hashes (k : nat) (s : string) : string :=
  match k with
  | O => s
  | S k' => String "#" (hashes k' s)
  end.

Definition isLineTerminator (c : ascii) : bool :=
  let n := nat_of_ascii c in ((n =? 10) || (n =? 13))%nat.

(** [s.replace(/^#+\s/gm, "")]: [held] counts the hashes read since the start
    of the current line, when nothing else was read on it. *)
Fixpoint removeHeadingMarks (held : option nat) (s : string) : string :=
  match s with
  | EmptyString => match held with Some k => hashes k "" | None => "" end
  | String c s' =>
      match held with
      | Some k =>
          if Ascii.eqb c "#" then removeHeadingMarks (Some (S k)) s'
          else if isWhiteSpace c then
            match k with
            | O => String c (removeHeadingMarks
                               (if isLineTerminator c then Some 0 else None) s')
            | S _ => removeHeadingMarks
                       (if isLineTerminator c then Some 0 else None) s'
            end
          else hashes k (String c (removeHeadingMarks None s'))
      | None =>
          String c (removeHeadingMarks
                      (if isLineTerminator c then Some 0 else None) s')
      end
  end.

Definition cleanMarkdown (s : string) : string :=
  removeHeadingMarks (Some 0)
    (removeChars (Ascii.eqb "*")
       (removePairs "_" (removePairs "#" (removePairs "*" s)))).

(** *** Page analysis *)

Definition sanitizeBlock (b : PageContentBlock) : PageContentBlock :=
  {| block_type := block_type b;
     text := sanitizeText (text b);
     isTranslated := isTranslated b;
     boundingBox := boundingBox b |}.

Definition analysisErrorPage (f : File) : PageAnalysisResult :=
  {| pageNumber := None;
     blocks := [ {| block_type := paragraph;
                    text := "[Ошибка обработки страницы: " ++ file_name f ++ "]";
                    isTranslated := None;
                    boundingBox := None |} ];
     hasContinuingSentence := false |}.

(** [getAiClient] and [fileToGenerativePart] run before the [try]. *)
Definition analyzePage (E : Collaborators) (f : File) (targetLanguage : string)
  : result PageAnalysisResult :=
  if negb (apiKey E) then Throw ApiKeyNotFound
  else if negb (fileReadable E f) then Throw FileReadFailed
  else
    match analyzeModel E f targetLanguage with
    | Some r =>
        Ok {| pageNumber := pageNumber r;
              blocks := map sanitizeBlock (blocks r);
              hasContinuingSentence := hasContinuingSentence r |}
    | None => Ok (analysisErrorPage f)
    end.

(** *** Logical reordering *)

Definition isFlowBlock (b : PageContentBlock) : bool :=
  BlockType_eqb (block_type b) paragraph || BlockType_eqb (block_type b) heading.

Definition pageSummary (index : nat) (p : DocxGenerationData) : PageSummary :=
  let textBlocks := filter isFlowBlock (blocks (analysis p)) in
  {| tempId := index;
     fileName := originalFileName p;
     detectedPageNum := pageNumber (analysis p);
     firstSentence :=
       match textBlocks with
       | [] => ""
       | b :: _ => js_substring (text b) 0 100
       end;
     lastSentence :=
       match rev textBlocks with
       | [] => ""
       | b :: _ => js_substring_from (text b) (str_length (text b) - 100)
       end |}.

Definition pagesSummary (pages : list DocxGenerationData) : list PageSummary :=
  map (fun ip => pageSummary (fst ip) (snd ip)) (indexed pages).

(** [newOrderIds.forEach(id => { if (pages[id]) reorderedPages.push(pages[id]) })] *)
Definition pagesAtHint {A} (pages : list A) (newOrderIds : list Z) : list A :=
  flat_map (fun id => match js_index pages id with
                      | Some p => [p]
                      | None => []
                      end) newOrderIds.

(** [pages.forEach((p, idx) => { if (!newOrderIds.includes(idx)) reorderedPages.push(p) })] *)
Definition pagesMissingFrom {A} (pages : list A) (newOrderIds : list Z) : list A :=
  map snd (filter (fun ip => negb (includes newOrderIds (fst ip))) (indexed pages)).

Definition applyHint {A} (pages : list A) (newOrderIds : list Z) : list A :=
  (pagesAtHint pages newOrderIds ++ pagesMissingFrom pages newOrderIds)%list.

(** [a.analysis.pageNumber || 999] *)
Definition pageNumberOr999 (p : DocxGenerationData) : Z :=
  match pageNumber (analysis p) with
  | Some n => if (n =? 0)%Z then 999%Z else n
  | None => 999%Z
  end.

Definition comparePageNumbers (a b : DocxGenerationData) : Z :=
  (pageNumberOr999 a - pageNumberOr999 b)%Z.

Definition defaultSort (pages : list DocxGenerationData) : list DocxGenerationData :=
  js_sort comparePageNumbers pages.

Definition reorderPagesByContent (E : Collaborators) (pages : list DocxGenerationData)
  : result (list DocxGenerationData) :=
  if (List.length pages <=? 1)%nat then Ok pages
  else if negb (apiKey E) then Throw ApiKeyNotFound
  else
    match rankModel E (pagesSummary pages) with
    | RankIds newOrderIds => Ok (applyHint pages newOrderIds)
    | RankNoText => Ok pages
    | RankRejected | RankNotAnArray => Ok (defaultSort pages)
    end.

(** *** Summary generation *)

(** The text placed in the prompt. *)
Definition sanitizedInput (fullText : string) : string :=
  sanitizeText (js_substring fullText 0 60000).

Definition generateSummary (E : Collaborators) (fullText language : string)
  : result string :=
  if negb (apiKey E) then Throw ApiKeyNotFound
  else
    match summaryModel E (sanitizedInput fullText) with
    | Some responseText =>
        let rawText := if String.eqb responseText ""
                       then "Не удалось создать саммари."
                       else responseText in
        Ok (cleanMarkdown (sanitizeText rawText))
    | None => Ok "Ошибка при генерации саммари."
    end.

(** ** [services/docxService.ts] *)

Definition isCropType (t : BlockType) : bool :=
  BlockType_eqb t image_crop || BlockType_eqb t table_crop
  || BlockType_eqb t formula_crop.

Definition defaultCaption (t : BlockType) : string :=
  if BlockType_eqb t table_crop then "Таблица"
  else if BlockType_eqb t formula_crop then "Формула"
  else "Рисунок".

Definition blockParagraph (b : PageContentBlock) : DocChild :=
  match block_type b with
  | heading => Heading2 (text b)
  | subheading => Heading3 (text b)
  | author => AuthorLine (text b)
  | _ => BodyParagraph (text b)
  end.

Definition blockChildren (E : Collaborators) (page : DocxGenerationData)
    (b : PageContentBlock) : list DocChild :=
  match boundingBox b, imageBlob page with
  | Some box, Some blob =>
      if isCropType (block_type b) then
        match cropImageFromBlob E blob box with
        | Ok croppedBlob =>
            let caption := if String.eqb (text b) "null"
                           then defaultCaption (block_type b)
                           else text b in
            [ CroppedImage (blob_bytes croppedBlob);
              Caption ("[" ++ caption ++ "]") ]
        | Throw _ => [ CropErrorText ("[Ошибка отображения: " ++ text b ++ "]") ]
        end
      else [ blockParagraph b ]
  | _, _ => [ blockParagraph b ]
  end.

Definition summaryChildren (summary : option string) : list DocChild :=
  match summary with
  | Some s => if String.eqb s "" then []
              else [ SummaryHeading; SummaryBody s; DocumentSeparator ]
  | None => []
  end.

Definition docChildren (E : Collaborators) (pages : list DocxGenerationData)
    (summary : option string) : list DocChild :=
  (summaryChildren summary
   ++ flat_map (fun page => flat_map (blockChildren E page) (blocks (analysis page)))
               pages)%list.

Definition createDocx (E : Collaborators) (pages : list DocxGenerationData)
    (summary : option string) : result Blob :=
  match packer E (docChildren E pages summary) with
  | Some blob => Ok blob
  | None => Throw PackerFailed
  end.

(** ** [App.tsx]: folder ingestion *)

Record AppState : Type := {
  folders : list FolderGroup;
  processingLog : list LogEntry;
  isProcessing : bool
}.

(** [s.split('/')] *)
Fixpoint splitOn (sep : ascii) (s : string) : list string :=
  match s with
  | EmptyString => [ "" ]
  | String c s' =>
      if Ascii.eqb c sep then "" :: splitOn sep s'
      else match splitOn sep s' with
           | seg :: rest => String c seg :: rest
           | [] => [ String c "" ]
           end
  end.

Definition folderNameOf (relativePath : string) : string :=
  let pathParts := splitOn "/" relativePath in
  if (1 <? List.length pathParts)%nat
  then nth (List.length pathParts - 2) pathParts ""
  else "Root".

(** Template-literal rendering of a non-negative integer. *)
Definition decimal (n : N) : string := NilZero.string_of_uint (N.to_uint n).

Definition fileItemOf (folder : string) (f : File) : FileItem :=
  {| id := folder ++ "_" ++ file_name f ++ "_" ++ decimal (file_size f);
     name := file_name f;
     path := webkitRelativePath f;
     file := f;
     item_type := if isPdf f then pdf else image;
     selected := true;
     rotation := 0 |}.

(** The object [groups]: its own keys in insertion order. *)
Definition Groups : Type := list (string * list FileItem).

(** What [{}] inherits: reading [groups[k]] for one of these keys gives a value
    that is neither falsy nor an array. *)
Definition objectPrototypeKeys : list string :=
  [ "constructor"; "hasOwnProperty"; "isPrototypeOf"; "propertyIsEnumerable";
    "toLocaleString"; "toString"; "valueOf"; "__proto__";
    "__defineGetter__"; "__defineSetter__"; "__lookupGetter__"; "__lookupSetter__" ].

Fixpoint groupsPush (groups : Groups) (k : string) (item : FileItem) : Groups :=
  match groups with
  | [] => [ (k, [ item ]) ]
  | (k', items) :: rest =>
      if String.eqb k k' then (k', (items ++ [ item ])%list) :: rest
      else (k', items) :: groupsPush rest k item
  end.

(** The callback of [allFiles.forEach]. *)
Definition addFile (groups : Groups) (f : File) : result Groups :=
  if isImage f || isPdf f then
    let folder := folderNameOf (webkitRelativePath f) in
    if existsb (String.eqb folder) objectPrototypeKeys then Throw NotAFunction
    else Ok (groupsPush groups folder (fileItemOf folder f))
  else Ok groups.

Definition addFiles (allFiles : list File) : result Groups :=
  fold_left (fun acc f => try! groups <- acc; addFile groups f) allFiles (Ok []).

(** A key that is an array index: the canonical decimal form of an integer
    below 2^32 - 1. *)
Definition arrayIndex (k : string) : option N :=
  match NilZero.uint_of_string k with
  | Some d =>
      let n := N.of_uint d in
      if String.eqb (decimal n) k && (n <=? 4294967294)%N then Some n else None
  | None => None
  end.

Definition isArrayIndex (k : string) : bool :=
  match arrayIndex k with Some _ => true | None => false end.

Definition compareIndexKeys {V} (a b : string * V) : Z :=
  match arrayIndex (fst a), arrayIndex (fst b) with
  | Some m, Some n => (Z.of_N m - Z.of_N n)%Z
  | _, _ => 0%Z
  end.

(** [Object.entries]: array-index keys in ascending order, then the other keys
    in insertion order. *)
Definition objectEntries {V} (o : list (string * V)) : list (string * V) :=
  (js_sort compareIndexKeys (filter (fun kv => isArrayIndex (fst kv)) o)
   ++ filter (fun kv => negb (isArrayIndex (fst kv))) o)%list.

Definition newFolder (E : Collaborators) (entry : string * list FileItem) : FolderGroup :=
  {| folderName := fst entry;
     files := naturalSort E (snd entry) name;
     status := pending;
     resultDocBlob := None |}.

Definition handleFileInputChange (E : Collaborators) (st : AppState)
    (allFiles : list File) : result AppState :=
  match allFiles with
  | [] => Ok st
  | _ =>
      try! groups <- addFiles allFiles;
      let newFolders := map (newFolder E) (objectEntries groups) in
      Ok {| folders := newFolders;
            processingLog :=
              (processingLog st ++ [ LogLoaded (List.length newFolders) ])%list;
            isProcessing := isProcessing st |}
  end.

(** ** [App.tsx]: the pipeline orchestrator *)

Definition decimalNat (n : nat) : string := decimal (N.of_nat n).

(** The loop over [pdfPageBlobs]: pages pushed to the buffer, log lines, and
    the exception that left the loop, if any. *)
Fixpoint analyzePdfPages (E : Collaborators) (options : ProcessingOptions)
    (fileItem : FileItem) (total idx : nat) (pdfPageBlobs : list Blob)
  : list DocxGenerationData * list LogEntry * option exn :=
  match pdfPageBlobs with
  | [] => ([], [], None)
  | blob :: rest =>
      let tempFile :=
        newFile blob (name fileItem ++ "_page_" ++ decimalNat (idx + 1) ++ ".jpg")
                "image/jpeg" in
      match analyzePage E tempFile (language options) with
      | Throw e => ([], [ LogPdfPageAnalysis (idx + 1) total ], Some e)
      | Ok pageAnalysis =>
          let '(pushed, logged, thrown) :=
            analyzePdfPages E options fileItem total (S idx) rest in
          ({| originalFileName :=
                name fileItem ++ " [Page " ++ decimalNat (idx + 1) ++ "]";
              analysis := pageAnalysis;
              imageBlob := Some blob;
              sourceType := image |} :: pushed,
           LogPdfPageAnalysis (idx + 1) total :: logged,
           thrown)
      end
  end.

Definition caught (fileItem : FileItem) (thrown : option exn) : list LogEntry :=
  match thrown with
  | Some e => [ LogItemError (name fileItem) e ]
  | None => []
  end.

(** The body of [for (const fileItem of filesToProcess)], with its [catch]. *)
Definition processItem (E : Collaborators) (options : ProcessingOptions)
    (fileItem : FileItem) : list DocxGenerationData * list LogEntry :=
  match item_type fileItem with
  | pdf =>
      match snd (convertPdfToImages E (file fileItem)) with
      | Throw e => ([], LogPdfExtract (name fileItem) :: caught fileItem (Some e))
      | Ok pdfPageBlobs =>
          let '(pushed, logged, thrown) :=
            analyzePdfPages E options fileItem (List.length pdfPageBlobs) 0 pdfPageBlobs in
          (pushed,
           (LogPdfExtract (name fileItem) :: LogPdfPageCount (List.length pdfPageBlobs)
              :: logged ++ caught fileItem thrown)%list)
      end
  | image =>
      let rotated :=
        if (rotation fileItem =? 0)%Z then Ok (file fileItem)
        else processImageWithRotation E (file fileItem) (rotation fileItem) in
      let rotationLog :=
        if (rotation fileItem =? 0)%Z then []
        else [ LogRotation (rotation fileItem) (name fileItem) ] in
      match rotated with
      | Throw e => ([], (rotationLog ++ caught fileItem (Some e))%list)
      | Ok fileToAnalyze =>
          match analyzePage E fileToAnalyze (language options) with
          | Throw e =>
              ([], (rotationLog ++ LogImageAnalysis (name fileItem)
                      :: caught fileItem (Some e))%list)
          | Ok pageAnalysis =>
              ([ {| originalFileName := name fileItem;
                    analysis := pageAnalysis;
                    imageBlob := Some (file_blob fileToAnalyze);
                    sourceType := image |} ],
               (rotationLog ++ [ LogImageAnalysis (name fileItem) ])%list)
          end
      end
  end.

(** Phase 1: the buffer [docxPagesBuffer] and the log lines of the item loop. *)
Fixpoint extractAndAnalyze (E : Collaborators) (options : ProcessingOptions)
    (filesToProcess : list FileItem) : list DocxGenerationData * list LogEntry :=
  match filesToProcess with
  | [] => ([], [])
  | fileItem :: rest =>
      let '(pages, logged) := processItem E options fileItem in
      let '(pages', logged') := extractAndAnalyze E options rest in
      ((pages ++ pages')%list, (logged ++ logged')%list)
  end.

Definition isVisualCrop (b : PageContentBlock) : bool :=
  BlockType_eqb (block_type b) image_crop || BlockType_eqb (block_type b) table_crop.

(** Phase 3: the text handed to [generateSummary]. *)
Definition fullText (orderedPages : list DocxGenerationData) : string :=
  join (String "010" (String "010" ""))
       (map (fun p => join " " (map text (filter (fun b => negb (isVisualCrop b))
                                                 (blocks (analysis p)))))
            orderedPages).

Definition summaryLanguage (options : ProcessingOptions) : string :=
  if String.eqb (language options) "Original" then "Russian" else language options.

(** One iteration of the folder loop, for a folder with a selected file. *)
Record FolderRun : Type := {
  run_folder : FolderGroup;             (* the folder object after the iteration *)
  run_log : list LogEntry;
  run_writes : list Status;             (* the assignments to folder.status, in order *)
  run_download : option (string * Blob);
  run_uncaught : option exn             (* an exception that leaves processFolders *)
}.

Definition withStatus (folder : FolderGroup) (s : Status) (doc : option Blob)
  : FolderGroup :=
  {| folderName := folderName folder;
     files := files folder;
     status := s;
     resultDocBlob := doc |}.

Definition stopped (folder : FolderGroup) (logged : list LogEntry) (e : exn)
  : FolderRun :=
  {| run_folder := withStatus folder processing (resultDocBlob folder);
     run_log := logged;
     run_writes := [ processing ];
     run_download := None;
     run_uncaught := Some e |}.

Definition assemble (E : Collaborators) (folder : FolderGroup)
    (logged : list LogEntry) (orderedPages : list DocxGenerationData)
    (summaryText : option string) : FolderRun :=
  match createDocx E orderedPages summaryText with
  | Ok blob =>
      let downloadName := (folderName folder ++ "_AI_Processed.docx")%string in
      {| run_folder := withStatus folder completed (Some blob);
         run_log := (logged ++ [ LogPhase4; LogSuccess downloadName ])%list;
         run_writes := [ processing; completed ];
         run_download := Some (downloadName, blob);
         run_uncaught := None |}
  | Throw e =>
      {| run_folder := withStatus folder error (resultDocBlob folder);
         run_log := (logged ++ [ LogPhase4; LogDocxError e ])%list;
         run_writes := [ processing; error ];
         run_download := None;
         run_uncaught := None |}
  end.

Definition processFolder (E : Collaborators) (options : ProcessingOptions)
    (folder : FolderGroup) : FolderRun :=
  let filesToProcess := filter selected (files folder) in
  let '(docxPagesBuffer, logged1) := extractAndAnalyze E options filesToProcess in
  let logged2 :=
    (LogPhase1 :: logged1 ++ [ LogPhase2 (List.length docxPagesBuffer) ])%list in
  match reorderPagesByContent E docxPagesBuffer with
  | Throw e => stopped folder logged2 e
  | Ok orderedPages =>
      let logged3 := (logged2 ++ [ LogOrderRestored ])%list in
      if generateSummary_opt options then
        match generateSummary E (fullText orderedPages) (summaryLanguage options) with
        | Throw e => stopped folder (logged3 ++ [ LogPhase3 ])%list e
        | Ok summaryText =>
            assemble E folder (logged3 ++ [ LogPhase3 ])%list orderedPages
                     (Some summaryText)
        end
      else assemble E folder logged3 orderedPages None
  end.

(** The loop [for (let i = 0; i < updatedFolders.length; i++)]. *)
Record Run : Type := {
  updatedFolders : list FolderGroup;
  logged : list LogEntry;
  writes : list (list Status);          (* per folder, in folder order *)
  downloads : list (string * Blob);
  uncaught : option exn
}.

Definition hasSelection (folder : FolderGroup) : bool :=
  existsb selected (files folder).

Fixpoint folderLoop (E : Collaborators) (options : ProcessingOptions)
    (todo : list FolderGroup) : Run :=
  match todo with
  | [] => {| updatedFolders := []; logged := []; writes := [];
             downloads := []; uncaught := None |}
  | folder :: rest =>
      if hasSelection folder then
        let r := processFolder E options folder in
        match run_uncaught r with
        | Some e =>
            {| updatedFolders := run_folder r :: rest;
               logged := run_log r;
               writes := run_writes r :: map (fun _ => []) rest;
               downloads := [];
               uncaught := Some e |}
        | None =>
            let rs := folderLoop E options rest in
            {| updatedFolders := run_folder r :: updatedFolders rs;
               logged := (run_log r ++ logged rs)%list;
               writes := run_writes r :: writes rs;
               downloads := (match run_download r with
                             | Some d => [ d ]
                             | None => []
                             end ++ downloads rs)%list;
               uncaught := uncaught rs |}
        end
      else
        let rs := folderLoop E options rest in
        {| updatedFolders := folder :: updatedFolders rs;
           logged := logged rs;
           writes := [] :: writes rs;
           downloads := downloads rs;
           uncaught := uncaught rs |}
  end.

(** [processFolders]: the application state it leaves, the assignments it made
    to each folder's status, the files it offered for download, and the
    exception that escaped it, if any. *)
Definition processFolders (E : Collaborators) (options : ProcessingOptions)
    (st : AppState) : AppState * Run :=
  if existsb hasSelection (folders st) then
    let r := folderLoop E options (folders st) in
    match uncaught r with
    | Some _ =>
        ({| folders := updatedFolders r;
            processingLog := (processingLog st ++ LogStart :: logged r)%list;
            isProcessing := true |}, r)
    | None =>
        ({| folders := updatedFolders r;
            processingLog :=
              (processingLog st ++ LogStart :: logged r ++ [ LogAllDone ])%list;
            isProcessing := false |}, r)
    end
  else
    ({| folders := folders st;
        processingLog := (processingLog st ++ [ LogNothingSelected ])%list;
        isProcessing := isProcessing st |},
     {| updatedFolders := folders st; logged := [];
        writes := map (fun _ => []) (folders st);
        downloads := []; uncaught := None |}).


(** ** [App.tsx]: selection and rotation handlers *)

Definition withFiles (folder : FolderGroup) (items : list FileItem) : FolderGroup :=
  {| folderName := folderName folder;
     files := items;
     status := status folder;
     resultDocBlob := resultDocBlob folder |}.

Definition withSelected (f : FileItem) (b : bool) : FileItem :=
  {| id := id f; name := name f; path := path f; file := file f;
     item_type := item_type f; selected := b; rotation := rotation f |}.

Definition withRotation (f : FileItem) (r : Z) : FileItem :=
  {| id := id f; name := name f; path := path f; file := file f;
     item_type := item_type f; selected := selected f; rotation := r |}.

(** [arr[i] = x] on a copy of the array, for an index of the array. *)
Fixpoint replaceAt {A} (arr : list A) (i : nat) (x : A) : list A :=
  match arr, i with
  | [], _ => []
  | _ :: rest, O => x :: rest
  | y :: rest, S i' => y :: replaceAt rest i' x
  end.

(** The updater of [toggleFileSelection], run once.  [None] stands for the
    TypeError raised when [folderIdx] is no index of the array. *)
Definition toggleFileSelection (prev : list FolderGroup) (folderIdx : nat)
    (fileId : string) : option (list FolderGroup) :=
  match nth_error prev folderIdx with
  | Some folder =>
      Some (replaceAt prev folderIdx
              (withFiles folder
                 (map (fun f => if String.eqb (id f) fileId
                                then withSelected f (negb (selected f)) else f)
                      (files folder))))
  | None => None
  end.

(** The updater of [toggleFolderSelection], run once. *)
Definition toggleFolderSelection (prev : list FolderGroup) (folderIdx : nat)
    (selectAll : bool) : option (list FolderGroup) :=
  match nth_error prev folderIdx with
  | Some folder =>
      Some (replaceAt prev folderIdx
              (withFiles folder (map (fun f => withSelected f selectAll) (files folder))))
  | None => None
  end.

(** The updater of [updateFileRotation]. *)
Definition updateFileRotation (prev : list FolderGroup) (fileId : string)
    (newRotation : Z) : list FolderGroup :=
  map (fun folder =>
         withFiles folder
           (map (fun f => if String.eqb (id f) fileId
                          then withRotation f newRotation else f)
                (files folder)))
      prev.

(** [handleRotate] of the preview: the rotation the preview shows afterwards
    and the folders after the update it requests. *)
Definition handleRotate (fileItem : FileItem) (currentRotation : Z)
    (prev : list FolderGroup) : Z * list FolderGroup :=
  let newRotation := Z.rem (currentRotation + 90) 360 in
  (newRotation,
   if isPdf (file fileItem) then prev
   else updateFileRotation prev (id fileItem) newRotation).

(** The updaters of [handleZoomIn] and [handleZoomOut] of the preview, on the
    scale, which starts at 1. *)
Definition handleZoomIn (prev : Q) : Q := Qmin (prev + (1 # 4)) 3.

Definition handleZoomOut (prev : Q) : Q := Qmax (prev - (1 # 4)) (1 # 2).

Inductive ZoomPress : Type := ZoomIn | ZoomOut.

(** The scale after a sequence of presses. *)
Definition zoomed (presses : list ZoomPress) : Q :=
  fold_left (fun scale press =>
               match press with
               | ZoomIn => handleZoomIn scale
               | ZoomOut => handleZoomOut scale
               end) presses 1%Q.

(** * Vocabulary of the statements *)

(** A hint over [n] pages that has length [n], stays in range and repeats no
    value: a bijection over the indices below [n]. *)
Fixpoint noRepeat (ids : list Z) : bool :=
  match ids with
  | [] => true
  | id :: rest => negb (existsb (Z.eqb id) rest) && noRepeat rest
  end.

Definition inRange (n : nat) (id : Z) : bool :=
  (0 <=? id)%Z && (id <? Z.of_nat n)%Z.

Definition hintIsBijection (n : nat) (ids : list Z) : bool :=
  (List.length ids =? n)%nat && forallb (inRange n) ids && noRepeat ids.

(** The ranking model failed: the call rejected, or its reply is not an array. *)
Definition rankingErrors (r : RankingResponse) : bool :=
  match r with
  | RankRejected | RankNotAnArray => true
  | _ => false
  end.

(** The block types whose text goes into the summary: all except the two
    visual crops [image_crop] and [table_crop]. *)
Definition isNarrative (t : BlockType) : bool :=
  match t with
  | image_crop | table_crop => false
  | heading | subheading | author | paragraph | image_description
  | table_row | formula_crop => true
  end.

(** The narrative text of one page: the texts of its narrative blocks, in
    block order, with one space between two of them. *)
Definition narrativeText (p : DocxGenerationData) : string :=
  String.concat " " (map text (filter (fun b => isNarrative (block_type b))
                                      (blocks (analysis p)))).

(** A blank line. *)
Definition blankLine : string := String "010" (String "010" "").




(** Where a point of the drawing lands on the canvas under a translation
    followed by a rotation by a multiple of a quarter turn (clockwise, the
    vertical axis pointing down). *)
Definition quarterTurn (degrees : Z) (p : Q * Q) : option (Q * Q) :=
  let '(x, y) := p in
  match (degrees mod 360)%Z with
  | 0%Z => Some (x, y)
  | 90%Z => Some (- y, x)%Q
  | 180%Z => Some (- x, - y)%Q
  | 270%Z => Some (y, - x)%Q
  | _ => None
  end.

(** Where [drawImage] paints the point [(u, v)] of the image: the point has to
    lie in the source rectangle, which is stretched onto the destination
    rectangle. *)
Definition drawnAt (sx sy sw sh dx dy dw dh u v : Q) : option (Q * Q) :=
  if negb (Qle_bool sw 0) && negb (Qle_bool sh 0)
     && Qle_bool sx u && Qle_bool u (sx + sw)
     && Qle_bool sy v && Qle_bool v (sy + sh)
  then Some (dx + (u - sx) * (dw / sw), dy + (v - sy) * (dh / sh))%Q
  else None.

(** The canvas position at which the point [(u, v)] of the image is painted,
    for a canvas whose operations are a translation, a rotation and one
    drawing of the image; nothing when the drawing leaves the point out. *)
Definition positionOnCanvas (c : Canvas) (u v : Q) : option (Q * Q) :=
  match canvas_ops c with
  | [ Translate tx ty; Rotate degrees; DrawImage _ sx sy sw sh dx dy dw dh ] =>
      match drawnAt sx sy sw sh dx dy dw dh u v with
      | Some p =>
          match quarterTurn degrees p with
          | Some (x, y) => Some (Qred (tx + x), Qred (ty + y))
          | None => None
          end
      | None => None
      end
  | _ => None
  end.

(** The point [(u, v)] is a point of the image. *)
Definition insideImage (img : Image) (u v : Q) : Prop :=
  (0 < img_width img)%Z /\ (0 < img_height img)%Z
  /\ (0 <= u <= inject_Z (img_width img))%Q
  /\ (0 <= v <= inject_Z (img_height img))%Q.


Definition samePoint (p : option (Q * Q)) (x y : Q) : Prop :=
  match p with
  | Some (px, py) => (px == x /\ py == y)%Q
  | None => False
  end.

(** The file is let in by the input filter. *)
Definition accepted (f : File) : bool := isImage f || isPdf f.

(** The entry made for an accepted file. *)
Definition entryOf (f : File) : FileItem :=
  fileItemOf (folderNameOf (webkitRelativePath f)) f.




(** Every character of the string passes the test. *)
Fixpoint everyChar (p : ascii -> bool) (s : string) : bool :=
  match s with
  | EmptyString => true
  | String c s' => p c && everyChar p s'
  end.

(** The first and the last character of a string, if any. *)
Definition firstChar (s : string) : option ascii := hd_error (list_ascii_of_string s).
Definition lastChar (s : string) : option ascii := hd_error (rev (list_ascii_of_string s)).

Definition notWhiteSpace (c : option ascii) : Prop :=
  match c with
  | Some a => isWhiteSpace a = false
  | None => True
  end.

(** The characters Markdown emphasis and headings are written with. *)
Definition isMarkdownMark (c : ascii) : bool :=
  Ascii.eqb c "*" || Ascii.eqb c "#" || Ascii.eqb c "_".

(** [trim] on the list of characters. *)
Definition trimList (l : list ascii) : list ascii :=
  rev (dropWhile isWhiteSpace (rev (dropWhile isWhiteSpace l))).

(** The folder an input file is filed under. *)
Definition folderOf (f : File) : string := folderNameOf (webkitRelativePath f).

(** The names of a list, each at its first occurrence. *)
Fixpoint firstOccurrences (names : list string) : list string :=
  match names with
  | [] => []
  | k :: rest => k :: filter (fun k' => negb (String.eqb k' k)) (firstOccurrences rest)
  end.

(** The entries of the files filed under [k], in the order of the files. *)
Definition entriesUnder (fs : list File) (k : string) : list FileItem :=
  map entryOf (filter (fun f => String.eqb (folderOf f) k) fs).

(** The groups a list of accepted files builds up. *)
Definition groupsOf (fs : list File) : Groups :=
  map (fun k => (k, entriesUnder fs k)) (firstOccurrences (map folderOf fs)).

(** [a] is placed no later than [b] by the comparator. *)
Definition notAfter {T} (cmp : T -> T -> Z) (a b : T) : Prop := (cmp a b <= 0)%Z.

(** The size of an image after a quarter turn: that of the canvas it was drawn
    on. *)
Definition turned (img : Image) : Image :=
  {| img_width := img_height img; img_height := img_width img |}.

(** The files a run offers for a folder in the state it leaves. *)
Definition offered (g : FolderGroup) : list (string * Blob) :=
  match status g, resultDocBlob g with
  | completed, Some blob => [ ((folderName g ++ "_AI_Processed.docx")%string, blob) ]
  | _, _ => []
  end.

(** * Sample inputs *)

Definition compareStrings (a b : string) : Z :=
  match String.compare a b with
  | Lt => (-1)%Z
  | Eq => 0%Z
  | Gt => 1%Z
  end.

Definition emptyDocx : Blob :=
  {| blob_type := "application/vnd.openxmlformats-officedocument.wordprocessingml.document";
     blob_bytes := [] |}.

(** An encoder that writes one zero byte per pixel of the canvas. *)
Definition blankEncoder (c : Canvas) (mime : string) : option (list Byte.byte) :=
  Some (repeat Byte.x00 (Z.to_nat (canvas_width c * canvas_height c))).

(** A packer that refuses a document without children. *)
Definition packNonEmpty (children : list DocChild) : option Blob :=
  match children with
  | [] => None
  | _ :: _ => Some emptyDocx
  end.

(** Collaborators that open no PDF, decode every image as 50 by 50, analyse no
    page, and answer the ranking request with [rank]. *)
Definition sampleCollaborators (key : bool) (rank : RankingResponse) : Collaborators :=
  {| apiKey := key;
     collatorCompare := compareStrings;
     getDocument := fun _ => None;
     decodeImage := fun _ => Some {| img_width := 50; img_height := 50 |};
     canvasContext := true;
     canvasToBlob := blankEncoder;
     fileReadable := fun _ => true;
     analyzeModel := fun _ _ => None;
     rankModel := fun _ => rank;
     summaryModel := fun _ => None;
     packer := packNonEmpty |}.


Definition samplePage (fileName : string) (n : option Z) : DocxGenerationData :=
  {| originalFileName := fileName;
     analysis := {| pageNumber := n; blocks := []; hasContinuingSentence := false |};
     imageBlob := None;
     sourceType := image |}.

Definition pageA3 : DocxGenerationData := samplePage "a.jpg" (Some 3%Z).
Definition pageB1 : DocxGenerationData := samplePage "b.jpg" (Some 1%Z).
Definition pageC2 : DocxGenerationData := samplePage "c.jpg" (Some 2%Z).
Definition pageD1000 : DocxGenerationData := samplePage "d.jpg" (Some 1000%Z).
Definition pageE : DocxGenerationData := samplePage "e.jpg" None.

Definition sampleBlock (t : BlockType) (s : string) : PageContentBlock :=
  {| block_type := t; text := s; isTranslated := None; boundingBox := None |}.

Definition pageOfBlocks (fileName : string) (bs : list PageContentBlock)
  : DocxGenerationData :=
  {| originalFileName := fileName;
     analysis := {| pageNumber := None; blocks := bs; hasContinuingSentence := false |};
     imageBlob := None;
     sourceType := image |}.



Definition sampleFile (fileName relativePath mime : string) (bytes : list Byte.byte)
  : File :=
  {| file_blob := {| blob_type := mime; blob_bytes := bytes |};
     file_name := fileName;
     webkitRelativePath := relativePath |}.

Definition emptyState : AppState :=
  {| folders := []; processingLog := []; isProcessing := false |}.

(** Two scans with the same name and size, in two directories that are both
    called "scan". *)
Definition scanInA : File :=
  sampleFile "p1.jpg" "root/a/scan/p1.jpg" "image/jpeg" [ Byte.x01; Byte.x02; Byte.x03 ].
Definition scanInB : File :=
  sampleFile "p1.jpg" "root/b/scan/p1.jpg" "image/jpeg" [ Byte.x04; Byte.x05; Byte.x06 ].
Definition notes : File :=
  sampleFile "notes.txt" "root/a/scan/notes.txt" "text/plain" [ Byte.x07 ].

(** A PDF (no sample collaborator opens it) and a scan, in two folders. *)
Definition brokenPdf : File :=
  sampleFile "book.pdf" "root/a/book.pdf" "application/pdf" [ Byte.x25 ].
Definition scanInC : File :=
  sampleFile "p2.png" "root/c/p2.png" "image/png" [ Byte.x89 ].

Definition withoutSummary : ProcessingOptions :=
  {| language := "Original"; generateSummary_opt := false |}.
Definition withSummary : ProcessingOptions :=
  {| language := "Original"; generateSummary_opt := true |}.

(** The state after the files were picked. *)
Definition afterPicking (E : Collaborators) (allFiles : list File) : AppState :=
  match handleFileInputChange E emptyState allFiles with
  | Ok st => st
  | Throw _ => emptyState
  end.

(** The same collaborators with another collator. *)
Definition collatingAs (cmp : string -> string -> Z) (E : Collaborators) : Collaborators :=
  {| apiKey := apiKey E;
     collatorCompare := cmp;
     getDocument := getDocument E;
     decodeImage := decodeImage E;
     canvasContext := canvasContext E;
     canvasToBlob := canvasToBlob E;
     fileReadable := fileReadable E;
     analyzeModel := analyzeModel E;
     rankModel := rankModel E;
     summaryModel := summaryModel E;
     packer := packer E |}.

(** A collator that orders names by their length. *)
Definition byLength (a b : string) : Z := (str_length a - str_length b)%Z.

(** * Properties *)

(** ** Arrays *)

Lemma js_index_spec {A} (arr : list A) (i : Z) (x : A) :
  js_index arr i = Some x <-> (0 <= i)%Z /\ nth_error arr (Z.to_nat i) = Some x.
Proof.
  unfold js_index. destruct (i <? 0)%Z eqn:Hi.
  - apply Z.ltb_lt in Hi. split; [discriminate | lia].
  - apply Z.ltb_ge in Hi. tauto.
Qed.

Lemma js_index_in_range {A} (arr : list A) (i : Z) :
  (0 <= i < Z.of_nat (List.length arr))%Z -> exists x, js_index arr i = Some x.
Proof.
  intros Hi. destruct (nth_error arr (Z.to_nat i)) as [x|] eqn:Hx.
  - exists x. apply js_index_spec. split; [lia | assumption].
  - apply nth_error_None in Hx. lia.
Qed.

Lemma js_index_out_of_range {A} (arr : list A) (i : Z) :
  ~ (0 <= i < Z.of_nat (List.length arr))%Z -> js_index arr i = None.
Proof.
  intros Hi. destruct (js_index arr i) as [x|] eqn:Hx; [|reflexivity].
  apply js_index_spec in Hx. destruct Hx as [H0 Hx].
  assert (Z.to_nat i < List.length arr) by (apply nth_error_Some; congruence).
  lia.
Qed.

Lemma includes_spec (arr : list Z) (idx : nat) :
  includes arr idx = true <-> In (Z.of_nat idx) arr.
Proof.
  unfold includes. rewrite existsb_exists. split.
  - intros [z [Hz Heq]]. apply Z.eqb_eq in Heq. now subst.
  - intros H. exists (Z.of_nat idx). split; [assumption | apply Z.eqb_refl].
Qed.

Lemma indexed_from_spec {A} (arr : list A) (start i : nat) (x : A) :
  In (i, x) (combine (seq start (List.length arr)) arr)
  <-> start <= i /\ nth_error arr (i - start) = Some x.
Proof.
  revert start. induction arr as [|a arr IH]; intros start; simpl.
  - split; [tauto|]. intros [_ H]. destruct (i - start); discriminate.
  - rewrite IH. split.
    + intros [H | [Hle H]].
      * inversion H; subst. rewrite Nat.sub_diag. split; [lia | reflexivity].
      * split; [lia|]. replace (i - start) with (S (i - S start)) by lia. exact H.
    + intros [Hle H]. destruct (i - start) as [|k] eqn:Hk.
      * left. simpl in H. inversion H. f_equal. lia.
      * right. split; [lia|]. simpl in H. replace (i - S start) with k by lia. exact H.
Qed.

Lemma indexed_spec {A} (arr : list A) (i : nat) (x : A) :
  In (i, x) (indexed arr) <-> nth_error arr i = Some x.
Proof.
  unfold indexed. rewrite indexed_from_spec, Nat.sub_0_r. split; [tauto|].
  intros H. split; [lia | exact H].
Qed.

Lemma indexed_from_map_snd {A} (arr : list A) (start : nat) :
  map snd (combine (seq start (List.length arr)) arr) = arr.
Proof.
  revert start. induction arr as [|a arr IH]; intros start; simpl;
    [reflexivity | now rewrite IH].
Qed.

(** ** The stable sort *)

Section StableSort.
Context {A : Type}.
Variable key : A -> Z.
Variable cmp : A -> A -> Z.
Hypothesis cmp_key : forall a b, cmp a b = (key a - key b)%Z.

Lemma sort_insert_perm (x : A) (l : list A) :
  Permutation (x :: l) (sort_insert cmp x l).
Proof.
  induction l as [|y l IH]; simpl; [reflexivity|].
  destruct (cmp x y <=? 0)%Z; [reflexivity|].
  etransitivity; [apply perm_swap|]. now apply perm_skip.
Qed.

Lemma js_sort_perm (l : list A) : Permutation l (js_sort cmp l).
Proof.
  induction l as [|x l IH]; simpl; [constructor|].
  etransitivity; [apply perm_skip, IH | apply sort_insert_perm].
Qed.

Lemma sort_insert_sorted (x : A) (l : list A) :
  StronglySorted (keyLe key) l -> StronglySorted (keyLe key) (sort_insert cmp x l).
Proof.
  induction 1 as [|y l Hl IH Hy]; simpl.
  - repeat constructor.
  - rewrite cmp_key. destruct (key x - key y <=? 0)%Z eqn:Hc.
    + apply Z.leb_le in Hc. constructor; [constructor; assumption|].
      constructor; [unfold keyLe; lia|].
      eapply Forall_impl; [|exact Hy]. unfold keyLe. intros; lia.
    + apply Z.leb_gt in Hc. constructor; [assumption|].
      eapply Permutation_Forall; [apply sort_insert_perm|].
      constructor; [unfold keyLe; lia | assumption].
Qed.

Lemma js_sort_sorted (l : list A) : StronglySorted (keyLe key) (js_sort cmp l).
Proof.
  induction l as [|x l IH]; simpl; [constructor | now apply sort_insert_sorted].
Qed.

Lemma sort_insert_stable (k : Z) (x : A) (l : list A) :
  filter (fun a => (key a =? k)%Z) (sort_insert cmp x l)
  = filter (fun a => (key a =? k)%Z) (x :: l).
Proof.
  induction l as [|y l IH]; [reflexivity|].
  cbn [sort_insert]. rewrite cmp_key.
  destruct (key x - key y <=? 0)%Z eqn:Hc; [reflexivity|].
  apply Z.leb_gt in Hc. cbn [filter] in *. rewrite IH.
  destruct (key y =? k)%Z eqn:Hy, (key x =? k)%Z eqn:Hx; try reflexivity.
  apply Z.eqb_eq in Hy, Hx. lia.
Qed.

Lemma js_sort_stable (k : Z) (l : list A) :
  filter (fun a => (key a =? k)%Z) (js_sort cmp l)
  = filter (fun a => (key a =? k)%Z) l.
Proof.
  induction l as [|x l IH]; [reflexivity|].
  cbn [js_sort fold_right]. rewrite sort_insert_stable.
  cbn [filter]. unfold js_sort in IH. now rewrite IH.
Qed.
End StableSort.

(** ** Reordering by a hint *)

Lemma inRange_spec (n : nat) (id : Z) :
  inRange n id = true <-> (0 <= id < Z.of_nat n)%Z.
Proof. unfold inRange. rewrite andb_true_iff, Z.leb_le, Z.ltb_lt. tauto. Qed.

Lemma Forall2_fst_snd {A B} (R : A -> B -> Prop) (l : list (A * B)) :
  Forall (fun ab => R (fst ab) (snd ab)) l -> Forall2 R (map fst l) (map snd l).
Proof. induction 1; simpl; constructor; assumption. Qed.

Lemma map_fst_filter_fst {A B} (f : A -> bool) (l : list (A * B)) :
  map fst (filter (fun ab => f (fst ab)) l) = filter f (map fst l).
Proof.
  induction l as [|[a b] l IH]; simpl; [reflexivity|].
  destruct (f a); simpl; now rewrite IH.
Qed.

Lemma indexed_from_map_fst {A} (arr : list A) (start : nat) :
  map fst (combine (seq start (List.length arr)) arr) = seq start (List.length arr).
Proof.
  revert start. induction arr as [|a arr IH]; intros start; simpl;
    [reflexivity | now rewrite IH].
Qed.

Lemma indexed_Forall {A} (arr : list A) :
  Forall (fun ip => nth_error arr (fst ip) = Some (snd ip)) (indexed arr).
Proof. apply Forall_forall. intros [i p] H. now apply indexed_spec. Qed.

Lemma Forall_filter_keep {A} (P : A -> Prop) (f : A -> bool) (l : list A) :
  Forall P l -> Forall P (filter f l).
Proof.
  rewrite !Forall_forall. intros H x Hx. apply filter_In in Hx. now apply H.
Qed.

Lemma seq_nth_error_Forall2 {A} (arr : list A) :
  Forall2 (fun i p => nth_error arr i = Some p) (seq 0 (List.length arr)) arr.
Proof.
  rewrite <- (indexed_from_map_fst arr 0) at 1.
  rewrite <- (indexed_from_map_snd arr 0) at 3.
  apply Forall2_fst_snd, indexed_Forall.
Qed.

Lemma pagesAtHint_spec {A} (pages : list A) (ids : list Z) :
  Forall2 (fun id p => js_index pages id = Some p)
          (filter (inRange (List.length pages)) ids) (pagesAtHint pages ids).
Proof.
  induction ids as [|id ids IH]; simpl; [constructor|].
  destruct (inRange (List.length pages) id) eqn:Hr.
  - apply inRange_spec, (js_index_in_range pages) in Hr. destruct Hr as [x Hx].
    rewrite Hx. simpl. now constructor.
  - assert (Hn : js_index pages id = None).
    { apply js_index_out_of_range. rewrite <- inRange_spec. congruence. }
    now rewrite Hn.
Qed.

Lemma pagesMissingFrom_spec {A} (pages : list A) (ids : list Z) :
  Forall2 (fun i p => nth_error pages i = Some p)
          (filter (fun i => negb (includes ids i)) (seq 0 (List.length pages)))
          (pagesMissingFrom pages ids).
Proof.
  unfold pagesMissingFrom.
  rewrite <- (indexed_from_map_fst pages 0).
  rewrite <- (map_fst_filter_fst (fun i => negb (includes ids i))).
  apply Forall2_fst_snd, Forall_filter_keep, indexed_Forall.
Qed.

Lemma applyHint_keeps_every_page {A} (pages : list A) (ids : list Z) (p : A) :
  In p pages -> In p (applyHint pages ids).
Proof.
  intros Hp. apply In_nth_error in Hp. destruct Hp as [idx Hidx].
  unfold applyHint. apply in_or_app.
  destruct (includes ids idx) eqn:Hinc.
  - left. apply includes_spec in Hinc. unfold pagesAtHint.
    apply in_flat_map. exists (Z.of_nat idx). split; [assumption|].
    assert (Hj : js_index pages (Z.of_nat idx) = Some p).
    { apply js_index_spec. rewrite Nat2Z.id. split; [lia | assumption]. }
    rewrite Hj. now left.
  - right. unfold pagesMissingFrom. apply in_map_iff. exists (idx, p).
    split; [reflexivity|]. apply filter_In. split.
    + now apply indexed_spec.
    + simpl. now rewrite Hinc.
Qed.

Lemma reorder_with_hint (E : Collaborators) (pages : list DocxGenerationData)
    (ids : list Z) :
  2 <= List.length pages -> apiKey E = true ->
  rankModel E (pagesSummary pages) = RankIds ids ->
  reorderPagesByContent E pages = Ok (applyHint pages ids).
Proof.
  intros Hn Hkey Hrank. unfold reorderPagesByContent.
  destruct (List.length pages <=? 1)%nat eqn:Hlen.
  - apply Nat.leb_le in Hlen. lia.
  - now rewrite Hkey, Hrank.
Qed.



(** On every path that returns, no page is lost. *)
Lemma reorder_keeps_every_page (E : Collaborators) (pages out : list DocxGenerationData) :
  reorderPagesByContent E pages = Ok out -> forall p, In p pages -> In p out.
Proof.
  unfold reorderPagesByContent. intros H p Hp.
  destruct (List.length pages <=? 1)%nat; [now inversion H; subst|].
  destruct (negb (apiKey E)); [discriminate|].
  destruct (rankModel E (pagesSummary pages)); inversion H; subst; clear H.
  - eapply Permutation_in; [|exact Hp].
    apply js_sort_perm.
  - assumption.
  - eapply Permutation_in; [|exact Hp].
    apply js_sort_perm.
  - now apply applyHint_keeps_every_page.
Qed.

Lemma noRepeat_NoDup (ids : list Z) : noRepeat ids = true -> NoDup ids.
Proof.
  induction ids as [|id ids IH]; simpl; intros H; constructor.
  - apply andb_true_iff in H. destruct H as [H _].
    apply negb_true_iff in H. intros Hin.
    assert (Hex : existsb (Z.eqb id) ids = true).
    { apply existsb_exists. exists id. split; [assumption | apply Z.eqb_refl]. }
    congruence.
  - apply andb_true_iff in H. apply IH, H.
Qed.

Lemma hintIsBijection_spec (n : nat) (ids : list Z) :
  hintIsBijection n ids = true ->
  List.length ids = n
  /\ filter (inRange n) ids = ids
  /\ forall i, i < n -> includes ids i = true.
Proof.
  unfold hintIsBijection. rewrite !andb_true_iff.
  intros [[Hlen Hrange] Hnd].
  apply Nat.eqb_eq in Hlen. apply noRepeat_NoDup in Hnd.
  rewrite forallb_forall in Hrange.
  split; [assumption|]. split.
  - apply forallb_filter_id. now apply forallb_forall.
  - intros i Hi. apply includes_spec.
    assert (Hincl : incl (map Z.of_nat (seq 0 n)) ids).
    { apply NoDup_length_incl; [assumption | |].
      - rewrite length_map, length_seq. lia.
      - intros id Hid. apply Hrange, inRange_spec in Hid.
        apply in_map_iff. exists (Z.to_nat id). split; [lia|].
        apply in_seq. lia. }
    apply Hincl, in_map, in_seq. lia.
Qed.

Lemma valid_hint_no_missing_page {A} (pages : list A) (ids : list Z) :
  hintIsBijection (List.length pages) ids = true -> pagesMissingFrom pages ids = [].
Proof.
  intros H. apply hintIsBijection_spec in H. destruct H as (_ & _ & Hall).
  unfold pagesMissingFrom.
  assert (Hnil : filter (fun ip : nat * A => negb (includes ids (fst ip))) (indexed pages) = []).
  { rewrite <- (filter_false (indexed pages)). apply filter_ext_in.
    intros [i p] Hip. apply indexed_spec in Hip. simpl.
    rewrite Hall; [reflexivity|]. apply nth_error_Some. congruence. }
  now rewrite Hnil.
Qed.

Lemma valid_hint_exact {A} (pages : list A) (ids : list Z) :
  hintIsBijection (List.length pages) ids = true ->
  Forall2 (fun id p => js_index pages id = Some p) ids (applyHint pages ids).
Proof.
  intros H. unfold applyHint.
  rewrite (valid_hint_no_missing_page pages ids H), app_nil_r.
  apply hintIsBijection_spec in H. destruct H as (_ & Hf & _).
  rewrite <- Hf at 1. apply pagesAtHint_spec.
Qed.

(** C1 (amended).  A hint is applied whatever it contains: the function does
    not validate it and does not fall back to the sort because of its
    content.  When the hint has the length of the input and is a bijection
    over its indices, the result is the input reordered exactly as the hint
    says: its k-th page is the page the k-th entry of the hint points at, and
    nothing is appended. *)
Theorem hint_applied_as_given (E : Collaborators)
    (pages : list DocxGenerationData) (ids : list Z) :
  2 <= List.length pages -> apiKey E = true ->
  rankModel E (pagesSummary pages) = RankIds ids ->
  reorderPagesByContent E pages = Ok (applyHint pages ids)
  /\ (hintIsBijection (List.length pages) ids = true ->
      Forall2 (fun id p => js_index pages id = Some p) ids (applyHint pages ids)
      /\ List.length (applyHint pages ids) = List.length pages
      /\ pagesMissingFrom pages ids = []).
Proof.
  intros Hn Hkey Hrank. split; [now apply reorder_with_hint|].
  intros Hv. pose proof (valid_hint_exact pages ids Hv) as Hex.
  split; [assumption|]. split.
  - apply Forall2_length in Hex. rewrite <- Hex.
    now apply hintIsBijection_spec in Hv.
  - now apply valid_hint_no_missing_page.
Qed.

Lemma hint_applied_as_given_witness :
  let E := sampleCollaborators true (RankIds [1; 2; 0]%Z) in
  let pages := [pageA3; pageB1; pageC2] in
  (2 <= List.length pages /\ apiKey E = true
   /\ rankModel E (pagesSummary pages) = RankIds [1; 2; 0]%Z
   /\ hintIsBijection (List.length pages) [1; 2; 0]%Z = true)
  /\ reorderPagesByContent E pages = Ok [pageB1; pageC2; pageA3]
  /\ List.length (applyHint pages [1; 2; 0]%Z) = 3.
Proof.
  intros E pages.
  pose proof (hint_applied_as_given E pages [1; 2; 0]%Z
                (le_S 2 2 (le_n 2)) eq_refl eq_refl) as [Hrun Hvalid].
  split; [split; [exact (le_S 2 2 (le_n 2)) | repeat split]|].
  split; [exact Hrun | exact (proj1 (proj2 (Hvalid eq_refl)))].
Defined.

(** C1, as stated, fails: the hint [0, 0] over two pages repeats a value and
    misses index 1, yet it is applied (page 0 twice, then page 1) and the
    result is not the fallback sort. *)
Lemma invalid_hint_is_not_rejected :
  let E := sampleCollaborators true (RankIds [0; 0]%Z) in
  let pages := [pageC2; pageB1] in
  hintIsBijection 2 [0; 0]%Z = false
  /\ reorderPagesByContent E pages = Ok [pageC2; pageC2; pageB1]
  /\ defaultSort pages = [pageB1; pageC2]
  /\ reorderPagesByContent E pages <> Ok (defaultSort pages).
Proof.
  intros E pages. repeat split; try reflexivity.
  intros H. vm_compute in H. discriminate H.
Qed.

(** ** The fallback sort *)

Lemma reorder_on_error (E : Collaborators) (pages : list DocxGenerationData) :
  2 <= List.length pages -> apiKey E = true ->
  rankingErrors (rankModel E (pagesSummary pages)) = true ->
  reorderPagesByContent E pages = Ok (defaultSort pages).
Proof.
  intros Hn Hkey Herr. unfold reorderPagesByContent.
  destruct (List.length pages <=? 1)%nat eqn:Hlen.
  - apply Nat.leb_le in Hlen. lia.
  - rewrite Hkey. simpl.
    destruct (rankModel E (pagesSummary pages)); try discriminate; reflexivity.
Qed.

Lemma sorted_after {A} (R : A -> A -> Prop) (before after : list A) (x : A) :
  StronglySorted R (before ++ x :: after) -> Forall (R x) after.
Proof.
  induction before as [|y before IH]; simpl; intros H; inversion H; subst; auto.
Qed.

(** C2 (amended).  When the ranking model fails (its call rejects, or its
    reply is not an array), the pages come back sorted in ascending order of a
    key, the detected page number, or 999 for a page that has none (or has
    0); pages with equal keys keep their original order.  A page that comes
    after a page without a number is therefore never numbered below 999.
    Three pages numbered 3, 1, 2 come back as the second, the third and the
    first. *)
Theorem fallback_sort_on_ranking_error (E : Collaborators)
    (pages : list DocxGenerationData) :
  2 <= List.length pages -> apiKey E = true ->
  rankingErrors (rankModel E (pagesSummary pages)) = true ->
  reorderPagesByContent E pages = Ok (defaultSort pages)
  /\ Permutation pages (defaultSort pages)
  /\ StronglySorted (keyLe pageNumberOr999) (defaultSort pages)
  /\ (forall k, filter (fun p => (pageNumberOr999 p =? k)%Z) (defaultSort pages)
                = filter (fun p => (pageNumberOr999 p =? k)%Z) pages)
  /\ (forall p, pageNumber (analysis p) = None -> pageNumberOr999 p = 999%Z)
  /\ (forall p n, pageNumber (analysis p) = Some n -> n <> 0%Z -> pageNumberOr999 p = n)
  /\ (forall before p after q n,
        defaultSort pages = (before ++ p :: after)%list -> In q after ->
        pageNumber (analysis p) = None ->
        pageNumber (analysis q) = Some n -> n <> 0%Z -> (999 <= n)%Z)
  /\ (forall a b c, pages = [a; b; c] ->
        pageNumber (analysis a) = Some 3%Z ->
        pageNumber (analysis b) = Some 1%Z ->
        pageNumber (analysis c) = Some 2%Z ->
        reorderPagesByContent E pages = Ok [b; c; a]).
Proof.
  intros Hn Hkey Herr.
  pose proof (reorder_on_error E pages Hn Hkey Herr) as Hrun.
  split; [exact Hrun|].
  split; [apply js_sort_perm|].
  split; [apply (js_sort_sorted pageNumberOr999); reflexivity|].
  split; [intros k; apply (js_sort_stable pageNumberOr999); reflexivity|].
  split; [intros p Hp; unfold pageNumberOr999; now rewrite Hp|].
  assert (Hkey' : forall p n, pageNumber (analysis p) = Some n -> n <> 0%Z ->
                          pageNumberOr999 p = n).
  { intros p n Hp Hn0. unfold pageNumberOr999. rewrite Hp.
    destruct (n =? 0)%Z eqn:H0; [apply Z.eqb_eq in H0; contradiction | reflexivity]. }
  split; [exact Hkey'|]. split.
  - intros before p after q n Hsplit Hq Hp Hqn Hn0.
    pose proof (js_sort_sorted pageNumberOr999 comparePageNumbers
                  (fun a b => eq_refl) pages) as Hsorted.
    fold (defaultSort pages) in Hsorted. rewrite Hsplit in Hsorted.
    apply sorted_after in Hsorted. rewrite Forall_forall in Hsorted.
    specialize (Hsorted q Hq). unfold keyLe in Hsorted.
    rewrite (Hkey' q n Hqn Hn0) in Hsorted.
    unfold pageNumberOr999 in Hsorted. now rewrite Hp in Hsorted.
  - intros a b c -> Ha Hb Hc. rewrite Hrun.
    unfold defaultSort, js_sort. cbn [fold_right sort_insert].
    repeat (progress (unfold comparePageNumbers, pageNumberOr999;
                      rewrite ?Ha, ?Hb, ?Hc; simpl)).
    reflexivity.
Qed.

Lemma fallback_sort_on_ranking_error_witness :
  let E := sampleCollaborators true RankRejected in
  let pages := [pageA3; pageB1; pageC2] in
  (2 <= List.length pages /\ apiKey E = true
   /\ rankingErrors (rankModel E (pagesSummary pages)) = true)
  /\ reorderPagesByContent E pages = Ok [pageB1; pageC2; pageA3].
Proof.
  intros E pages.
  pose proof (fallback_sort_on_ranking_error E pages
                (le_S 2 2 (le_n 2)) eq_refl eq_refl) as H.
  split; [split; [exact (le_S 2 2 (le_n 2)) | repeat split]|].
  exact (proj2 (proj2 (proj2 (proj2 (proj2 (proj2 (proj2 H))))))
           pageA3 pageB1 pageC2 eq_refl eq_refl eq_refl eq_refl).
Defined.

(** C2, as stated, fails twice.  A hint that is not a bijection does not lead
    to the sort: with pages numbered 3, 1, 2 the hint [0, 0, 0] gives page 0
    three times and then pages 1 and 2.  And a page without a number takes the
    key 999, which is not maximal: next to a page numbered 1000 it comes
    first. *)
Lemma invalid_hint_is_not_sorted :
  (let E := sampleCollaborators true (RankIds [0; 0; 0]%Z) in
   let pages := [pageA3; pageB1; pageC2] in
   hintIsBijection 3 [0; 0; 0]%Z = false
   /\ reorderPagesByContent E pages = Ok [pageA3; pageA3; pageA3; pageB1; pageC2]
   /\ defaultSort pages = [pageB1; pageC2; pageA3])
  /\ (let E := sampleCollaborators true RankRejected in
      pageNumber (analysis pageE) = None
      /\ reorderPagesByContent E [pageD1000; pageE] = Ok [pageE; pageD1000]).
Proof. repeat split; reflexivity. Qed.

(** ** The region cropper *)

(** The rectangles the cropper computes for some boxes, and the canvas sizes
    they give.  The last two boxes show the rounding of doubles: a width of
    2^-45 where exact arithmetic gives 0, and a canvas of 180 pixels where
    exact arithmetic gives 181. *)
Example crop_rectangles :
  cropRect {| img_width := 50; img_height := 50 |} 500 500 400 400
  = {| finalX := 20; finalY := 20; finalW := 5; finalH := 5 |}
  /\ degenerate (cropRect {| img_width := 50; img_height := 50 |} 500 500 400 400) = false
  /\ degenerate (cropRect {| img_width := 200; img_height := 300 |} 500 500 400 400) = true
  /\ cropRect {| img_width := 50; img_height := 50 |} 0 0 1000 1000
     = {| finalX := 0; finalY := 0; finalW := 50; finalH := 50 |}
  /\ finalW (cropRect {| img_width := 200; img_height := 300 |} 0 1025 1000 1100)
     = 0x1p-45%float
  /\ degenerate (cropRect {| img_width := 200; img_height := 300 |} 0 1025 1000 1100)
     = false
  /\ canvas_width (cropCanvas (jpegBlob []) {| img_width := 200; img_height := 300 |}
                              0 1025 1000 1100) = 0%Z
  /\ finalW (cropRect {| img_width := 600; img_height := 600 |} 0 0 285 285)
     = 0x1.69fffffffffffp+7%float
  /\ canvas_width (cropCanvas (jpegBlob []) {| img_width := 600; img_height := 600 |}
                              0 0 285 285) = 180%Z.
Proof. repeat split; reflexivity. Qed.

(** C3.  The cropper falls back to the whole image only when the padded
    rectangle has a width or a height that is not positive, and the padding
    of 10 pixels is added to the extent before the test.  An inverted box
    whose extent is shorter than the padding therefore passes the test and is
    cropped: on a 50 by 50 image the box [500, 500, 400, 400] gives the 5 by 5
    square at (20, 20), and on a page of 2000 by 3000 pixels the box
    [500, 500, 499, 499] gives the 8 by 7 rectangle at (995, 1495).  Neither
    result is the whole image, nor the crop of [0, 0, 1000, 1000].  The
    fallback is reached once the inverted extent uses up the padding: on the
    same page for the box [0, 500, 1000, 495], whose padded width is 0, and on
    a 200 by 300 image for the box [500, 500, 400, 400]. *)
Lemma inverted_box_on_small_image_is_cropped :
  let E := sampleCollaborators true RankNoText in
  let src := jpegBlob [] in
  let img := {| img_width := 50; img_height := 50 |} in
  let page := {| img_width := 2000; img_height := 3000 |} in
  decodeImage E src = Some img
  /\ (500 <? 400)%Z = false
  /\ cropCanvas src img 500 500 400 400
     = {| canvas_width := 5; canvas_height := 5;
          canvas_ops := [DrawImage src 20 20 5 5 0 0 5 5] |}
  /\ wholeImageCanvas src img
     = {| canvas_width := 50; canvas_height := 50;
          canvas_ops := [DrawImage src 0 0 50 50 0 0 50 50] |}
  /\ cropCanvas src img 0 0 1000 1000
     = {| canvas_width := 50; canvas_height := 50;
          canvas_ops := [DrawImage src 0 0 50 50 0 0 50 50] |}
  /\ cropImageFromBlob E src [500; 500; 400; 400]%Z = Ok (pngBlob (repeat Byte.x00 25))
  /\ cropImageFromBlob E src [0; 0; 1000; 1000]%Z = Ok (pngBlob (repeat Byte.x00 2500))
  /\ cropImageFromBlob E src [500; 500; 400; 400]%Z
     <> cropImageFromBlob E src [0; 0; 1000; 1000]%Z
  /\ cropCanvas src page 500 500 499 499
     = {| canvas_width := 8; canvas_height := 7;
          canvas_ops := [DrawImage src 995 1495 8 7 0 0 8 7] |}
  /\ cropCanvas src page 500 500 499 499 <> wholeImageCanvas src page
  /\ (finalW (cropRect page 0 500 1000 495) = 0%float
      /\ cropCanvas src page 0 500 1000 495 = wholeImageCanvas src page)
  /\ cropCanvas src {| img_width := 200; img_height := 300 |} 500 500 400 400
     = wholeImageCanvas src {| img_width := 200; img_height := 300 |}.
Proof.
  intros E src img page.
  split; [reflexivity|]. split; [reflexivity|]. split; [vm_compute; reflexivity|].
  split; [vm_compute; reflexivity|]. split; [vm_compute; reflexivity|].
  split; [vm_compute; reflexivity|]. split; [vm_compute; reflexivity|].
  split; [intros H; vm_compute in H; discriminate H|].
  split; [vm_compute; reflexivity|].
  split; [intros H; vm_compute in H; discriminate H|].
  split; [split; vm_compute; reflexivity | vm_compute; reflexivity].
Qed.

(** C8 (amended).  For a box of four or more numbers, a crop that is produced
    is a PNG, whatever the format of the source.  For a shorter box the
    source blob itself is returned, in its own format. *)
Theorem crop_output_format (E : Collaborators) (src : Blob) (box : list Z) :
  (4 <= List.length box ->
   forall out, cropImageFromBlob E src box = Ok out -> blob_type out = "image/png")
  /\ (List.length box < 4 -> cropImageFromBlob E src box = Ok src).
Proof.
  split.
  - intros Hlen out Hout.
    destruct box as [|ymin [|xmin [|ymax [|xmax rest]]]]; simpl in Hlen; try lia.
    unfold cropImageFromBlob in Hout.
    destruct (decodeImage E src) as [img|]; [|discriminate].
    destruct (canvasContext E); simpl in Hout; [|discriminate].
    destruct (canvasToBlob E _ _); [|discriminate].
    inversion Hout. reflexivity.
  - intros Hlen.
    destruct box as [|ymin [|xmin [|ymax [|xmax rest]]]]; simpl in Hlen;
      try reflexivity; lia.
Qed.

Lemma crop_output_format_witness :
  let E := sampleCollaborators true RankNoText in
  let src := jpegBlob [] in
  (4 <= List.length [100; 100; 900; 900]%Z
   /\ cropImageFromBlob E src [100; 100; 900; 900]%Z = Ok (pngBlob (repeat Byte.x00 2500)))
  /\ blob_type (pngBlob (repeat Byte.x00 2500)) = "image/png"
  /\ (List.length [100; 100]%Z < 4 /\ cropImageFromBlob E src [100; 100]%Z = Ok src).
Proof.
  intros E src.
  assert (H4 : 4 <= List.length [100; 100; 900; 900]%Z) by (apply le_n).
  assert (H2 : List.length [100; 100]%Z < 4) by (apply le_S, le_n).
  assert (Hrun : cropImageFromBlob E src [100; 100; 900; 900]%Z
                 = Ok (pngBlob (repeat Byte.x00 2500))) by reflexivity.
  split; [split; assumption|].
  split; [exact (proj1 (crop_output_format E src [100; 100; 900; 900]%Z) H4 _ Hrun)|].
  split; [assumption|].
  exact (proj2 (crop_output_format E src [100; 100]%Z) H2).
Defined.

(** C8, as stated, fails for a box of fewer than four numbers: the JPEG source
    comes back unchanged, and it is not a PNG. *)
Lemma short_box_returns_source_format :
  let E := sampleCollaborators true RankNoText in
  let src := jpegBlob [] in
  cropImageFromBlob E src [10; 20; 30]%Z = Ok src
  /\ blob_type src = "image/jpeg"
  /\ blob_type src <> "image/png".
Proof.
  intros E src. repeat split; try reflexivity. discriminate.
Qed.

(** ** The summary input *)

Lemma string_of_list_length (l : list ascii) :
  String.length (string_of_list_ascii l) = List.length l.
Proof. induction l; simpl; congruence. Qed.

Lemma list_of_string_length (s : string) :
  List.length (list_ascii_of_string s) = String.length s.
Proof. induction s; simpl; congruence. Qed.

Lemma dropWhile_length {A} (p : A -> bool) (l : list A) :
  List.length (dropWhile p l) <= List.length l.
Proof.
  induction l as [|x l IH]; simpl; [lia|]. destruct (p x); simpl; lia.
Qed.

Lemma trim_length (s : string) : String.length (trim s) <= String.length s.
Proof.
  unfold trim. rewrite string_of_list_length, length_rev.
  etransitivity; [apply dropWhile_length|]. rewrite length_rev.
  etransitivity; [apply dropWhile_length|]. now rewrite list_of_string_length.
Qed.

Lemma removeChars_length (p : ascii -> bool) (s : string) :
  String.length (removeChars p s) <= String.length s.
Proof.
  induction s as [|c s IH]; simpl; [lia|]. destruct (p c); simpl; lia.
Qed.

Lemma sanitizeText_length (s : string) :
  String.length (sanitizeText s) <= String.length s.
Proof.
  unfold sanitizeText. etransitivity; [apply trim_length | apply removeChars_length].
Qed.

Lemma substring_length_le (n : nat) (s : string) :
  String.length (String.substring 0 n s) <= n.
Proof.
  revert s. induction n as [|n IH]; intros [|c s]; simpl; try lia.
  specialize (IH s). lia.
Qed.

Lemma substring_append (n : nat) (s extra : string) :
  n <= String.length s ->
  String.substring 0 n (s ++ extra) = String.substring 0 n s.
Proof.
  revert s. induction n as [|n IH]; intros [|c s] H; simpl in *; try reflexivity.
  - now destruct extra.
  - lia.
  - f_equal. apply IH. lia.
Qed.

Lemma append_length (s t : string) :
  String.length (s ++ t) = String.length s + String.length t.
Proof. induction s; simpl; congruence. Qed.

(** [s.substring(0, b)] is the prefix of [s] of length [min b s.length]. *)
Lemma js_substring_prefix (s : string) (b : Z) :
  (0 <= b)%Z ->
  js_substring s 0 b = String.substring 0 (Z.to_nat (Z.min b (str_length s))) s.
Proof.
  intros Hb. unfold js_substring, clampIndex, str_length.
  replace (Z.min (Z.max 0 0) (Z.of_nat (String.length s))) with 0%Z by lia.
  replace (Z.max 0 b) with b by lia.
  change (Z.to_nat 0) with 0. rewrite Nat.min_0_l, Nat.max_0_l, Nat.sub_0_r.
  reflexivity.
Qed.

Lemma isVisualCrop_isNarrative (b : PageContentBlock) :
  negb (isVisualCrop b) = isNarrative (block_type b).
Proof. unfold isVisualCrop. now destruct (block_type b). Qed.

(** [Array.prototype.join] on strings is the concatenation with separators. *)
Lemma join_concat (sep : string) (xs : list string) :
  join sep xs = String.concat sep xs.
Proof.
  induction xs as [|x [|y rest] IH]; [reflexivity | reflexivity |].
  change (join sep (x :: y :: rest)) with (x ++ sep ++ join sep (y :: rest))%string.
  now rewrite IH.
Qed.

(** C5.  The text handed to the summary step is the concatenation, in the
    order of the pages, of the text of the blocks that are neither
    [image_crop] nor [table_crop] ([formula_crop] text is included), with one
    space between the blocks of a page and a blank line between pages.  Of
    that text only the first 60000 characters go on towards the model (cleaned
    of control characters and trimmed): what is sent never exceeds 60000
    characters, and nothing beyond the 60000th character influences it.  In
    the pipeline the pages are those the reordering returned, in that order. *)
Theorem summary_input_text (pages : list DocxGenerationData) :
  fullText pages = String.concat blankLine (map narrativeText pages)
  /\ (isNarrative formula_crop = true
      /\ isNarrative image_crop = false /\ isNarrative table_crop = false)
  /\ sanitizedInput (fullText pages)
     = sanitizeText (String.substring
                       0 (Z.to_nat (Z.min 60000 (str_length (fullText pages))))
                       (fullText pages))
  /\ (str_length (sanitizedInput (fullText pages)) <= 60000)%Z
  /\ (forall extra : string,
         (60000 <= str_length (fullText pages))%Z ->
         sanitizedInput (fullText pages ++ extra) = sanitizedInput (fullText pages))
  /\ (forall (E : Collaborators) (language : string),
         generateSummary E (fullText pages) language
         = if apiKey E
           then match summaryModel E (sanitizedInput (fullText pages)) with
                | Some "" => Ok (cleanMarkdown (sanitizeText "Не удалось создать саммари."))
                | Some reply => Ok (cleanMarkdown (sanitizeText reply))
                | None => Ok "Ошибка при генерации саммари."
                end
           else Throw ApiKeyNotFound)
  /\ (forall (E : Collaborators) (options : ProcessingOptions) (folder : FolderGroup)
             (summary : string),
         generateSummary_opt options = true ->
         reorderPagesByContent
           E (fst (extractAndAnalyze E options (filter selected (files folder))))
         = Ok pages ->
         generateSummary E (fullText pages) (summaryLanguage options) = Ok summary ->
         exists logged,
           processFolder E options folder
           = assemble E folder logged pages (Some summary))
  /\ (fullText [] = ""
      /\ (forall p, fullText [ p ] = narrativeText p)
      /\ (forall p q rest,
            fullText (p :: q :: rest)
            = (narrativeText p ++ blankLine ++ fullText (q :: rest))%string)).
Proof.
  assert (Htext : forall ps, fullText ps = String.concat blankLine (map narrativeText ps)).
  { intros ps. unfold fullText, narrativeText, blankLine. rewrite join_concat. f_equal.
    apply map_ext. intros p. rewrite join_concat. f_equal. f_equal.
    apply filter_ext. intros b. apply isVisualCrop_isNarrative. }
  split; [apply Htext|].
  split; [repeat split|].
  assert (Hsub : forall t, sanitizedInput t
                 = sanitizeText (String.substring
                                   0 (Z.to_nat (Z.min 60000 (str_length t))) t)).
  { intros t. unfold sanitizedInput. now rewrite js_substring_prefix by lia. }
  split; [apply Hsub|]. split.
  { rewrite Hsub. unfold str_length.
    pose proof (sanitizeText_length
                  (String.substring
                     0 (Z.to_nat (Z.min 60000 (Z.of_nat (String.length (fullText pages)))))
                     (fullText pages))) as H1.
    pose proof (substring_length_le
                  (Z.to_nat (Z.min 60000 (Z.of_nat (String.length (fullText pages)))))
                  (fullText pages)) as H2.
    lia. }
  split.
  { intros extra Hlen. rewrite !Hsub. f_equal. unfold str_length in *.
    rewrite append_length.
    replace (Z.min 60000 (Z.of_nat (String.length (fullText pages) + String.length extra)))
      with 60000%Z by lia.
    replace (Z.min 60000 (Z.of_nat (String.length (fullText pages))))
      with 60000%Z by lia.
    apply substring_append. lia. }
  split.
  { intros E language. unfold generateSummary.
    destruct (apiKey E); simpl; [|reflexivity].
    destruct (summaryModel E (sanitizedInput (fullText pages))) as [reply|];
      [|reflexivity].
    destruct reply as [|c reply]; reflexivity. }
  split.
  { intros E options folder summary Hopt Hordered Hsummary. unfold processFolder.
    destruct (extractAndAnalyze E options (filter selected (files folder)))
      as [buffer logged1]. cbn [fst] in Hordered.
    rewrite Hordered, Hopt, Hsummary. eexists. reflexivity. }
  split; [reflexivity|]. split; [intros p; now rewrite Htext|].
  intros p q rest. now rewrite !Htext.
Qed.

(** A page with one block of each kind, followed by a second page. *)
Lemma summary_input_text_witness :
  let pages := [ pageOfBlocks "1.jpg" [ sampleBlock heading "H";
                                       sampleBlock formula_crop "F";
                                       sampleBlock image_crop "I";
                                       sampleBlock table_crop "T";
                                       sampleBlock paragraph "P" ];
                 pageOfBlocks "2.jpg" [ sampleBlock paragraph "Q" ] ] in
  fullText pages
  = String "H" (String " " (String "F" (String " " (String "P"
      (String "010" (String "010" (String "Q" "")))))))
  /\ sanitizedInput (fullText pages) = fullText pages.
Proof.
  intros pages.
  pose proof (summary_input_text pages) as (Htext & _ & Hinput & _).
  split; [rewrite Htext; reflexivity|].
  rewrite Hinput. vm_compute. reflexivity.
Defined.

(** ** PDF extraction *)






(** ** Rotation *)


Lemma Qred_inject_Z (z : Z) : Qred (inject_Z z) = inject_Z z.
Proof.
  unfold Qred, inject_Z.
  pose proof (Z.ggcd_correct_divisors z 1) as Hdiv.
  pose proof (Z.ggcd_gcd z 1) as Hgcd. rewrite Z.gcd_1_r in Hgcd.
  destruct (Z.ggcd z 1) as [g [aa bb]]. cbn [fst snd] in *. subst g.
  destruct Hdiv as [Ha Hb]. rewrite Z.mul_1_l in Ha, Hb. now subst aa bb.
Qed.

Lemma unit_scale (z : Z) : (0 < z)%Z -> (inject_Z z / inject_Z z == 1)%Q.
Proof.
  intros Hz. apply Qmult_inv_r. intros H.
  assert (Hq : (0 < inject_Z z)%Q) by (change 0%Q with (inject_Z 0); now rewrite <- Zlt_Qlt).
  rewrite H in Hq. now apply Qlt_irrefl in Hq.
Qed.

Lemma Qle_bool_false (a b : Q) : Qle_bool a b = false <-> (b < a)%Q.
Proof.
  split.
  - intros H. apply Qnot_le_lt. intros Hle. apply Qle_bool_iff in Hle. congruence.
  - intros H. destruct (Qle_bool a b) eqn:Hle; [|reflexivity].
    apply Qle_bool_iff in Hle. exfalso. now apply (Qlt_not_le _ _ H).
Qed.

(** Drawing the whole image at its natural size at [(dx, dy)] paints the
    points of the image, each at its offset from [(dx, dy)]. *)
Lemma drawn_natural (img : Image) (dx dy u v : Q) :
  let w := inject_Z (img_width img) in
  let h := inject_Z (img_height img) in
  (insideImage img u v ->
   exists a b, drawnAt 0 0 w h dx dy w h u v = Some (a, b)
               /\ (a == dx + u)%Q /\ (b == dy + v)%Q)
  /\ (drawnAt 0 0 w h dx dy w h u v <> None -> insideImage img u v).
Proof.
  cbv zeta. set (w := inject_Z (img_width img)). set (h := inject_Z (img_height img)).
  unfold drawnAt, insideImage. fold w h. split.
  - intros (Hw & Hh & [Hu0 Hu1] & [Hv0 Hv1]).
    assert (Hqw : (0 < w)%Q)
      by (change 0%Q with (inject_Z 0); subst w; now rewrite <- Zlt_Qlt).
    assert (Hqh : (0 < h)%Q)
      by (change 0%Q with (inject_Z 0); subst h; now rewrite <- Zlt_Qlt).
    assert (Ht : negb (Qle_bool w 0) && negb (Qle_bool h 0)
                 && Qle_bool 0 u && Qle_bool u (0 + w)
                 && Qle_bool 0 v && Qle_bool v (0 + h) = true).
    { rewrite (proj2 (Qle_bool_false w 0) Hqw), (proj2 (Qle_bool_false h 0) Hqh).
      cbn [negb andb].
      rewrite (proj2 (Qle_bool_iff 0 u) Hu0), (proj2 (Qle_bool_iff 0 v) Hv0).
      cbn [andb].
      rewrite (proj2 (Qle_bool_iff u (0 + w))), (proj2 (Qle_bool_iff v (0 + h)));
        [reflexivity | lra | lra]. }
    rewrite Ht. eexists. eexists. split; [reflexivity|].
    subst w h. rewrite !unit_scale by assumption. split; lra.
  - intros Hsome.
    destruct (Qle_bool w 0) eqn:T1; [now cbn in Hsome|].
    destruct (Qle_bool h 0) eqn:T2; [now cbn in Hsome|].
    destruct (Qle_bool 0 u) eqn:T3; [|now cbn in Hsome].
    destruct (Qle_bool u (0 + w)) eqn:T4; [|now cbn in Hsome].
    destruct (Qle_bool 0 v) eqn:T5; [|now cbn in Hsome].
    destruct (Qle_bool v (0 + h)) eqn:T6; [|now cbn in Hsome].
    apply Qle_bool_false in T1, T2. apply Qle_bool_iff in T3, T4, T5, T6.
    split; [|split; [|split; split; lra]].
    + rewrite Zlt_Qlt. exact T1.
    + rewrite Zlt_Qlt. exact T2.
Qed.

(** The canvas of a rotation by 90, 180 or 270 degrees, as a drawing of the
    whole image under the translation to the centre of the canvas and the
    turn. *)
Lemma position_on_rotation (src : Blob) (img : Image) (rot : Z) (u v : Q) :
  rot = 90%Z \/ rot = 180%Z \/ rot = 270%Z ->
  positionOnCanvas (rotationCanvas src img rot) u v
  = match drawnAt 0 0 (inject_Z (img_width img)) (inject_Z (img_height img))
                  (Qred (- inject_Z (img_width img) / 2))
                  (Qred (- inject_Z (img_height img) / 2))
                  (inject_Z (img_width img)) (inject_Z (img_height img)) u v with
    | Some p =>
        match quarterTurn rot p with
        | Some (x, y) =>
            Some (Qred (Qred (inject_Z (canvas_width (rotationCanvas src img rot)) / 2) + x),
                  Qred (Qred (inject_Z (canvas_height (rotationCanvas src img rot)) / 2) + y))
        | None => None
        end
    | None => None
    end.
Proof.
  intros [-> | [-> | ->]];
    rewrite <- (Qred_inject_Z (img_width img)) at 1 3;
    rewrite <- (Qred_inject_Z (img_height img)) at 1 3; reflexivity.
Qed.

Ltac qhalves :=
  cbn [samePoint]; rewrite ?Qred_correct; unfold Qdiv;
  change (/ 2)%Q with (1 # 2)%Q; split; lra.

Lemma position_after_90 (src : Blob) (img : Image) (u v : Q) :
  insideImage img u v ->
  exists x y,
    positionOnCanvas (rotationCanvas src img 90) u v = Some (x, y)
    /\ (x == inject_Z (img_height img) - v)%Q /\ (y == u)%Q.
Proof.
  intros Hin. rewrite position_on_rotation by auto.
  destruct (proj1 (drawn_natural img (Qred (- inject_Z (img_width img) / 2))
                                 (Qred (- inject_Z (img_height img) / 2)) u v) Hin)
    as (a & b & -> & Ha & Hb).
  eexists. eexists. split; [reflexivity|].
  change (canvas_width (rotationCanvas src img 90)) with (img_height img).
  change (canvas_height (rotationCanvas src img 90)) with (img_width img).
  rewrite Ha, Hb. qhalves.
Qed.

Lemma position_after_180 (src : Blob) (img : Image) (u v : Q) :
  insideImage img u v ->
  exists x y,
    positionOnCanvas (rotationCanvas src img 180) u v = Some (x, y)
    /\ (x == inject_Z (img_width img) - u)%Q /\ (y == inject_Z (img_height img) - v)%Q.
Proof.
  intros Hin. rewrite position_on_rotation by auto.
  destruct (proj1 (drawn_natural img (Qred (- inject_Z (img_width img) / 2))
                                 (Qred (- inject_Z (img_height img) / 2)) u v) Hin)
    as (a & b & -> & Ha & Hb).
  eexists. eexists. split; [reflexivity|].
  change (canvas_width (rotationCanvas src img 180)) with (img_width img).
  change (canvas_height (rotationCanvas src img 180)) with (img_height img).
  rewrite Ha, Hb. qhalves.
Qed.

Lemma position_after_270 (src : Blob) (img : Image) (u v : Q) :
  insideImage img u v ->
  exists x y,
    positionOnCanvas (rotationCanvas src img 270) u v = Some (x, y)
    /\ (x == v)%Q /\ (y == inject_Z (img_width img) - u)%Q.
Proof.
  intros Hin. rewrite position_on_rotation by auto.
  destruct (proj1 (drawn_natural img (Qred (- inject_Z (img_width img) / 2))
                                 (Qred (- inject_Z (img_height img) / 2)) u v) Hin)
    as (a & b & -> & Ha & Hb).
  eexists. eexists. split; [reflexivity|].
  change (canvas_width (rotationCanvas src img 270)) with (img_height img).
  change (canvas_height (rotationCanvas src img 270)) with (img_width img).
  rewrite Ha, Hb. qhalves.
Qed.

(** Only the points of the image are painted. *)
Lemma position_inside (src : Blob) (img : Image) (rot : Z) (u v : Q) :
  rot = 90%Z \/ rot = 180%Z \/ rot = 270%Z ->
  positionOnCanvas (rotationCanvas src img rot) u v <> None -> insideImage img u v.
Proof.
  intros Hrot H. rewrite position_on_rotation in H by assumption.
  apply (proj2 (drawn_natural img (Qred (- inject_Z (img_width img) / 2))
                              (Qred (- inject_Z (img_height img) / 2)) u v)).
  intros Hnone. cbv zeta in Hnone. rewrite Hnone in H. now apply H.
Qed.




(** ** Folder ingestion *)

Lemma groupsPush_items (groups : Groups) (k : string) (item : FileItem) :
  Permutation (flat_map snd (groupsPush groups k item)) (item :: flat_map snd groups).
Proof.
  induction groups as [|[k' items] rest IH]; simpl; [reflexivity|].
  destruct (String.eqb k k'); simpl.
  - rewrite <- app_assoc. simpl. symmetry. apply Permutation_middle.
  - etransitivity; [apply Permutation_app_head, IH|]. symmetry. apply Permutation_middle.
Qed.

Lemma addFile_items (groups groups' : Groups) (f : File) :
  addFile groups f = Ok groups' ->
  Permutation (flat_map snd groups')
              ((if accepted f then [ entryOf f ] else []) ++ flat_map snd groups).
Proof.
  unfold addFile, accepted, entryOf. destruct (isImage f || isPdf f).
  - destruct (existsb _ objectPrototypeKeys); [discriminate|].
    intros H. inversion H; subst. apply groupsPush_items.
  - intros H. inversion H; subst. reflexivity.
Qed.

Lemma addFiles_from_items (allFiles : list File) (start : result Groups) (groups : Groups) :
  fold_left (fun acc f => try! g <- acc; addFile g f) allFiles start = Ok groups ->
  exists groups0, start = Ok groups0
    /\ Permutation (flat_map snd groups)
                   (flat_map snd groups0 ++ map entryOf (filter accepted allFiles)).
Proof.
  revert start. induction allFiles as [|f rest IH]; simpl; intros start H.
  - exists groups. split; [assumption|]. now rewrite app_nil_r.
  - apply IH in H. destruct H as [groups1 [Hstep Hperm]].
    destruct start as [groups0|e]; [|discriminate]. simpl in Hstep.
    exists groups0. split; [reflexivity|].
    apply addFile_items in Hstep. rewrite Hperm, Hstep.
    destruct (accepted f); simpl; [|reflexivity].
    apply Permutation_middle.
Qed.

Lemma objectEntries_perm {V} (o : list (string * V)) :
  Permutation (objectEntries o) o.
Proof.
  unfold objectEntries.
  etransitivity; [apply Permutation_app_tail; symmetry; apply js_sort_perm|].
  induction o as [|kv o IH]; simpl; [constructor|].
  destruct (isArrayIndex (fst kv)); simpl.
  - now apply perm_skip.
  - etransitivity; [symmetry; apply Permutation_middle | now apply perm_skip].
Qed.

Lemma newFolder_items (E : Collaborators) (entries : list (string * list FileItem)) :
  Permutation (flat_map files (map (newFolder E) entries)) (flat_map snd entries).
Proof.
  induction entries as [|entry entries IH]; simpl; [constructor|].
  apply Permutation_app; [|exact IH].
  unfold naturalSort. symmetry. apply js_sort_perm.
Qed.

Lemma ingested_items (E : Collaborators) (st st' : AppState) (allFiles : list File) :
  allFiles <> [] -> handleFileInputChange E st allFiles = Ok st' ->
  Permutation (flat_map files (folders st')) (map entryOf (filter accepted allFiles)).
Proof.
  intros Hne H. unfold handleFileInputChange in H.
  destruct allFiles as [|f rest]; [contradiction|].
  destruct (addFiles (f :: rest)) as [groups|e] eqn:Hadd; [|discriminate].
  simpl in H. inversion H; subst; clear H. cbn [folders].
  unfold addFiles in Hadd. apply addFiles_from_items in Hadd.
  destruct Hadd as [groups0 [Hstart Hperm]]. inversion Hstart; subst groups0.
  rewrite newFolder_items.
  etransitivity; [apply Permutation_flat_map, objectEntries_perm|].
  exact Hperm.
Qed.

(** C4.  Two accepted files that lie in different directories with the same
    last component, and have the same name and size, get the same identifier,
    and both stay in the folder's list: identifiers are not unique, and equal
    identifiers do not collapse into one entry. *)
Lemma equal_identifiers_do_not_collapse :
  let E := sampleCollaborators true RankNoText in
  match handleFileInputChange E emptyState [ scanInA; scanInB ] with
  | Ok st' =>
      map folderName (folders st') = [ "scan" ]
      /\ map id (flat_map files (folders st')) = [ "scan_p1.jpg_3"; "scan_p1.jpg_3" ]
      /\ map path (flat_map files (folders st'))
         = [ "root/a/scan/p1.jpg"; "root/b/scan/p1.jpg" ]
      /\ map file (flat_map files (folders st')) = [ scanInA; scanInB ]
      /\ scanInA <> scanInB
      /\ ~ NoDup (map id (flat_map files (folders st')))
  | Throw _ => False
  end.
Proof.
  vm_compute. split; [reflexivity|]. split; [reflexivity|]. split; [reflexivity|].
  split; [reflexivity|]. split; [discriminate|].
  intros H. inversion H as [|x l Hnotin _]; subst. apply Hnotin. now left.
Qed.

(** ** The pipeline orchestrator *)

Lemma extractAndAnalyze_each_item (E : Collaborators) (options : ProcessingOptions)
    (items : list FileItem) :
  extractAndAnalyze E options items
  = (flat_map (fun item => fst (processItem E options item)) items,
     flat_map (fun item => snd (processItem E options item)) items).
Proof.
  induction items as [|item rest IH]; simpl; [reflexivity|].
  rewrite IH. now destruct (processItem E options item).
Qed.

Lemma analyzePage_without_key (E : Collaborators) (f : File) (lang : string) :
  apiKey E = false -> analyzePage E f lang = Throw ApiKeyNotFound.
Proof. intros H. unfold analyzePage. now rewrite H. Qed.

Lemma analyzePdfPages_without_key (E : Collaborators) (options : ProcessingOptions)
    (item : FileItem) (total idx : nat) (blobs : list Blob) :
  apiKey E = false ->
  fst (fst (analyzePdfPages E options item total idx blobs)) = [].
Proof.
  intros H. destruct blobs as [|blob rest]; simpl; [reflexivity|].
  now rewrite analyzePage_without_key.
Qed.

Lemma processItem_without_key (E : Collaborators) (options : ProcessingOptions)
    (item : FileItem) :
  apiKey E = false -> fst (processItem E options item) = [].
Proof.
  intros H. unfold processItem. destruct (item_type item).
  - destruct (if (rotation item =? 0)%Z then _ else _) as [fileToAnalyze|e];
      [|reflexivity].
    now rewrite analyzePage_without_key.
  - destruct (snd (convertPdfToImages E (file item))) as [blobs|e]; [|reflexivity].
    pose proof (analyzePdfPages_without_key E options item (List.length blobs) 0 blobs H)
      as Hp.
    destruct (analyzePdfPages E options item (List.length blobs) 0 blobs) as [[p l] t].
    exact Hp.
Qed.

Lemma buffer_without_key (E : Collaborators) (options : ProcessingOptions)
    (items : list FileItem) :
  apiKey E = false -> fst (extractAndAnalyze E options items) = [].
Proof.
  intros H. rewrite extractAndAnalyze_each_item. cbn [fst].
  induction items as [|item rest IH]; simpl; [reflexivity|].
  now rewrite processItem_without_key, IH.
Qed.

Lemma reorder_with_key (E : Collaborators) (pages : list DocxGenerationData) :
  apiKey E = true -> exists out, reorderPagesByContent E pages = Ok out.
Proof.
  intros H. unfold reorderPagesByContent. rewrite H. simpl.
  destruct (List.length pages <=? 1)%nat; [eauto|].
  destruct (rankModel E (pagesSummary pages)); eauto.
Qed.

Lemma generateSummary_with_key (E : Collaborators) (t lang : string) :
  apiKey E = true -> exists s, generateSummary E t lang = Ok s.
Proof.
  intros H. unfold generateSummary. rewrite H. simpl.
  destruct (summaryModel E (sanitizedInput t)); eauto.
Qed.

Lemma assemble_outcome (E : Collaborators) (folder : FolderGroup) (l : list LogEntry)
    (pages : list DocxGenerationData) (summary : option string) :
  let r := assemble E folder l pages summary in
  run_uncaught r = None
  /\ ((run_writes r = [ processing; completed ] /\ status (run_folder r) = completed)
      \/ (run_writes r = [ processing; error ] /\ status (run_folder r) = error)).
Proof.
  unfold assemble. destruct (createDocx E pages summary); simpl; auto.
Qed.

(** What one iteration of the folder loop does to the status. *)
Lemma processFolder_outcome (E : Collaborators) (options : ProcessingOptions)
    (folder : FolderGroup) :
  let r := processFolder E options folder in
  (run_uncaught r = None
   /\ ((run_writes r = [ processing; completed ] /\ status (run_folder r) = completed)
       \/ (run_writes r = [ processing; error ] /\ status (run_folder r) = error)))
  \/ (run_uncaught r = Some ApiKeyNotFound
      /\ run_writes r = [ processing ] /\ status (run_folder r) = processing
      /\ apiKey E = false /\ generateSummary_opt options = true).
Proof.
  unfold processFolder.
  pose proof (buffer_without_key E options (filter selected (files folder))) as Hbuf.
  destruct (extractAndAnalyze E options (filter selected (files folder)))
    as [buffer logged1]. cbn [fst] in Hbuf.
  destruct (apiKey E) eqn:Hkey.
  - destruct (reorder_with_key E buffer Hkey) as [out ->].
    destruct (generateSummary_opt options).
    + destruct (generateSummary_with_key E (fullText out) (summaryLanguage options) Hkey)
        as [s ->].
      left. apply assemble_outcome.
    + left. apply assemble_outcome.
  - rewrite (Hbuf eq_refl). cbn [reorderPagesByContent List.length Nat.leb].
    destruct (generateSummary_opt options).
    + unfold generateSummary. rewrite Hkey. right. simpl. auto.
    + left. apply assemble_outcome.
Qed.


Lemma folderLoop_finishes (E : Collaborators) (options : ProcessingOptions)
    (todo : list FolderGroup) :
  apiKey E = true \/ generateSummary_opt options = false ->
  uncaught (folderLoop E options todo) = None
  /\ updatedFolders (folderLoop E options todo)
     = map (fun f => if hasSelection f then run_folder (processFolder E options f) else f)
           todo.
Proof.
  intros Hcfg. induction todo as [|folder rest [IHnone IHmap]]; simpl.
  - split; reflexivity.
  - destruct (hasSelection folder).
    + destruct (processFolder_outcome E options folder)
        as [(Hnone & _) | (_ & _ & _ & Hkey & Hsum)].
      * rewrite Hnone. cbn [uncaught updatedFolders]. now rewrite IHmap.
      * destruct Hcfg; congruence.
    + cbn [uncaught updatedFolders]. now rewrite IHmap.
Qed.

Lemma no_selection_map (E : Collaborators) (options : ProcessingOptions)
    (fs : list FolderGroup) :
  existsb hasSelection fs = false ->
  map (fun f => if hasSelection f then run_folder (processFolder E options f) else f) fs
  = fs.
Proof.
  induction fs as [|f rest IH]; simpl; [reflexivity|].
  intros H. apply orb_false_iff in H. destruct H as [Hf Hrest].
  now rewrite Hf, IH.
Qed.



Lemma processFolders_run (E : Collaborators) (options : ProcessingOptions)
    (st : AppState) :
  snd (processFolders E options st)
  = (if existsb hasSelection (folders st)
     then folderLoop E options (folders st)
     else {| updatedFolders := folders st; logged := [];
             writes := map (fun _ => []) (folders st);
             downloads := []; uncaught := None |})
  /\ folders (fst (processFolders E options st))
     = updatedFolders (snd (processFolders E options st)).
Proof.
  unfold processFolders. destruct (existsb hasSelection (folders st)).
  - destruct (uncaught (folderLoop E options (folders st))); split; reflexivity.
  - split; reflexivity.
Qed.









(** Without an API key and with the summary switched on, the run stops in the
    first folder: that folder stays [processing], the next one is not
    reached, and the application stays busy. *)
Example missing_key_stops_the_run :
  let E := sampleCollaborators false RankNoText in
  let st := afterPicking E [ brokenPdf; scanInC ] in
  let st' := fst (processFolders E withSummary st) in
  let r := snd (processFolders E withSummary st) in
  uncaught r = Some ApiKeyNotFound
  /\ writes r = [ [ processing ]; [] ]
  /\ map status (folders st') = [ processing; pending ]
  /\ isProcessing st' = true.
Proof. repeat split; reflexivity. Qed.

(** ** The definitions on small inputs *)

Example input_filter_examples :
  isImage (sampleFile "Scan.JPeG" "a/Scan.JPeG" "" []) = true
  /\ isImage (sampleFile "scan.tif" "a/scan.tif" "" []) = true
  /\ isImage (sampleFile "scan.jpg.txt" "a/scan.jpg.txt" "text/plain" []) = false
  /\ isImage (sampleFile "raw" "a/raw" "image/webp" []) = true
  /\ isPdf (sampleFile "Book.PDF" "a/Book.PDF" "" []) = true
  /\ isPdf (sampleFile "book" "a/book" "application/pdf" []) = true
  /\ accepted notes = false.
Proof. repeat split; reflexivity. Qed.

Example folder_name_examples :
  folderNameOf "root/a/scan/p1.jpg" = "scan"
  /\ folderNameOf "root/p1.jpg" = "root"
  /\ folderNameOf "p1.jpg" = "Root"
  /\ splitOn "/" "a//b" = [ "a"; ""; "b" ]
  /\ id (entryOf scanInA) = "scan_p1.jpg_3"
  /\ decimal 0 = "0" /\ decimal 1203 = "1203".
Proof. repeat split; reflexivity. Qed.

Example object_entries_examples :
  map fst (objectEntries [ ("b", 1); ("10", 2); ("a", 3); ("2", 4); ("02", 5) ])
  = [ "2"; "10"; "b"; "a"; "02" ].
Proof. reflexivity. Qed.

Example text_cleanup_examples :
  sanitizeText (String "009" (" a" ++ String "001" ("b " ++ String "010" ""))) = "ab"
  /\ cleanMarkdown "**Bold** and __it__ # x" = "Bold and it # x"
  /\ cleanMarkdown ("# Title" ++ String "010" "## Sub" ++ String "010" "#tag a*b")
     = ("Title" ++ String "010" " Sub" ++ String "010" "#tag ab")%string
  /\ js_substring "abcdef" 4 1 = "bcd"
  /\ js_substring_from "abcdef" (6 - 100) = "abcdef"
  /\ join ", " [ "a"; "b"; "c" ] = "a, b, c".
Proof. repeat split; reflexivity. Qed.

Example page_summary_example :
  pagesSummary [ pageOfBlocks "1.jpg" [ sampleBlock image_crop "figure";
                                        sampleBlock heading "Title";
                                        sampleBlock subheading "Sub";
                                        sampleBlock paragraph "Body text" ] ]
  = [ {| tempId := 0; fileName := "1.jpg"; detectedPageNum := None;
         firstSentence := "Title"; lastSentence := "Body text" |} ].
Proof. reflexivity. Qed.

Example assembled_children_example :
  let E := sampleCollaborators true RankNoText in
  let page :=
    {| originalFileName := "1.jpg";
       analysis :=
         {| pageNumber := Some 1%Z;
            blocks :=
              [ sampleBlock heading "Title";
                {| block_type := table_crop; text := "null"; isTranslated := None;
                   boundingBox := Some [ 0; 0; 1000; 1000 ]%Z |};
                {| block_type := formula_crop; text := "E"; isTranslated := None;
                   boundingBox := Some [ 1; 2; 3 ]%Z |} ];
            hasContinuingSentence := false |};
       imageBlob := Some (jpegBlob [ Byte.x01 ]);
       sourceType := image |} in
  docChildren E [ page ] (Some "S")
  = [ SummaryHeading; SummaryBody "S"; DocumentSeparator;
      Heading2 "Title";
      CroppedImage (repeat Byte.x00 2500); Caption "[Таблица]";
      CroppedImage [ Byte.x01 ]; Caption "[E]" ].
Proof. reflexivity. Qed.

(** * Further properties of the code *)

(** ** Text clean-up *)

Lemma dropWhile_split {A} (p : A -> bool) (l : list A) :
  exists a, l = (a ++ dropWhile p l)%list /\ forallb p a = true.
Proof.
  induction l as [|x l (a & Hl & Ha)]; simpl.
  - exists []. split; reflexivity.
  - destruct (p x) eqn:Hx.
    + exists (x :: a). simpl. rewrite Hx, Ha. split; [now f_equal | reflexivity].
    + exists []. split; reflexivity.
Qed.

Lemma dropWhile_head {A} (p : A -> bool) (l : list A) :
  match dropWhile p l with
  | x :: _ => p x = false
  | [] => True
  end.
Proof.
  induction l as [|x l IH]; simpl; [exact I|].
  destruct (p x) eqn:Hx; [exact IH | exact Hx].
Qed.

Lemma dropWhile_fixed {A} (p : A -> bool) (l : list A) :
  match l with x :: _ => p x = false | [] => True end -> dropWhile p l = l.
Proof. destruct l as [|x l]; simpl; [reflexivity|]. now intros ->. Qed.

Lemma dropWhile_In {A} (p : A -> bool) (l : list A) (x : A) :
  In x (dropWhile p l) -> In x l.
Proof.
  induction l as [|y l IH]; simpl; [tauto|].
  destruct (p y); simpl; tauto.
Qed.

Lemma trimList_edges (l : list ascii) :
  match trimList l with x :: _ => isWhiteSpace x = false | [] => True end
  /\ match rev (trimList l) with x :: _ => isWhiteSpace x = false | [] => True end.
Proof.
  unfold trimList. set (d := dropWhile isWhiteSpace l).
  pose proof (dropWhile_head isWhiteSpace l) as Hd. fold d in Hd.
  pose proof (dropWhile_head isWhiteSpace (rev d)) as Hlast.
  destruct (dropWhile_split isWhiteSpace (rev d)) as (a & Hsplit & _).
  split; [|now rewrite rev_involutive].
  assert (Hrev : d = (rev (dropWhile isWhiteSpace (rev d)) ++ rev a)%list).
  { rewrite <- rev_app_distr, <- Hsplit. now rewrite rev_involutive. }
  destruct (rev (dropWhile isWhiteSpace (rev d))) as [|x pre]; [exact I|].
  rewrite Hrev in Hd. exact Hd.
Qed.

Lemma trimList_idempotent (l : list ascii) : trimList (trimList l) = trimList l.
Proof.
  destruct (trimList_edges l) as [Hfirst Hlast].
  unfold trimList at 1.
  rewrite (dropWhile_fixed isWhiteSpace (trimList l) Hfirst).
  rewrite (dropWhile_fixed isWhiteSpace (rev (trimList l)) Hlast).
  apply rev_involutive.
Qed.

Lemma trimList_In (l : list ascii) (x : ascii) : In x (trimList l) -> In x l.
Proof.
  unfold trimList. intros H. apply in_rev in H.
  apply dropWhile_In in H. apply in_rev in H. now apply dropWhile_In in H.
Qed.

Lemma trim_as_list (s : string) :
  list_ascii_of_string (trim s) = trimList (list_ascii_of_string s).
Proof. unfold trim. now rewrite list_ascii_of_string_of_list_ascii. Qed.

Lemma everyChar_list (p : ascii -> bool) (s : string) :
  everyChar p s = forallb p (list_ascii_of_string s).
Proof. induction s as [|c s IH]; simpl; [reflexivity | now rewrite IH]. Qed.

Lemma removeChars_clean (p : ascii -> bool) (s : string) :
  everyChar (fun c => negb (p c)) (removeChars p s) = true.
Proof.
  induction s as [|c s IH]; simpl; [reflexivity|].
  destruct (p c) eqn:Hc; simpl; [exact IH | now rewrite Hc].
Qed.

Lemma removeChars_fixed (p : ascii -> bool) (s : string) :
  everyChar (fun c => negb (p c)) s = true -> removeChars p s = s.
Proof.
  induction s as [|c s IH]; simpl; [reflexivity|].
  intros H. apply andb_true_iff in H. destruct H as [Hc Hs].
  apply negb_true_iff in Hc. rewrite Hc. now rewrite IH.
Qed.

Lemma trim_keeps_everyChar (p : ascii -> bool) (s : string) :
  everyChar p s = true -> everyChar p (trim s) = true.
Proof.
  rewrite !everyChar_list, trim_as_list, !forallb_forall.
  intros H x Hx. apply H. now apply trimList_In.
Qed.

Lemma trim_idempotent (s : string) : trim (trim s) = trim s.
Proof.
  rewrite <- (string_of_list_ascii_of_string (trim (trim s))).
  rewrite <- (string_of_list_ascii_of_string (trim s)) at 2.
  f_equal. now rewrite !trim_as_list, trimList_idempotent.
Qed.

Lemma sanitizeText_clean (s : string) :
  everyChar (fun c => negb (isControl c)) (sanitizeText s) = true.
Proof. unfold sanitizeText. apply trim_keeps_everyChar, removeChars_clean. Qed.

Lemma sanitizeText_idempotent (s : string) :
  sanitizeText (sanitizeText s) = sanitizeText s.
Proof.
  unfold sanitizeText at 1.
  rewrite (removeChars_fixed isControl (sanitizeText s) (sanitizeText_clean s)).
  unfold sanitizeText. apply trim_idempotent.
Qed.

(** X1.  What [sanitizeText] returns holds none of the control characters it
    strips, neither starts nor ends with white space, and is left as it is
    by a second pass; a text that already has this form is returned
    unchanged. *)
Theorem sanitizeText_normal_form (s : string) :
  everyChar (fun c => negb (isControl c)) (sanitizeText s) = true
  /\ notWhiteSpace (firstChar (sanitizeText s))
  /\ notWhiteSpace (lastChar (sanitizeText s))
  /\ sanitizeText (sanitizeText s) = sanitizeText s
  /\ (everyChar (fun c => negb (isControl c)) s = true ->
      notWhiteSpace (firstChar s) -> notWhiteSpace (lastChar s) ->
      sanitizeText s = s).
Proof.
  split; [apply sanitizeText_clean|].
  pose proof (sanitizeText_idempotent s) as Hidem.
  pose proof (trimList_edges (list_ascii_of_string (removeChars isControl s)))
    as [Hfirst Hlast].
  split; [|split; [|split; [exact Hidem|]]].
  - unfold firstChar, sanitizeText. rewrite trim_as_list.
    destruct (trimList _); [exact I | exact Hfirst].
  - unfold lastChar, sanitizeText. rewrite trim_as_list.
    destruct (rev (trimList _)); [exact I | exact Hlast].
  - unfold sanitizeText. intros Hs Hf Hl. rewrite (removeChars_fixed isControl s Hs).
    rewrite <- (string_of_list_ascii_of_string s) at 2.
    unfold trim. f_equal.
    unfold firstChar, lastChar in Hf, Hl.
    rewrite (dropWhile_fixed isWhiteSpace (list_ascii_of_string s)).
    + rewrite (dropWhile_fixed isWhiteSpace (rev (list_ascii_of_string s)));
        [apply rev_involutive|].
      destruct (rev (list_ascii_of_string s)); [exact I | exact Hl].
    + destruct (list_ascii_of_string s); [exact I | exact Hf].
Qed.

Lemma everyChar_hashes (p : ascii -> bool) (k : nat) (s : string) :
  p "#"%char = true -> everyChar p (hashes k s) = everyChar p s.
Proof. intros Hp. induction k as [|k IH]; simpl; [reflexivity | now rewrite Hp]. Qed.

Lemma removeHeadingMarks_keeps (p : ascii -> bool) (s : string) (held : option nat) :
  p "#"%char = true -> everyChar p s = true ->
  everyChar p (removeHeadingMarks held s) = true.
Proof.
  intros Hp. revert held. induction s as [|c s IH]; intros held Hs; simpl.
  - destruct held; [now rewrite everyChar_hashes | reflexivity].
  - simpl in Hs. apply andb_true_iff in Hs. destruct Hs as [Hc Hs].
    destruct held as [k|].
    + destruct (Ascii.eqb c "#"); [now apply IH|].
      destruct (isWhiteSpace c).
      * destruct k; [simpl; rewrite Hc|]; now apply IH.
      * rewrite everyChar_hashes by assumption. simpl. rewrite Hc. now apply IH.
    + simpl. rewrite Hc. now apply IH.
Qed.

Lemma removePairs_fixed (c : ascii) (s : string) :
  everyChar (fun a => negb (Ascii.eqb a c)) s = true -> removePairs c s = s.
Proof.
  induction s as [|a rest IH]; [reflexivity|].
  intros H. simpl in H. apply andb_true_iff in H. destruct H as [Ha Hrest].
  apply negb_true_iff in Ha.
  destruct rest as [|b s']; [reflexivity|].
  change (removePairs c (String a (String b s')))
    with (if Ascii.eqb a c && Ascii.eqb b c then removePairs c s'
          else String a (removePairs c (String b s'))).
  rewrite Ha. cbn [andb]. now rewrite IH.
Qed.

Lemma removeHeadingMarks_fixed (s : string) (held : option nat) :
  held = None \/ held = Some 0 ->
  everyChar (fun a => negb (Ascii.eqb a "#")) s = true ->
  removeHeadingMarks held s = s.
Proof.
  revert held. induction s as [|c s IH]; intros held Hheld Hs.
  - destruct Hheld as [-> | ->]; reflexivity.
  - simpl in Hs. apply andb_true_iff in Hs. destruct Hs as [Hc Hs].
    apply negb_true_iff in Hc. cbn [removeHeadingMarks].
    destruct Hheld as [-> | ->].
    + f_equal. apply IH; [destruct (isLineTerminator c); auto | exact Hs].
    + rewrite Hc. destruct (isWhiteSpace c).
      * f_equal. apply IH; [destruct (isLineTerminator c); auto | exact Hs].
      * cbn [hashes]. f_equal. apply IH; [auto | exact Hs].
Qed.

Lemma everyChar_weaken (p q : ascii -> bool) (s : string) :
  (forall c, p c = true -> q c = true) -> everyChar p s = true -> everyChar q s = true.
Proof.
  intros Hpq. induction s as [|c s IH]; simpl; [reflexivity|].
  intros H. apply andb_true_iff in H. destruct H as [Hc Hs].
  now rewrite (Hpq c Hc), IH.
Qed.

Lemma cleanMarkdown_no_star (s : string) :
  everyChar (fun c => negb (Ascii.eqb "*" c)) (cleanMarkdown s) = true.
Proof.
  unfold cleanMarkdown. apply removeHeadingMarks_keeps; [reflexivity|].
  apply removeChars_clean.
Qed.

(** X2.  What [cleanMarkdown] returns holds no asterisk, and a text written
    without asterisk, hash and underscore is returned unchanged. *)
Theorem cleanMarkdown_marks (s : string) :
  everyChar (fun c => negb (Ascii.eqb "*" c)) (cleanMarkdown s) = true
  /\ (everyChar (fun c => negb (isMarkdownMark c)) s = true -> cleanMarkdown s = s).
Proof.
  split.
  - apply cleanMarkdown_no_star.
  - intros H. unfold cleanMarkdown.
    assert (Hstar : everyChar (fun a => negb (Ascii.eqb a "*")) s = true).
    { eapply everyChar_weaken; [|exact H]. unfold isMarkdownMark. intros c Hc.
      destruct (Ascii.eqb c "*"); [discriminate | reflexivity]. }
    assert (Hhash : everyChar (fun a => negb (Ascii.eqb a "#")) s = true).
    { eapply everyChar_weaken; [|exact H]. unfold isMarkdownMark. intros c Hc.
      destruct (Ascii.eqb c "#"); [|reflexivity].
      now rewrite orb_true_r in Hc. }
    assert (Hunder : everyChar (fun a => negb (Ascii.eqb a "_")) s = true).
    { eapply everyChar_weaken; [|exact H]. unfold isMarkdownMark. intros c Hc.
      destruct (Ascii.eqb c "_"); [|reflexivity].
      now rewrite orb_true_r in Hc. }
    rewrite (removePairs_fixed "*" s Hstar), (removePairs_fixed "#" s Hhash),
      (removePairs_fixed "_" s Hunder).
    rewrite removeChars_fixed.
    + apply removeHeadingMarks_fixed; [auto | exact Hhash].
    + eapply everyChar_weaken; [|exact Hstar]. intros c Hc.
      now rewrite Ascii.eqb_sym.
Qed.

(** ** The input filter *)

Lemma substring_whole (s : string) : String.substring 0 (String.length s) s = s.
Proof. induction s as [|c s IH]; simpl; [reflexivity | now rewrite IH]. Qed.

Lemma substring_skip (base suffix : string) :
  String.substring (String.length base) (String.length suffix) (base ++ suffix) = suffix.
Proof.
  induction base as [|c base IH]; simpl; [apply substring_whole | exact IH].
Qed.

Lemma substring_cut (m : nat) (s : string) :
  m <= String.length s ->
  s = (String.substring 0 m s ++ String.substring m (String.length s - m) s)%string.
Proof.
  revert s. induction m as [|m IH]; intros s Hm.
  - rewrite Nat.sub_0_r, substring_whole. now destruct s.
  - destruct s as [|c s]; simpl in *; [lia|].
    f_equal. apply IH. lia.
Qed.

Lemma endsWith_spec (s suffix : string) :
  endsWith s suffix = true <-> exists base, s = (base ++ suffix)%string.
Proof.
  unfold endsWith. rewrite andb_true_iff, Nat.leb_le, String.eqb_eq. split.
  - intros [Hlen Hsub].
    exists (String.substring 0 (String.length s - String.length suffix) s).
    rewrite <- Hsub at 2.
    pose proof (substring_cut (String.length s - String.length suffix) s) as Hcut.
    replace (String.length s - (String.length s - String.length suffix))
      with (String.length suffix) in Hcut by lia.
    apply Hcut. lia.
  - intros [base ->]. rewrite append_length. split; [lia|].
    replace (String.length base + String.length suffix - String.length suffix)
      with (String.length base) by lia.
    apply substring_skip.
Qed.

Lemma lowerCase_append (a b : string) :
  lowerCase (a ++ b) = (lowerCase a ++ lowerCase b)%string.
Proof. induction a as [|c a IH]; simpl; [reflexivity | now rewrite IH]. Qed.

(** X3.  A file passes as an image exactly when its MIME type starts with
    "image/" or its name, letter case aside, ends in one of .jpg, .jpeg,
    .png, .tif, .tiff, .bmp; it passes as a PDF exactly when its MIME type
    is "application/pdf" or its name, letter case aside, ends in .pdf.  So a
    name made of any stem and such an ending in any letter case passes. *)
Theorem input_filter_extensions (f : File) :
  (isImage f = true <->
   startsWith (file_type f) "image/" = true
   \/ exists base ext,
        In ext [ ".jpg"; ".jpeg"; ".png"; ".tif"; ".tiff"; ".bmp" ]
        /\ lowerCase (file_name f) = (base ++ ext)%string)
  /\ (isPdf f = true <->
      file_type f = "application/pdf"
      \/ exists base, lowerCase (file_name f) = (base ++ ".pdf")%string)
  /\ (forall stem ending,
        file_name f = (stem ++ ending)%string ->
        (In (lowerCase ending) [ ".jpg"; ".jpeg"; ".png"; ".tif"; ".tiff"; ".bmp" ] ->
         isImage f = true)
        /\ (lowerCase ending = ".pdf" -> isPdf f = true /\ accepted f = true)).
Proof.
  assert (Himg : isImage f = true <->
                 startsWith (file_type f) "image/" = true
                 \/ exists base ext,
                      In ext [ ".jpg"; ".jpeg"; ".png"; ".tif"; ".tiff"; ".bmp" ]
                      /\ lowerCase (file_name f) = (base ++ ext)%string).
  { unfold isImage, imageExtension. rewrite orb_true_iff, existsb_exists. split.
    - intros [H | [ext [Hin Hends]]]; [now left | right].
      apply endsWith_spec in Hends. destruct Hends as [base Hbase]. eauto.
    - intros [H | (base & ext & Hin & Hbase)]; [now left | right].
      exists ext. split; [exact Hin|]. apply endsWith_spec. eauto. }
  assert (Hpdf : isPdf f = true <->
                 file_type f = "application/pdf"
                 \/ exists base, lowerCase (file_name f) = (base ++ ".pdf")%string).
  { unfold isPdf, pdfExtension.
    now rewrite orb_true_iff, String.eqb_eq, endsWith_spec. }
  split; [exact Himg|]. split; [exact Hpdf|].
  intros stem ending Hname. split.
  - intros Hin. apply Himg. right. exists (lowerCase stem), (lowerCase ending).
    split; [exact Hin|]. now rewrite Hname, lowerCase_append.
  - intros Hend.
    assert (H : isPdf f = true).
    { apply Hpdf. right. exists (lowerCase stem).
      now rewrite Hname, lowerCase_append, Hend. }
    split; [exact H|]. unfold accepted. rewrite H. apply orb_true_r.
Qed.

(** ** Paths and folder names *)

Lemma splitOn_nonempty (sep : ascii) (s : string) : splitOn sep s <> [].
Proof.
  destruct s as [|c s]; simpl; [discriminate|].
  destruct (Ascii.eqb c sep); [discriminate|].
  destruct (splitOn sep s); discriminate.
Qed.

Lemma join_cons (sep x : string) (rest : list string) :
  rest <> [] -> join sep (x :: rest) = (x ++ sep ++ join sep rest)%string.
Proof. destruct rest; [contradiction | reflexivity]. Qed.

Lemma join_first_char (sep : string) (c : ascii) (seg : string) (rest : list string) :
  join sep (String c seg :: rest) = String c (join sep (seg :: rest)).
Proof. destruct rest; reflexivity. Qed.

Lemma join_splitOn (sep : ascii) (s : string) :
  join (String sep "") (splitOn sep s) = s.
Proof.
  induction s as [|c s IH]; [reflexivity|].
  cbn [splitOn]. destruct (Ascii.eqb c sep) eqn:Hc.
  - apply Ascii.eqb_eq in Hc. subst c.
    rewrite join_cons by apply splitOn_nonempty. simpl. now rewrite IH.
  - pose proof (splitOn_nonempty sep s) as Hne.
    destruct (splitOn sep s) as [|seg rest]; [contradiction|].
    now rewrite join_first_char, IH.
Qed.

Lemma splitOn_segments (sep : ascii) (s : string) :
  Forall (fun seg => everyChar (fun c => negb (Ascii.eqb c sep)) seg = true)
         (splitOn sep s).
Proof.
  induction s as [|c s IH]; simpl; [repeat constructor|].
  destruct (Ascii.eqb c sep) eqn:Hc.
  - constructor; [reflexivity | exact IH].
  - destruct (splitOn sep s) as [|seg rest]; [repeat constructor; simpl; now rewrite Hc|].
    inversion IH; subst. constructor; [simpl; now rewrite Hc | assumption].
Qed.

Lemma splitOn_before_separator (sep : ascii) (x t : string) :
  everyChar (fun c => negb (Ascii.eqb c sep)) x = true ->
  splitOn sep (x ++ String sep t) = x :: splitOn sep t.
Proof.
  induction x as [|c x IH]; simpl; intros H.
  - now rewrite Ascii.eqb_refl.
  - apply andb_true_iff in H. destruct H as [Hc Hx]. apply negb_true_iff in Hc.
    now rewrite Hc, IH.
Qed.

Lemma splitOn_plain (sep : ascii) (x : string) :
  everyChar (fun c => negb (Ascii.eqb c sep)) x = true -> splitOn sep x = [ x ].
Proof.
  induction x as [|c x IH]; simpl; intros H; [reflexivity|].
  apply andb_true_iff in H. destruct H as [Hc Hx]. apply negb_true_iff in Hc.
  now rewrite Hc, IH.
Qed.

Lemma splitOn_join (sep : ascii) (parts : list string) :
  parts <> [] ->
  Forall (fun seg => everyChar (fun c => negb (Ascii.eqb c sep)) seg = true) parts ->
  splitOn sep (join (String sep "") parts) = parts.
Proof.
  induction parts as [|x rest IH]; [contradiction|]. intros _ Hall.
  inversion Hall as [|? ? Hx Hrest]; subst.
  destruct rest as [|y rest]; [now apply splitOn_plain|].
  rewrite join_cons by discriminate.
  change (x ++ String sep "" ++ join (String sep "") (y :: rest))%string
    with (x ++ String sep (join (String sep "") (y :: rest)))%string.
  rewrite splitOn_before_separator by assumption.
  f_equal. apply IH; [discriminate | assumption].
Qed.

Lemma folderNameOf_segments (front : list string) (d f : string) :
  (if (1 <? List.length (front ++ [ d; f ]))%nat
   then nth (List.length (front ++ [ d; f ]) - 2) (front ++ [ d; f ])%list ""
   else "Root") = d.
Proof.
  rewrite length_app. simpl.
  replace (1 <? List.length front + 2)%nat with true
    by (symmetry; apply Nat.ltb_lt; lia).
  replace (List.length front + 2 - 2) with (List.length front) by lia.
  rewrite app_nth2 by lia. now rewrite Nat.sub_diag.
Qed.

(** X4.  Splitting a path at the slashes and joining the pieces with slashes
    are inverse to each other: joining the pieces of any path gives the path
    back, no piece holds a slash, and a list of slash-free pieces is what
    its joined path splits into.  Hence the folder of a file is the directory
    it lies in directly, whatever lies above, and "Root" for a bare file
    name. *)
Theorem path_split_join (relativePath : string) :
  join "/" (splitOn "/" relativePath) = relativePath
  /\ Forall (fun seg => everyChar (fun c => negb (Ascii.eqb c "/")) seg = true)
            (splitOn "/" relativePath)
  /\ (forall parts,
        parts <> [] ->
        Forall (fun seg => everyChar (fun c => negb (Ascii.eqb c "/")) seg = true) parts ->
        splitOn "/" (join "/" parts) = parts)
  /\ (forall above directory fileName,
        Forall (fun seg => everyChar (fun c => negb (Ascii.eqb c "/")) seg = true)
               (above ++ [ directory; fileName ]) ->
        folderNameOf (join "/" (above ++ [ directory; fileName ])) = directory)
  /\ (everyChar (fun c => negb (Ascii.eqb c "/")) relativePath = true ->
      folderNameOf relativePath = "Root").
Proof.
  split; [apply join_splitOn|]. split; [apply splitOn_segments|].
  split; [intros parts; apply splitOn_join|]. split.
  - intros above directory fileName Hall. unfold folderNameOf.
    rewrite splitOn_join; [apply folderNameOf_segments | | exact Hall].
    destruct above; discriminate.
  - intros H. unfold folderNameOf. now rewrite splitOn_plain.
Qed.

(** ** What ingestion builds *)

Lemma existsb_eqb_In (k : string) (keys : list string) :
  existsb (String.eqb k) keys = true <-> In k keys.
Proof.
  rewrite existsb_exists. split.
  - intros [k' [Hin Heq]]. apply String.eqb_eq in Heq. now subst.
  - intros H. exists k. split; [exact H | apply String.eqb_refl].
Qed.

Lemma firstOccurrences_In (names : list string) (k : string) :
  In k (firstOccurrences names) <-> In k names.
Proof.
  induction names as [|x names IH]; simpl; [tauto|].
  rewrite filter_In, IH, negb_true_iff, String.eqb_neq.
  destruct (String.eqb_spec k x) as [-> | Hne]; [tauto|].
  split; [tauto|]. intros [H | H]; [congruence | tauto].
Qed.

Lemma firstOccurrences_NoDup (names : list string) : NoDup (firstOccurrences names).
Proof.
  induction names as [|x names IH]; simpl; constructor.
  - rewrite filter_In, negb_true_iff, String.eqb_neq. tauto.
  - now apply NoDup_filter.
Qed.

Lemma firstOccurrences_snoc (names : list string) (k : string) :
  firstOccurrences (names ++ [ k ])
  = if existsb (String.eqb k) names then firstOccurrences names
    else (firstOccurrences names ++ [ k ])%list.
Proof.
  induction names as [|x names IH]; [reflexivity|].
  cbn [app firstOccurrences existsb]. rewrite IH.
  destruct (String.eqb_spec k x) as [-> | Hne]; cbn [orb].
  - destruct (existsb (String.eqb x) names); [reflexivity|].
    rewrite filter_app. cbn [filter]. rewrite String.eqb_refl. cbn [negb].
    now rewrite app_nil_r.
  - destruct (existsb (String.eqb k) names); [reflexivity|].
    rewrite filter_app. cbn [filter].
    destruct (String.eqb_spec k x); [contradiction | reflexivity].
Qed.

Lemma groupsPush_keyed (keys : list string) (F : string -> list FileItem)
    (k : string) (item : FileItem) :
  NoDup keys ->
  groupsPush (map (fun k' => (k', F k')) keys) k item
  = (map (fun k' => (k', if String.eqb k' k then (F k' ++ [ item ])%list else F k')) keys
     ++ (if existsb (String.eqb k) keys then [] else [ (k, [ item ]) ]))%list.
Proof.
  induction keys as [|k0 keys IH]; intros Hnd; [reflexivity|].
  inversion Hnd as [|? ? Hnotin Hnd']; subst.
  cbn [map groupsPush existsb].
  destruct (String.eqb_spec k k0) as [-> | Hne]; cbn [orb].
  - rewrite String.eqb_refl, app_nil_r. f_equal.
    apply map_ext_in. intros k' Hk'.
    destruct (String.eqb_spec k' k0) as [-> | _]; [contradiction | reflexivity].
  - destruct (String.eqb_spec k0 k) as [Heq | _]; [congruence|].
    cbn [app]. f_equal. now apply IH.
Qed.

Lemma entriesUnder_snoc (fs : list File) (f : File) (k : string) :
  entriesUnder (fs ++ [ f ]) k
  = if String.eqb k (folderOf f) then (entriesUnder fs k ++ [ entryOf f ])%list
    else entriesUnder fs k.
Proof.
  unfold entriesUnder. rewrite filter_app, map_app. cbn [filter].
  rewrite (String.eqb_sym (folderOf f) k).
  destruct (String.eqb k (folderOf f)); simpl; [reflexivity | apply app_nil_r].
Qed.

Lemma groupsOf_snoc (fs : list File) (f : File) :
  groupsPush (groupsOf fs) (folderOf f) (entryOf f) = groupsOf (fs ++ [ f ]).
Proof.
  unfold groupsOf at 1.
  rewrite groupsPush_keyed by apply firstOccurrences_NoDup.
  unfold groupsOf. rewrite map_app. cbn [map]. rewrite firstOccurrences_snoc.
  destruct (existsb (String.eqb (folderOf f)) (map folderOf fs)) eqn:Hin.
  - assert (Hin' : existsb (String.eqb (folderOf f))
                           (firstOccurrences (map folderOf fs)) = true).
    { apply (proj2 (existsb_eqb_In _ _)), (proj2 (firstOccurrences_In _ _)),
        (proj1 (existsb_eqb_In _ _)), Hin. }
    rewrite Hin', app_nil_r. apply map_ext. intros k. now rewrite entriesUnder_snoc.
  - assert (Hin' : existsb (String.eqb (folderOf f))
                           (firstOccurrences (map folderOf fs)) = false).
    { destruct (existsb _ (firstOccurrences _)) eqn:H; [|reflexivity].
      apply (proj1 (existsb_eqb_In _ _)) in H.
      apply (proj1 (firstOccurrences_In _ _)) in H.
      apply (proj2 (existsb_eqb_In _ _)) in H. congruence. }
    rewrite Hin', map_app. cbn [map]. f_equal.
    + apply map_ext. intros k. now rewrite entriesUnder_snoc.
    + assert (Hempty : entriesUnder fs (folderOf f) = []).
      { unfold entriesUnder.
        replace (filter (fun f' => String.eqb (folderOf f') (folderOf f)) fs)
          with (@nil File); [reflexivity|].
        rewrite <- (filter_false fs). apply filter_ext_in.
        intros f' Hf'.
        destruct (String.eqb_spec (folderOf f') (folderOf f)) as [Heq|]; [|reflexivity].
        assert (Habs : existsb (String.eqb (folderOf f)) (map folderOf fs) = true).
        { apply existsb_eqb_In. rewrite <- Heq. now apply in_map. }
        congruence. }
      now rewrite entriesUnder_snoc, String.eqb_refl, Hempty.
Qed.

Lemma fold_from_throw (allFiles : list File) (e : exn) :
  fold_left (fun acc f => try! g <- acc; addFile g f) allFiles (Throw e) = Throw e.
Proof. induction allFiles as [|f rest IH]; simpl; [reflexivity | exact IH]. Qed.

Lemma addFile_cases (groups : Groups) (f : File) :
  addFile groups f
  = if accepted f
    then if existsb (String.eqb (folderOf f)) objectPrototypeKeys
         then Throw NotAFunction
         else Ok (groupsPush groups (folderOf f) (entryOf f))
    else Ok groups.
Proof. reflexivity. Qed.

Lemma addFiles_fold (rest pre : list File) (groups : Groups) :
  fold_left (fun acc f => try! g <- acc; addFile g f) rest (Ok (groupsOf pre)) = Ok groups ->
  groups = groupsOf (pre ++ filter accepted rest)
  /\ Forall (fun f => accepted f = true ->
                      existsb (String.eqb (folderOf f)) objectPrototypeKeys = false) rest.
Proof.
  revert pre. induction rest as [|f rest IH]; intros pre H.
  - simpl in H. inversion H. rewrite app_nil_r. split; [reflexivity | constructor].
  - cbn [fold_left bind] in H. rewrite addFile_cases in H. cbn [filter].
    destruct (accepted f) eqn:Hacc.
    + destruct (existsb (String.eqb (folderOf f)) objectPrototypeKeys) eqn:Hproto.
      * rewrite fold_from_throw in H. discriminate H.
      * rewrite groupsOf_snoc in H. apply IH in H. destruct H as [Hg Hall].
        split; [now rewrite <- app_assoc in Hg|].
        constructor; [now intros _ | exact Hall].
    + apply IH in H. destruct H as [Hg Hall].
      split; [exact Hg|]. constructor; [intros Ht; congruence | exact Hall].
Qed.

Lemma addFiles_groups (allFiles : list File) (groups : Groups) :
  addFiles allFiles = Ok groups -> groups = groupsOf (filter accepted allFiles).
Proof. intros H. now apply (addFiles_fold allFiles []) in H. Qed.

Lemma objectEntries_plain {V} (o : list (string * V)) :
  Forall (fun kv => isArrayIndex (fst kv) = false) o -> objectEntries o = o.
Proof.
  intros H. unfold objectEntries.
  assert (Hnone : filter (fun kv : string * V => isArrayIndex (fst kv)) o = []).
  { rewrite <- (filter_false o). apply filter_ext_in. intros kv Hkv.
    rewrite Forall_forall in H. now apply H. }
  rewrite Hnone. simpl. rewrite <- (filter_true o) at 2. apply filter_ext_in.
  intros kv Hkv. rewrite Forall_forall in H. now rewrite (H kv Hkv).
Qed.

Lemma groupsOf_keys (fs : list File) :
  map fst (groupsOf fs) = firstOccurrences (map folderOf fs).
Proof. unfold groupsOf. rewrite map_map. cbn [fst]. apply map_id. Qed.

Lemma groupsOf_entry (fs : list File) (entry : string * list FileItem) :
  In entry (groupsOf fs) ->
  snd entry = entriesUnder fs (fst entry)
  /\ exists f, In f fs /\ folderOf f = fst entry.
Proof.
  unfold groupsOf. intros H. apply in_map_iff in H. destruct H as [k [<- Hk]].
  split; [reflexivity|]. cbn [fst].
  apply firstOccurrences_In, in_map_iff in Hk. destruct Hk as [f [Hf Hin]]. eauto.
Qed.

Lemma ingested_folders (E : Collaborators) (st st' : AppState) (allFiles : list File) :
  allFiles <> [] -> handleFileInputChange E st allFiles = Ok st' ->
  folders st' = map (newFolder E) (objectEntries (groupsOf (filter accepted allFiles)))
  /\ processingLog st'
     = (processingLog st ++ [ LogLoaded (List.length (folders st')) ])%list
  /\ isProcessing st' = isProcessing st.
Proof.
  intros Hne H. unfold handleFileInputChange in H.
  destruct allFiles as [|f rest]; [contradiction|].
  destruct (addFiles (f :: rest)) as [groups|e] eqn:Hadd; [|discriminate].
  apply addFiles_groups in Hadd. subst groups.
  simpl in H. inversion H; subst; clear H. cbn [folders processingLog isProcessing].
  repeat split.
Qed.

Lemma naturalSort_perm {T} (E : Collaborators) (array : list T)
    (keySelector : T -> string) :
  Permutation array (naturalSort E array keySelector).
Proof. unfold naturalSort. apply js_sort_perm. Qed.

(** X5.  After a pick that succeeds, the folders are named by the directories
    of the accepted files, each name once; when no name is a number written
    out, the folders stand in the order in which their first file was met.
    Every folder starts pending, without a document, and is not empty: its
    files are the natural sort of the entries of the accepted files filed
    under its name.  Every entry is selected and not rotated.  The pick adds
    one line to the log and does not touch the busy flag. *)
Theorem ingestion_builds_folders (E : Collaborators) (st st' : AppState)
    (allFiles : list File) :
  allFiles <> [] -> handleFileInputChange E st allFiles = Ok st' ->
  let filed := filter accepted allFiles in
  NoDup (map folderName (folders st'))
  /\ Permutation (map folderName (folders st'))
                 (firstOccurrences (map folderOf filed))
  /\ (Forall (fun f => isArrayIndex (folderOf f) = false) filed ->
      map folderName (folders st') = firstOccurrences (map folderOf filed))
  /\ (forall g, In g (folders st') ->
        status g = pending /\ resultDocBlob g = None
        /\ files g = naturalSort E (entriesUnder filed (folderName g)) name
        /\ files g <> [])
  /\ (forall g item, In g (folders st') -> In item (files g) ->
        selected item = true /\ rotation item = 0%Z
        /\ exists f, In f allFiles /\ accepted f = true
                     /\ folderOf f = folderName g /\ item = entryOf f)
  /\ processingLog st'
     = (processingLog st ++ [ LogLoaded (List.length (folders st')) ])%list
  /\ isProcessing st' = isProcessing st.
Proof.
  intros Hne Hrun filed.
  destruct (ingested_folders E st st' allFiles Hne Hrun) as (Hfolders & Hlog & Hbusy).
  fold filed in Hfolders.
  assert (Hnames : map folderName (folders st')
                   = map fst (objectEntries (groupsOf filed))).
  { rewrite Hfolders, map_map. reflexivity. }
  assert (Hperm : Permutation (map folderName (folders st'))
                              (firstOccurrences (map folderOf filed))).
  { rewrite Hnames, <- groupsOf_keys. apply Permutation_map, objectEntries_perm. }
  assert (Hfolder : forall g, In g (folders st') ->
            status g = pending /\ resultDocBlob g = None
            /\ files g = naturalSort E (entriesUnder filed (folderName g)) name
            /\ exists f, In f filed /\ folderOf f = folderName g).
  { intros g Hg. rewrite Hfolders in Hg. apply in_map_iff in Hg.
    destruct Hg as [entry [<- Hentry]].
    apply (Permutation_in _ (objectEntries_perm _)) in Hentry.
    apply groupsOf_entry in Hentry. destruct Hentry as [Hsnd Hf].
    unfold newFolder. cbn [status resultDocBlob files folderName].
    now rewrite Hsnd. }
  split; [eapply Permutation_NoDup; [symmetry; exact Hperm|];
          apply firstOccurrences_NoDup|].
  split; [exact Hperm|]. split.
  { intros Hplain. rewrite Hnames, objectEntries_plain; [apply groupsOf_keys|].
    apply Forall_forall. intros entry Hentry.
    apply groupsOf_entry in Hentry. destruct Hentry as [_ [f [Hf <-]]].
    rewrite Forall_forall in Hplain. now apply Hplain. }
  assert (Hitems : forall g item, In g (folders st') -> In item (files g) ->
            exists f, In f filed /\ folderOf f = folderName g /\ item = entryOf f).
  { intros g item Hg Hitem. destruct (Hfolder g Hg) as (_ & _ & Hfiles & _).
    rewrite Hfiles in Hitem.
    apply (Permutation_in _ (Permutation_sym (naturalSort_perm E _ name))) in Hitem.
    unfold entriesUnder in Hitem. apply in_map_iff in Hitem.
    destruct Hitem as [f [<- Hf]]. apply filter_In in Hf. destruct Hf as [Hf Hk].
    apply String.eqb_eq in Hk. eauto. }
  split.
  { intros g Hg. destruct (Hfolder g Hg) as (Hs & Hd & Hfiles & f & Hf & Hk).
    split; [exact Hs|]. split; [exact Hd|]. split; [exact Hfiles|].
    rewrite Hfiles. intros Hnil.
    assert (Hin : In (entryOf f) (entriesUnder filed (folderName g))).
    { unfold entriesUnder. apply in_map, filter_In. split; [exact Hf|].
      now apply String.eqb_eq. }
    apply (Permutation_in _ (naturalSort_perm E _ name)) in Hin.
    rewrite Hnil in Hin. exact Hin. }
  split; [|split; [exact Hlog | exact Hbusy]].
  intros g item Hg Hitem. destruct (Hitems g item Hg Hitem) as (f & Hf & Hk & ->).
  apply filter_In in Hf. destruct Hf as [Hf Hacc].
  split; [reflexivity|]. split; [reflexivity|]. eauto.
Qed.

Lemma ingestion_builds_folders_witness :
  let E := sampleCollaborators true RankNoText in
  let allFiles := [ scanInA; notes; brokenPdf; scanInB ] in
  exists st',
    (allFiles <> [] /\ handleFileInputChange E emptyState allFiles = Ok st')
    /\ map folderName (folders st') = [ "scan"; "a" ]
    /\ NoDup (map folderName (folders st')).
Proof.
  intros E allFiles.
  destruct (handleFileInputChange E emptyState allFiles) as [st'|e] eqn:Hrun;
    [|vm_compute in Hrun; discriminate Hrun].
  assert (Hne : allFiles <> []) by discriminate.
  exists st'. split; [split; [exact Hne | reflexivity]|].
  pose proof (ingestion_builds_folders E emptyState st' allFiles Hne Hrun)
    as (Hnd & _ & Hnames & _).
  split; [|exact Hnd]. rewrite Hnames; [reflexivity|].
  repeat constructor.
Defined.

Lemma addFiles_outcome (rest : list File) (groups0 : Groups) :
  (exists groups,
      fold_left (fun acc f => try! g <- acc; addFile g f) rest (Ok groups0) = Ok groups
      /\ forall f, In f rest -> accepted f = true -> ~ In (folderOf f) objectPrototypeKeys)
  \/ (fold_left (fun acc f => try! g <- acc; addFile g f) rest (Ok groups0)
      = Throw NotAFunction
      /\ exists f, In f rest /\ accepted f = true /\ In (folderOf f) objectPrototypeKeys).
Proof.
  revert groups0. induction rest as [|f rest IH]; intros groups0.
  - left. exists groups0. split; [reflexivity | contradiction].
  - cbn [fold_left bind]. rewrite addFile_cases.
    destruct (accepted f) eqn:Hacc.
    + destruct (existsb (String.eqb (folderOf f)) objectPrototypeKeys) eqn:Hproto.
      * right. rewrite fold_from_throw. split; [reflexivity|].
        exists f. split; [now left|]. split; [exact Hacc|].
        now apply existsb_eqb_In.
      * destruct (IH (groupsPush groups0 (folderOf f) (entryOf f)))
          as [(groups & Hok & Hall) | (Hthrow & f' & Hin & Hrest)].
        -- left. exists groups. split; [exact Hok|].
           intros f' [<- | Hin]; [|now apply Hall].
           intros _ Habs. apply existsb_eqb_In in Habs. congruence.
        -- right. split; [exact Hthrow|]. exists f'. split; [now right | exact Hrest].
    + destruct (IH groups0) as [(groups & Hok & Hall) | (Hthrow & f' & Hin & Hrest)].
      * left. exists groups. split; [exact Hok|].
        intros f' [<- | Hin]; [congruence | now apply Hall].
      * right. split; [exact Hthrow|]. exists f'. split; [now right | exact Hrest].
Qed.

Lemma handleFileInputChange_picked (E : Collaborators) (st : AppState)
    (allFiles : list File) :
  allFiles <> [] ->
  handleFileInputChange E st allFiles
  = match fold_left (fun acc f => try! g <- acc; addFile g f) allFiles (@Ok Groups []) with
    | Ok groups =>
        Ok {| folders := map (newFolder E) (objectEntries groups);
              processingLog :=
                (processingLog st
                 ++ [ LogLoaded (List.length (map (newFolder E) (objectEntries groups))) ])%list;
              isProcessing := isProcessing st |}
    | Throw e => Throw e
    end.
Proof. destruct allFiles; [contradiction | reflexivity]. Qed.

(** X6.  A pick throws exactly when some accepted file lies in a directory
    named like a property every object inherits (constructor, toString,
    __proto__ and the like): reading the group under such a name finds the
    inherited value instead of a list.  The exception is the TypeError of the
    failed call, and then no state is produced.  A pick of no file leaves the
    state as it was. *)
Theorem ingestion_throws_on_inherited_names (E : Collaborators) (st : AppState)
    (allFiles : list File) :
  handleFileInputChange E st [] = Ok st
  /\ ((exists e, handleFileInputChange E st allFiles = Throw e)
      <-> exists f, In f allFiles /\ accepted f = true
                    /\ In (folderOf f) objectPrototypeKeys)
  /\ (forall e, handleFileInputChange E st allFiles = Throw e -> e = NotAFunction).
Proof.
  split; [reflexivity|].
  destruct allFiles as [|f0 rest0].
  - split; [|discriminate]. split.
    + intros [e He]. discriminate He.
    + intros (f & [] & _).
  - rewrite handleFileInputChange_picked by discriminate.
    destruct (addFiles_outcome (f0 :: rest0) [])
      as [(groups & Hok & Hall) | (Hthrow & f & Hin & Hacc & Hproto)].
    + rewrite Hok. split; [|discriminate]. split.
      * intros [e He]. discriminate He.
      * intros (f & Hin & Hacc & Hproto). exfalso. exact (Hall f Hin Hacc Hproto).
    + rewrite Hthrow. split.
      * split; [intros _; eauto | intros _; now exists NotAFunction].
      * intros e He. now inversion He.
Qed.

(** ** Natural sort *)

Section SortByComparator.
Context {T : Type}.
Variable cmp : T -> T -> Z.
Hypothesis cmp_trans : forall a b c, (cmp a b <= 0 -> cmp b c <= 0 -> cmp a c <= 0)%Z.
Hypothesis cmp_total : forall a b, (0 < cmp a b -> cmp b a <= 0)%Z.

Lemma sort_insert_ordered (x : T) (l : list T) :
  StronglySorted (notAfter cmp) l -> StronglySorted (notAfter cmp) (sort_insert cmp x l).
Proof.
  induction 1 as [|y l Hl IH Hy]; simpl.
  - repeat constructor.
  - destruct (cmp x y <=? 0)%Z eqn:Hc.
    + apply Z.leb_le in Hc. constructor; [constructor; assumption|].
      constructor; [exact Hc|].
      eapply Forall_impl; [|exact Hy]. intros z Hz. now apply (cmp_trans x y z).
    + apply Z.leb_gt in Hc. constructor; [assumption|].
      eapply Permutation_Forall; [apply sort_insert_perm|].
      constructor; [now apply cmp_total | assumption].
Qed.

Lemma js_sort_ordered (l : list T) : StronglySorted (notAfter cmp) (js_sort cmp l).
Proof.
  induction l as [|x l IH]; simpl; [constructor | now apply sort_insert_ordered].
Qed.
End SortByComparator.

(** X7.  [naturalSort] returns the elements of its input, each as often as it
    came in, and when the collator is a consistent comparator (transitive,
    and placing one of any two names no later than the other) they stand in
    the collator's order: no element is placed after one that follows it. *)
Theorem naturalSort_orders {T} (E : Collaborators) (array : list T)
    (keySelector : T -> string) :
  (forall a b c, (collatorCompare E a b <= 0 -> collatorCompare E b c <= 0 ->
                  collatorCompare E a c <= 0)%Z) ->
  (forall a b, (0 < collatorCompare E a b -> collatorCompare E b a <= 0)%Z) ->
  Permutation array (naturalSort E array keySelector)
  /\ StronglySorted
       (notAfter (fun a b => collatorCompare E (keySelector a) (keySelector b)))
       (naturalSort E array keySelector).
Proof.
  intros Htrans Htotal. split; [apply naturalSort_perm|].
  unfold naturalSort. apply js_sort_ordered.
  - intros a b c. apply Htrans.
  - intros a b. apply Htotal.
Qed.

Lemma naturalSort_orders_witness :
  let E := collatingAs byLength (sampleCollaborators true RankNoText) in
  ((forall a b c, (collatorCompare E a b <= 0 -> collatorCompare E b c <= 0 ->
                   collatorCompare E a c <= 0)%Z)
   /\ (forall a b, (0 < collatorCompare E a b -> collatorCompare E b a <= 0)%Z))
  /\ naturalSort E [ "page10"; "p2"; "page1"; "p1" ] (fun s => s)
     = [ "p2"; "p1"; "page1"; "page10" ]
  /\ StronglySorted (notAfter byLength) (naturalSort E [ "page10"; "p2"; "page1"; "p1" ]
                                                     (fun s => s)).
Proof.
  intros E.
  assert (Htrans : forall a b c, (collatorCompare E a b <= 0 -> collatorCompare E b c <= 0 ->
                                  collatorCompare E a c <= 0)%Z).
  { intros a b c. cbn. unfold byLength. intros H1 H2.
    exact (proj2 (Z.le_sub_0 _ _)
             (Z.le_trans _ _ _ (proj1 (Z.le_sub_0 _ _) H1) (proj1 (Z.le_sub_0 _ _) H2))). }
  assert (Htotal : forall a b, (0 < collatorCompare E a b -> collatorCompare E b a <= 0)%Z).
  { intros a b. cbn. unfold byLength. intros H.
    exact (proj2 (Z.le_sub_0 _ _) (Z.lt_le_incl _ _ (proj1 (Z.lt_0_sub _ _) H))). }
  split; [split; assumption|]. split; [reflexivity|].
  exact (proj2 (naturalSort_orders E [ "page10"; "p2"; "page1"; "p1" ] (fun s => s)
                  Htrans Htotal)).
Defined.

(** ** More on rotation *)

(** X9.  A file that comes out of [processImageWithRotation] has the name and
    the MIME type of the file that went in.  The function can only fail for a
    rotation other than 0, and then because the image does not load, no 2D
    context is available, or the canvas cannot be encoded.  For every rotation
    other than 90 and 270 the canvas has the size of the image. *)
Theorem rotation_keeps_name_and_type (E : Collaborators) (f : File) (rot : Z) :
  (forall out, processImageWithRotation E f rot = Ok out ->
     file_name out = file_name f /\ file_type out = file_type f)
  /\ (forall e, processImageWithRotation E f rot = Throw e ->
        rot <> 0%Z
        /\ ((e = ImageLoadFailed /\ decodeImage E (file_blob f) = None)
            \/ (e = NoCanvasContext /\ canvasContext E = false)
            \/ (e = CanvasToBlobFailed
                /\ exists img, decodeImage E (file_blob f) = Some img
                     /\ canvasToBlob E (rotationCanvas (file_blob f) img rot)
                                     (file_type f) = None)))
  /\ (forall img, rot <> 90%Z -> rot <> 270%Z ->
        canvas_width (rotationCanvas (file_blob f) img rot) = img_width img
        /\ canvas_height (rotationCanvas (file_blob f) img rot) = img_height img).
Proof.
  unfold processImageWithRotation. split; [|split].
  - intros out H. destruct (rot =? 0)%Z; [now inversion H|].
    destruct (decodeImage E (file_blob f)) as [img|]; [|discriminate].
    destruct (canvasContext E); [|discriminate]. cbn [negb] in H.
    destruct (canvasToBlob E _ _); [|discriminate].
    inversion H. split; reflexivity.
  - intros e H. destruct (rot =? 0)%Z eqn:H0; [discriminate|].
    apply Z.eqb_neq in H0. split; [exact H0|].
    destruct (decodeImage E (file_blob f)) as [img|]; [|inversion H; auto].
    destruct (canvasContext E); [|inversion H; auto]. cbn [negb] in H.
    destruct (canvasToBlob E _ _) eqn:Hblob; [discriminate|].
    inversion H. right. right. split; [reflexivity|]. eauto.
  - intros img H90 H270. unfold rotationCanvas.
    apply Z.eqb_neq in H90, H270. rewrite H90, H270. split; reflexivity.
Qed.

Lemma insideImage_turned (img : Image) (u v : Q) :
  insideImage (turned img) u v <-> insideImage img v u.
Proof. unfold insideImage, turned. cbn [img_width img_height]. tauto. Qed.

Lemma position_after_90_known (src : Blob) (img : Image) (u v x y : Q) :
  positionOnCanvas (rotationCanvas src img 90) u v = Some (x, y) ->
  insideImage img u v /\ (x == inject_Z (img_height img) - v)%Q /\ (y == u)%Q.
Proof.
  intros H.
  assert (Hin : insideImage img u v).
  { apply (position_inside src img 90); [auto | congruence]. }
  split; [exact Hin|].
  destruct (position_after_90 src img u v Hin) as (x' & y' & Hpos & Hx & Hy).
  rewrite Hpos in H. inversion H; subst x' y'. split; assumption.
Qed.

(** X10.  Quarter turns compose as turns do.  Drawing an image turned by 90
    and then drawing the result turned by 90 again puts every point of the
    image where a single turn by 180 puts it, and the second canvas has the
    size of the first image again; a third and a fourth such pass bring
    every point back to where it started. *)
Theorem quarter_turns_compose (src src' : Blob) (img : Image) (u v x y : Q) :
  positionOnCanvas (rotationCanvas src img 90) u v = Some (x, y) ->
  (canvas_width (rotationCanvas src' (turned img) 90) = img_width img
   /\ canvas_height (rotationCanvas src' (turned img) 90) = img_height img)
  /\ (exists x2 y2,
        positionOnCanvas (rotationCanvas src' (turned img) 90) x y = Some (x2, y2)
        /\ samePoint (positionOnCanvas (rotationCanvas src img 180) u v) x2 y2
        /\ exists x3 y3,
             positionOnCanvas (rotationCanvas src img 90) x2 y2 = Some (x3, y3)
             /\ samePoint (positionOnCanvas (rotationCanvas src img 270) u v) x3 y3
             /\ samePoint (positionOnCanvas (rotationCanvas src' (turned img) 90) x3 y3)
                          u v).
Proof.
  intros H. apply position_after_90_known in H.
  destruct H as (Hin & Hx & Hy). pose proof Hin as (Hw & Hh & [Hu0 Hu1] & [Hv0 Hv1]).
  split; [split; reflexivity|].
  assert (Hin2 : insideImage (turned img) x y).
  { apply insideImage_turned. unfold insideImage.
    split; [exact Hw|]. split; [exact Hh|]. rewrite Hx, Hy. split; split; lra. }
  destruct (position_after_90 src' (turned img) x y Hin2) as (x2 & y2 & Hpos2 & Hx2 & Hy2).
  cbn [turned img_width img_height] in Hx2, Hy2.
  exists x2, y2. split; [exact Hpos2|].
  destruct (position_after_180 src img u v Hin) as (a & b & -> & Ha & Hb).
  split; [cbn [samePoint]; rewrite Ha, Hb, Hx2, Hy2, Hx, Hy; split; lra|].
  assert (Hin3 : insideImage img x2 y2).
  { unfold insideImage. split; [exact Hw|]. split; [exact Hh|].
    rewrite Hx2, Hy2, Hx, Hy. split; split; lra. }
  destruct (position_after_90 src img x2 y2 Hin3) as (x3 & y3 & Hpos3 & Hx3 & Hy3).
  exists x3, y3. split; [exact Hpos3|].
  destruct (position_after_270 src img u v Hin) as (a' & b' & -> & Ha' & Hb').
  split; [cbn [samePoint]; rewrite Ha', Hb', Hx3, Hy3, Hx2, Hy2, Hx, Hy; split; lra|].
  assert (Hin4 : insideImage (turned img) x3 y3).
  { apply insideImage_turned. unfold insideImage.
    split; [exact Hw|]. split; [exact Hh|].
    rewrite Hx3, Hy3, Hx2, Hy2, Hx, Hy. split; split; lra. }
  destruct (position_after_90 src' (turned img) x3 y3 Hin4) as (x4 & y4 & -> & Hx4 & Hy4).
  cbn [turned img_width img_height] in Hx4, Hy4.
  cbn [samePoint]. rewrite Hx4, Hy4, Hx3, Hy3, Hx2, Hy2, Hx, Hy. split; lra.
Qed.

Lemma quarter_turns_compose_witness :
  let src := jpegBlob [] in
  let img := {| img_width := 40; img_height := 30 |} in
  positionOnCanvas (rotationCanvas src img 90) 10 5 = Some (25, 10)%Q
  /\ exists x2 y2,
       positionOnCanvas (rotationCanvas src (turned img) 90) 25 10 = Some (x2, y2)
       /\ (x2 == 30 /\ y2 == 25)%Q.
Proof.
  intros src img.
  assert (H : positionOnCanvas (rotationCanvas src img 90) 10 5 = Some (25, 10)%Q)
    by reflexivity.
  split; [exact H|].
  destruct (quarter_turns_compose src src img 10 5 25 10 H)
    as (_ & x2 & y2 & Hpos & _).
  exists x2, y2. split; [exact Hpos|].
  assert (Heq : Some (x2, y2) = Some (30, 25)%Q)
    by (rewrite <- Hpos; reflexivity).
  inversion Heq. split; reflexivity.
Defined.

(** ** Page analysis *)

(** X11.  [analyzePage] throws only for a missing API key (checked first) or
    an unreadable file.  Otherwise it returns: when the model answers, the
    model's page number, flag, block types and boxes untouched, in the same
    order, with every text sanitized (a second cleaning would change
    nothing); when the model fails, a page of one paragraph that names the
    file. *)
Theorem analyzePage_outcomes (E : Collaborators) (f : File) (lang : string) :
  (apiKey E = false -> analyzePage E f lang = Throw ApiKeyNotFound)
  /\ (apiKey E = true -> fileReadable E f = false ->
      analyzePage E f lang = Throw FileReadFailed)
  /\ (apiKey E = true -> fileReadable E f = true ->
      exists page,
        analyzePage E f lang = Ok page
        /\ match analyzeModel E f lang with
           | Some raw =>
               pageNumber page = pageNumber raw
               /\ hasContinuingSentence page = hasContinuingSentence raw
               /\ map block_type (blocks page) = map block_type (blocks raw)
               /\ map boundingBox (blocks page) = map boundingBox (blocks raw)
               /\ map text (blocks page) = map (fun b => sanitizeText (text b)) (blocks raw)
               /\ Forall (fun b => sanitizeText (text b) = text b) (blocks page)
           | None =>
               pageNumber page = None
               /\ map block_type (blocks page) = [ paragraph ]
               /\ map text (blocks page)
                  = [ ("[Ошибка обработки страницы: " ++ file_name f ++ "]")%string ]
           end).
Proof.
  unfold analyzePage. split; [intros ->; reflexivity|].
  split; [intros -> ->; reflexivity|].
  intros -> ->. cbn [negb].
  destruct (analyzeModel E f lang) as [raw|]; eexists; (split; [reflexivity|]).
  - cbn [pageNumber hasContinuingSentence blocks].
    rewrite !map_map. cbn [sanitizeBlock block_type boundingBox text].
    repeat split. apply Forall_forall. intros b Hb. apply in_map_iff in Hb.
    destruct Hb as [b0 [<- _]]. cbn [sanitizeBlock text].
    apply sanitizeText_idempotent.
  - repeat split.
Qed.

(** ** The page descriptors sent to the ranking model *)

Lemma substring_length_bound (n m : nat) (s : string) :
  String.length (String.substring n m s) <= m.
Proof.
  revert m s. induction n as [|n IH]; intros m s.
  - apply substring_length_le.
  - destruct s as [|c s]; simpl; [lia | apply IH].
Qed.

Lemma js_substring_from_suffix (s : string) (a : Z) :
  exists front,
    s = (front ++ js_substring_from s a)%string
    /\ (str_length (js_substring_from s a) <= Z.max 0 (str_length s - a))%Z.
Proof.
  unfold js_substring_from, js_substring, clampIndex, str_length.
  set (len := String.length s).
  replace (Z.min (Z.max 0 (Z.of_nat len)) (Z.of_nat len)) with (Z.of_nat len) by lia.
  rewrite Nat2Z.id.
  set (m := Z.to_nat (Z.min (Z.max 0 a) (Z.of_nat len))).
  assert (Hm : m <= len) by (unfold m; lia).
  rewrite Nat.min_l, Nat.max_r by exact Hm.
  exists (String.substring 0 m s). split.
  - now apply substring_cut.
  - pose proof (substring_length_bound m (len - m) s). unfold m in *. lia.
Qed.

Lemma js_substring_head (s : string) (b : Z) :
  (0 <= b)%Z ->
  exists rest,
    s = (js_substring s 0 b ++ rest)%string
    /\ (str_length (js_substring s 0 b) <= b)%Z.
Proof.
  intros Hb. rewrite js_substring_prefix by exact Hb.
  set (m := Z.to_nat (Z.min b (str_length s))).
  assert (Hm : m <= String.length s) by (unfold m, str_length; lia).
  exists (String.substring m (String.length s - m) s). split.
  - now apply substring_cut.
  - pose proof (substring_length_le m s). unfold str_length, m in *. lia.
Qed.

Lemma indexed_length {A} (arr : list A) : List.length (indexed arr) = List.length arr.
Proof.
  unfold indexed. rewrite length_combine, length_seq. apply Nat.min_id.
Qed.

(** X12.  The ranking model is sent one descriptor per page, in page order,
    numbered from 0, with the page's display name and detected number.  The
    two excerpts are never longer than 100 characters: the first is the start
    of the text of the page's first paragraph or heading block, the second
    the end of the text of its last one, and both are empty when the page has
    no such block. *)
Theorem page_descriptors (pages : list DocxGenerationData) :
  map tempId (pagesSummary pages) = seq 0 (List.length pages)
  /\ map fileName (pagesSummary pages) = map originalFileName pages
  /\ map detectedPageNum (pagesSummary pages)
     = map (fun p => pageNumber (analysis p)) pages
  /\ Forall (fun d => (str_length (firstSentence d) <= 100)%Z
                      /\ (str_length (lastSentence d) <= 100)%Z)
            (pagesSummary pages)
  /\ (forall i p,
        (forall b, hd_error (filter isFlowBlock (blocks (analysis p))) = Some b ->
           exists rest, text b = (firstSentence (pageSummary i p) ++ rest)%string)
        /\ (forall b, hd_error (rev (filter isFlowBlock (blocks (analysis p)))) = Some b ->
              exists front, text b = (front ++ lastSentence (pageSummary i p))%string)
        /\ (filter isFlowBlock (blocks (analysis p)) = [] ->
            firstSentence (pageSummary i p) = "" /\ lastSentence (pageSummary i p) = "")).
Proof.
  unfold pagesSummary. rewrite !map_map. cbn [pageSummary tempId fileName detectedPageNum].
  split; [|split; [|split; [|split]]].
  - apply (indexed_from_map_fst pages 0).
  - rewrite <- (indexed_from_map_snd pages 0) at 2. unfold indexed. now rewrite map_map.
  - rewrite <- (indexed_from_map_snd pages 0) at 2. unfold indexed. now rewrite map_map.
  - apply Forall_forall. intros d Hd. apply in_map_iff in Hd.
    destruct Hd as [[i p] [<- _]]. cbn [fst snd pageSummary firstSentence lastSentence].
    split.
    + destruct (filter isFlowBlock (blocks (analysis p))) as [|b bs]; [cbn; lia|].
      destruct (js_substring_head (text b) 100) as (rest & _ & Hlen); lia.
    + destruct (rev (filter isFlowBlock (blocks (analysis p)))) as [|b bs]; [cbn; lia|].
      destruct (js_substring_from_suffix (text b) (str_length (text b) - 100))
        as (front & _ & Hlen). lia.
  - intros i p. cbn [pageSummary firstSentence lastSentence]. split; [|split].
    + intros b Hb.
      destruct (filter isFlowBlock (blocks (analysis p))) as [|b' bs]; [discriminate|].
      inversion Hb; subst b'.
      destruct (js_substring_head (text b) 100) as (rest & Hcut & _); [lia|]. eauto.
    + intros b Hb.
      destruct (rev (filter isFlowBlock (blocks (analysis p)))) as [|b' bs]; [discriminate|].
      inversion Hb; subst b'.
      destruct (js_substring_from_suffix (text b) (str_length (text b) - 100))
        as (front & Hcut & _). eauto.
    + intros Hnil. rewrite Hnil. split; reflexivity.
Qed.

(** ** Edge behaviour of the reordering *)

Lemma applyHint_length {A} (pages : list A) (ids : list Z) :
  List.length pages <= List.length (applyHint pages ids)
  /\ List.length (applyHint pages ids) <= List.length ids + List.length pages.
Proof.
  unfold applyHint. rewrite length_app.
  rewrite <- (Forall2_length (pagesAtHint_spec pages ids)).
  rewrite <- (Forall2_length (pagesMissingFrom_spec pages ids)).
  set (n := List.length pages).
  pose proof (filter_length (fun i => includes ids i) (seq 0 n)) as Hsplit.
  rewrite length_seq in Hsplit.
  pose proof (filter_length_le (inRange n) ids) as Hhint.
  assert (Hnamed : List.length (filter (fun i => includes ids i) (seq 0 n))
                   <= List.length (filter (inRange n) ids)).
  { rewrite <- (length_map Z.of_nat). apply NoDup_incl_length.
    - apply NoDup_map_NoDup_ForallPairs; [|apply NoDup_filter, seq_NoDup].
      intros i j _ _ Hij. lia.
    - intros z Hz. apply in_map_iff in Hz. destruct Hz as [i [<- Hi]].
      apply filter_In in Hi. destruct Hi as [Hi Hinc]. apply in_seq in Hi.
      apply filter_In. split; [now apply includes_spec|].
      apply inRange_spec. lia. }
  lia.
Qed.

Lemma applyHint_only_pages {A} (pages : list A) (ids : list Z) (p : A) :
  In p (applyHint pages ids) -> In p pages.
Proof.
  unfold applyHint, pagesAtHint, pagesMissingFrom. intros H.
  apply in_app_or in H. destruct H as [H | H].
  - apply in_flat_map in H. destruct H as [id [_ H]].
    destruct (js_index pages id) as [q|] eqn:Hq; [|contradiction].
    destruct H as [<- | []]. apply js_index_spec in Hq.
    eapply nth_error_In, Hq.
  - apply in_map_iff in H. destruct H as [[i q] [<- H]].
    apply filter_In in H. destruct H as [H _]. apply indexed_spec in H.
    eapply nth_error_In, H.
Qed.

(** X13.  [reorderPagesByContent] returns a sequence of fewer than two pages
    as it is, without asking for the API key.  It throws exactly when there
    are at least two pages and no API key, and then with the missing-key
    error.  A reply without text leaves the order unchanged.  Whatever it
    returns holds only pages of the input and is never shorter than the
    input; it is longer only when a hint repeats an index. *)
Theorem reorder_edge_behaviour (E : Collaborators) (pages : list DocxGenerationData) :
  (List.length pages <= 1 -> reorderPagesByContent E pages = Ok pages)
  /\ ((exists e, reorderPagesByContent E pages = Throw e)
      <-> 2 <= List.length pages /\ apiKey E = false)
  /\ (forall e, reorderPagesByContent E pages = Throw e -> e = ApiKeyNotFound)
  /\ (2 <= List.length pages -> apiKey E = true ->
      rankModel E (pagesSummary pages) = RankNoText ->
      reorderPagesByContent E pages = Ok pages)
  /\ (forall out, reorderPagesByContent E pages = Ok out ->
        List.length pages <= List.length out
        /\ (forall p, In p out -> In p pages)
        /\ (List.length pages < List.length out ->
            exists ids, rankModel E (pagesSummary pages) = RankIds ids
                        /\ noRepeat ids = false)).
Proof.
  unfold reorderPagesByContent.
  destruct (List.length pages <=? 1)%nat eqn:Hn.
  - apply Nat.leb_le in Hn. split; [reflexivity|].
    split; [split; [intros [e He]; discriminate | lia]|].
    split; [discriminate|]. split; [reflexivity|].
    intros out Hout. inversion Hout; subst out. repeat split; [lia | tauto | lia].
  - apply Nat.leb_gt in Hn. destruct (apiKey E) eqn:Hk; cbn [negb].
    + split; [lia|]. split; [split; [|intros [_ H]; discriminate]|].
      { intros [e He]. destruct (rankModel E (pagesSummary pages)); discriminate. }
      split; [intros e He; destruct (rankModel E (pagesSummary pages)); discriminate|].
      split; [intros _ _ ->; reflexivity|].
      intros out Hout.
      destruct (rankModel E (pagesSummary pages)) as [| | |ids] eqn:Hr;
        inversion Hout; subst out; clear Hout.
      * pose proof (js_sort_perm comparePageNumbers pages) as Hp.
        unfold defaultSort. rewrite <- (Permutation_length Hp).
        repeat split; [lia | | lia].
        intros p. apply Permutation_in. now apply Permutation_sym.
      * repeat split; [lia | tauto | lia].
      * pose proof (js_sort_perm comparePageNumbers pages) as Hp.
        unfold defaultSort. rewrite <- (Permutation_length Hp).
        repeat split; [lia | | lia].
        intros p. apply Permutation_in. now apply Permutation_sym.
      * split; [apply applyHint_length|]. split; [intros p; apply applyHint_only_pages|].
        intros Hlong. exists ids. split; [reflexivity|].
        destruct (noRepeat ids) eqn:Hnr; [|reflexivity]. exfalso.
        apply noRepeat_NoDup in Hnr.
        revert Hlong. unfold applyHint. rewrite length_app.
        rewrite <- (Forall2_length (pagesAtHint_spec pages ids)).
        rewrite <- (Forall2_length (pagesMissingFrom_spec pages ids)).
        set (n := List.length pages).
        pose proof (filter_length (fun i => includes ids i) (seq 0 n)) as Hsplit.
        rewrite length_seq in Hsplit.
        assert (Hle : List.length (filter (inRange n) ids)
                      <= List.length (map Z.of_nat (filter (fun i => includes ids i) (seq 0 n)))).
        { apply NoDup_incl_length; [now apply NoDup_filter|].
          intros z Hz. apply filter_In in Hz. destruct Hz as [Hz Hr'].
          apply inRange_spec in Hr'. apply in_map_iff. exists (Z.to_nat z).
          split; [lia|]. apply filter_In. split; [apply in_seq; lia|].
          apply includes_spec. now rewrite Z2Nat.id by lia. }
        rewrite length_map in Hle. lia.
    + split; [lia|]. split; [split; [intros _; split; [lia | reflexivity] | intros _; eauto]|].
      split; [intros e He; congruence|].
      split; [discriminate|]. discriminate.
Qed.

(** ** The children of the generated document *)

Lemma blockChildren_count (E : Collaborators) (page : DocxGenerationData)
    (b : PageContentBlock) :
  1 <= List.length (blockChildren E page b) <= 2.
Proof.
  unfold blockChildren.
  destruct (boundingBox b); [|simpl; lia].
  destruct (imageBlob page); [|simpl; lia].
  destruct (isCropType (block_type b)); [|simpl; lia].
  destruct (cropImageFromBlob E b0 l); simpl; lia.
Qed.

Lemma pageChildren_count (E : Collaborators) (page : DocxGenerationData)
    (bs : list PageContentBlock) :
  List.length bs <= List.length (flat_map (blockChildren E page) bs)
  <= 2 * List.length bs.
Proof.
  induction bs as [|b bs IH]; simpl; [lia|].
  rewrite length_app. pose proof (blockChildren_count E page b). lia.
Qed.

(** X14.  The document body is built page by page: the children of a
    concatenation of page sequences are the children of the first followed by
    those of the second, and a summary only adds a prefix (heading, summary
    text, separator), which an empty summary text does not add.  Every block
    yields one or two children, so no block is dropped.  [createDocx] fails
    only when the packer does, and otherwise returns the packer's blob. *)
Theorem document_structure (E : Collaborators) (pages : list DocxGenerationData)
    (summary : option string) :
  (forall first second,
     docChildren E (first ++ second) None
     = (docChildren E first None ++ docChildren E second None)%list)
  /\ docChildren E pages summary
     = (summaryChildren summary ++ docChildren E pages None)%list
  /\ docChildren E pages (Some "") = docChildren E pages None
  /\ (forall s, s <> ""%string ->
        docChildren E pages (Some s)
        = SummaryHeading :: SummaryBody s :: DocumentSeparator
            :: docChildren E pages None)
  /\ (List.length (flat_map (fun p => blocks (analysis p)) pages)
      <= List.length (docChildren E pages None)
      <= 2 * List.length (flat_map (fun p => blocks (analysis p)) pages))
  /\ (forall e, createDocx E pages summary = Throw e ->
        e = PackerFailed /\ packer E (docChildren E pages summary) = None)
  /\ (forall blob, createDocx E pages summary = Ok blob <->
        packer E (docChildren E pages summary) = Some blob).
Proof.
  unfold docChildren. cbn [summaryChildren app String.eqb].
  split; [intros first second; apply flat_map_app|].
  split; [reflexivity|]. split; [reflexivity|].
  split.
  { intros s Hs. destruct (String.eqb s "") eqn:Heq; [|reflexivity].
    apply String.eqb_eq in Heq. contradiction. }
  split.
  { induction pages as [|p pages IH]; simpl; [lia|].
    rewrite !length_app.
    pose proof (pageChildren_count E p (blocks (analysis p))). lia. }
  unfold createDocx, docChildren.
  destruct (packer E _) as [blob|].
  - split; [discriminate|]. intros b. split; congruence.
  - split; [intros e H; inversion H; auto|]. intros b. split; discriminate.
Qed.

(** X15.  When no block of any page is a crop block that has both a bounding
    box and a page raster, the document body is one paragraph per block, in
    page order and block order, styled by the block type alone; no image is
    decoded, so the body does not depend on the collaborators. *)
Theorem text_blocks_become_paragraphs (E : Collaborators)
    (pages : list DocxGenerationData) (summary : option string) :
  (forall page b, In page pages -> In b (blocks (analysis page)) ->
     isCropType (block_type b) = false \/ boundingBox b = None
     \/ imageBlob page = None) ->
  docChildren E pages summary
  = (summaryChildren summary
     ++ map blockParagraph (flat_map (fun p => blocks (analysis p)) pages))%list
  /\ forall E', docChildren E' pages summary = docChildren E pages summary.
Proof.
  intros Htext.
  assert (Hbody : forall E0,
            flat_map (fun page => flat_map (blockChildren E0 page) (blocks (analysis page))) pages
            = map blockParagraph (flat_map (fun p => blocks (analysis p)) pages)).
  { intros E0. induction pages as [|p pages IH]; [reflexivity|].
    cbn [flat_map]. rewrite map_app, IH.
    2:{ intros page b Hp Hb. apply Htext; [now right | assumption]. }
    f_equal.
    assert (Hp : forall b, In b (blocks (analysis p)) ->
                   blockChildren E0 p b = [ blockParagraph b ]).
    { intros b Hb. unfold blockChildren.
      destruct (Htext p b (or_introl eq_refl) Hb) as [H | [H | H]]; rewrite H.
      - destruct (boundingBox b); [|reflexivity]. now destruct (imageBlob p).
      - reflexivity.
      - now destruct (boundingBox b). }
    induction (blocks (analysis p)) as [|b bs IHb]; [reflexivity|].
    cbn [flat_map map]. rewrite (Hp b (or_introl eq_refl)).
    rewrite IHb; [reflexivity|]. intros b' Hb'. apply Hp. now right. }
  unfold docChildren. split; [now rewrite Hbody|].
  intros E'. now rewrite !Hbody.
Qed.

Lemma text_blocks_become_paragraphs_witness :
  docChildren (sampleCollaborators true RankRejected)
    [ pageOfBlocks "a.jpg" [ sampleBlock heading "Title"; sampleBlock image_crop "null" ];
      pageOfBlocks "b.jpg" [ sampleBlock author "N. N." ] ] None
  = [ Heading2 "Title"; BodyParagraph "null"; AuthorLine "N. N." ].
Proof.
  refine (proj1 (text_blocks_become_paragraphs _ _ None _)).
  intros page b Hp Hb. right. right.
  destruct Hp as [<- | [<- | []]]; reflexivity.
Defined.

(** X16.  A crop block (image, table or formula) with a bounding box, on a
    page that has a raster, never yields a body paragraph.  When the cropper
    returns a blob, the block yields that blob's bytes as an image followed
    by a caption in square brackets: the block's text, or, for the text
    "null", the word for the block type.  A box of fewer than four numbers
    embeds the page raster itself.  When the cropper throws, as it does for a
    box of four numbers on a raster that does not decode or without a 2D
    context, the block yields one placeholder that quotes its text. *)
Theorem crop_block_outcomes (E : Collaborators) (page : DocxGenerationData)
    (b : PageContentBlock) (box : list Z) (blob : Blob) :
  isCropType (block_type b) = true ->
  boundingBox b = Some box ->
  imageBlob page = Some blob ->
  let caption := if String.eqb (text b) "null"
                 then match block_type b with
                      | table_crop => "Таблица"
                      | formula_crop => "Формула"
                      | _ => "Рисунок"
                      end
                 else text b in
  let picture bytes := [ CroppedImage bytes; Caption ("[" ++ caption ++ "]")%string ] in
  let placeholder := [ CropErrorText ("[Ошибка отображения: " ++ text b ++ "]")%string ] in
  (forall cropped, cropImageFromBlob E blob box = Ok cropped ->
     blockChildren E page b = picture (blob_bytes cropped))
  /\ (forall e, cropImageFromBlob E blob box = Throw e ->
        blockChildren E page b = placeholder)
  /\ (List.length box < 4 -> blockChildren E page b = picture (blob_bytes blob))
  /\ (4 <= List.length box ->
      decodeImage E blob = None \/ canvasContext E = false ->
      blockChildren E page b = placeholder).
Proof.
  intros Hcrop Hbox Hblob caption picture placeholder.
  assert (Hcases : blockChildren E page b
                   = match cropImageFromBlob E blob box with
                     | Ok cropped => picture (blob_bytes cropped)
                     | Throw _ => placeholder
                     end).
  { unfold blockChildren. rewrite Hbox, Hblob, Hcrop.
    destruct (cropImageFromBlob E blob box); [|reflexivity].
    unfold picture, caption, defaultCaption.
    destruct (block_type b); try discriminate Hcrop; reflexivity. }
  rewrite Hcases. split; [intros cropped ->; reflexivity|].
  split; [intros e ->; reflexivity|]. split.
  - intros Hshort. unfold cropImageFromBlob.
    destruct box as [|y [|x [|y' [|x' rest]]]]; try reflexivity.
    simpl in Hshort. lia.
  - intros Hlong Hfail. unfold cropImageFromBlob.
    destruct box as [|y [|x [|y' [|x' rest]]]]; try (simpl in Hlong; lia).
    destruct (decodeImage E blob) as [img|]; [|reflexivity].
    destruct Hfail as [Hfail | Hfail]; [discriminate|]. now rewrite Hfail.
Qed.

Lemma crop_block_outcomes_witness :
  blockChildren (sampleCollaborators true RankRejected)
    {| originalFileName := "a.jpg";
       analysis := {| pageNumber := None; blocks := []; hasContinuingSentence := false |};
       imageBlob := Some (jpegBlob [ Byte.x01; Byte.x02 ]);
       sourceType := image |}
    {| block_type := table_crop; text := "null"; isTranslated := None;
       boundingBox := Some [ 0%Z; 0%Z; 500%Z ] |}
  = [ CroppedImage [ Byte.x01; Byte.x02 ]; Caption "[Таблица]" ].
Proof.
  pose proof (crop_block_outcomes (sampleCollaborators true RankRejected)
                {| originalFileName := "a.jpg";
                   analysis := {| pageNumber := None; blocks := [];
                                  hasContinuingSentence := false |};
                   imageBlob := Some (jpegBlob [ Byte.x01; Byte.x02 ]);
                   sourceType := image |}
                {| block_type := table_crop; text := "null"; isTranslated := None;
                   boundingBox := Some [ 0%Z; 0%Z; 500%Z ] |}
                [ 0%Z; 0%Z; 500%Z ] (jpegBlob [ Byte.x01; Byte.x02 ])
                eq_refl eq_refl eq_refl) as H.
  cbv zeta in H. apply H. simpl. lia.
Defined.

(** ** What a run leaves of the folders *)

Lemma processFolder_keeps_folder (E : Collaborators) (options : ProcessingOptions)
    (folder : FolderGroup) :
  let r := processFolder E options folder in
  folderName (run_folder r) = folderName folder
  /\ files (run_folder r) = files folder
  /\ run_log r <> []
  /\ match run_download r with
     | Some d =>
         status (run_folder r) = completed
         /\ resultDocBlob (run_folder r) = Some (snd d)
         /\ fst d = (folderName folder ++ "_AI_Processed.docx")%string
         /\ run_uncaught r = None
     | None =>
         status (run_folder r) <> completed
         /\ resultDocBlob (run_folder r) = resultDocBlob folder
     end.
Proof.
  assert (Hassemble : forall l pages summary,
            let r := assemble E folder l pages summary in
            folderName (run_folder r) = folderName folder
            /\ files (run_folder r) = files folder
            /\ run_log r <> []
            /\ match run_download r with
               | Some d =>
                   status (run_folder r) = completed
                   /\ resultDocBlob (run_folder r) = Some (snd d)
                   /\ fst d = (folderName folder ++ "_AI_Processed.docx")%string
                   /\ run_uncaught r = None
               | None =>
                   status (run_folder r) <> completed
                   /\ resultDocBlob (run_folder r) = resultDocBlob folder
               end).
  { intros l pages summary. unfold assemble.
    destruct (createDocx E pages summary); cbn.
    - repeat split; try reflexivity. intros H. now apply app_eq_nil in H.
    - repeat split; try reflexivity; try discriminate.
      intros H. now apply app_eq_nil in H. }
  assert (Hstopped : forall l e, l <> [] ->
            let r := stopped folder l e in
            folderName (run_folder r) = folderName folder
            /\ files (run_folder r) = files folder
            /\ run_log r <> []
            /\ status (run_folder r) <> completed
            /\ resultDocBlob (run_folder r) = resultDocBlob folder).
  { intros l e Hl. cbn. repeat split; try assumption; discriminate. }
  unfold processFolder.
  destruct (extractAndAnalyze E options (filter selected (files folder)))
    as [buffer logged1].
  destruct (reorderPagesByContent E buffer) as [ordered|e].
  - destruct (generateSummary_opt options); [|apply Hassemble].
    destruct (generateSummary E (fullText ordered) (summaryLanguage options));
      [apply Hassemble|].
    apply Hstopped. intros H. now apply app_eq_nil in H.
  - apply Hstopped. discriminate.
Qed.

Lemma hasSelection_by_files (f g : FolderGroup) :
  files f = files g -> hasSelection f = hasSelection g.
Proof. unfold hasSelection. now intros ->. Qed.

Lemma folderLoop_keeps_folders (E : Collaborators) (options : ProcessingOptions)
    (todo : list FolderGroup) :
  let r := folderLoop E options todo in
  map folderName (updatedFolders r) = map folderName todo
  /\ map files (updatedFolders r) = map files todo
  /\ (forall i folder,
        nth_error todo i = Some folder -> hasSelection folder = false ->
        nth_error (updatedFolders r) i = Some folder /\ nth i (writes r) [] = [])
  /\ (forall d, In d (downloads r) ->
        exists g, In g (updatedFolders r)
                  /\ hasSelection g = true
                  /\ status g = completed
                  /\ resultDocBlob g = Some (snd d)
                  /\ fst d = (folderName g ++ "_AI_Processed.docx")%string)
  /\ (existsb hasSelection todo = true -> logged r <> []).
Proof.
  induction todo as [|folder rest (IHn & IHf & IHu & IHd & IHl)]; cbn zeta.
  - cbn. split; [reflexivity|]. split; [reflexivity|].
    split; [intros [|i] folder H; discriminate|].
    split; [intros d []|discriminate].
  - cbn [folderLoop existsb]. destruct (hasSelection folder) eqn:Hsel.
    + pose proof (processFolder_keeps_folder E options folder)
        as (Hname & Hfiles & Hlog & Hdl). cbn zeta in *.
      destruct (run_uncaught (processFolder E options folder)) as [e|] eqn:Hun;
        cbn [updatedFolders writes downloads logged map].
      * rewrite Hname, Hfiles. split; [reflexivity|]. split; [reflexivity|].
        split; [|split; [intros d []|intros _; exact Hlog]].
        intros [|i] g Hg Hg'; cbn in Hg |- *; [congruence|].
        split; [assumption|].
        clear - Hg. revert i Hg. induction rest as [|g' rest IH]; intros [|i] Hg;
          cbn in *; try discriminate; try reflexivity. now apply IH.
      * rewrite Hname, Hfiles, IHn, IHf. split; [reflexivity|]. split; [reflexivity|].
        split; [|split].
        -- intros [|i] g Hg Hg'; cbn in Hg |- *; [congruence | now apply IHu].
        -- intros d Hd. apply in_app_or in Hd. destruct Hd as [Hd | Hd].
           ++ destruct (run_download (processFolder E options folder)) as [d0|];
                [|contradiction].
              destruct Hd as [<- | []]. destruct Hdl as (Hst & Hdoc & Hnm & _).
              exists (run_folder (processFolder E options folder)).
              split; [now left|]. rewrite Hname.
              rewrite (hasSelection_by_files _ folder Hfiles). auto.
           ++ destruct (IHd d Hd) as (g & Hg & Hrest). exists g.
              split; [now right | exact Hrest].
        -- intros _ H. apply app_eq_nil in H. now destruct H.
    + cbn [updatedFolders writes downloads logged map orb].
      rewrite IHn, IHf. split; [reflexivity|]. split; [reflexivity|].
      split; [|split].
      * intros [|i] g Hg Hg'; cbn in Hg |- *; [split; [assumption | reflexivity]|].
        now apply IHu.
      * intros d Hd. destruct (IHd d Hd) as (g & Hg & Hrest). exists g.
        split; [now right | exact Hrest].
      * exact IHl.
Qed.

Lemma last_append {A} (l l' : list A) (d : A) :
  l' <> [] -> last (l ++ l') d = last l' d.
Proof.
  intros Hl'. induction l as [|x l IH]; [reflexivity|].
  cbn [app]. rewrite <- IH. cbn [last].
  destruct (l ++ l')%list eqn:Happ; [|reflexivity].
  apply app_eq_nil in Happ. tauto.
Qed.

Lemma processFolder_without_key (E : Collaborators) (options : ProcessingOptions)
    (folder : FolderGroup) :
  apiKey E = false ->
  exists logged1,
    processFolder E options folder
    = if generateSummary_opt options
      then stopped folder
             (((LogPhase1 :: logged1 ++ [ LogPhase2 0 ]) ++ [ LogOrderRestored ])
                ++ [ LogPhase3 ])%list
             ApiKeyNotFound
      else assemble E folder
             ((LogPhase1 :: logged1 ++ [ LogPhase2 0 ]) ++ [ LogOrderRestored ])%list
             [] None.
Proof.
  intros Hkey. unfold processFolder.
  pose proof (buffer_without_key E options (filter selected (files folder)) Hkey) as Hbuf.
  destruct (extractAndAnalyze E options (filter selected (files folder)))
    as [buffer logged1]. cbn [fst] in Hbuf. subst buffer.
  exists logged1. cbn [reorderPagesByContent List.length Nat.leb].
  destruct (generateSummary_opt options); [|reflexivity].
  unfold generateSummary. now rewrite Hkey.
Qed.

Lemma folderLoop_stops_without_key (E : Collaborators) (options : ProcessingOptions)
    (todo : list FolderGroup) :
  apiKey E = false -> generateSummary_opt options = true ->
  existsb hasSelection todo = true ->
  exists before folder after,
    todo = (before ++ folder :: after)%list
    /\ existsb hasSelection before = false
    /\ hasSelection folder = true
    /\ updatedFolders (folderLoop E options todo)
       = (before ++ withStatus folder processing (resultDocBlob folder) :: after)%list
    /\ writes (folderLoop E options todo)
       = (map (fun _ => []) before ++ [ processing ] :: map (fun _ => []) after)%list
    /\ uncaught (folderLoop E options todo) = Some ApiKeyNotFound
    /\ downloads (folderLoop E options todo) = []
    /\ last (logged (folderLoop E options todo)) LogStart = LogPhase3.
Proof.
  intros Hkey Hsum. induction todo as [|folder rest IH]; [discriminate|].
  cbn [existsb folderLoop]. destruct (hasSelection folder) eqn:Hsel.
  - intros _. exists [], folder, rest.
    destruct (processFolder_without_key E options folder Hkey) as [logged1 ->].
    rewrite Hsum.
    cbn [stopped run_uncaught run_folder run_log run_writes run_download
         updatedFolders writes uncaught downloads logged].
    split; [reflexivity|]. split; [reflexivity|]. split; [assumption|].
    split; [reflexivity|]. split; [reflexivity|]. split; [reflexivity|].
    split; [reflexivity|]. apply last_last.
  - cbn [orb]. intros Hrest.
    destruct (IH Hrest) as (before & g & after & -> & Hb & Hg & Hu & Hw & Hun & Hd & Hl).
    exists (folder :: before), g, after. cbn. rewrite Hsel, Hb, Hu, Hw, Hun, Hd, Hl.
    repeat split; assumption.
Qed.

Lemma folderLoop_uncaught (E : Collaborators) (options : ProcessingOptions)
    (todo : list FolderGroup) (e : exn) :
  uncaught (folderLoop E options todo) = Some e ->
  e = ApiKeyNotFound /\ apiKey E = false /\ generateSummary_opt options = true
  /\ existsb hasSelection todo = true.
Proof.
  induction todo as [|folder rest IH]; cbn [folderLoop existsb]; [discriminate|].
  destruct (hasSelection folder) eqn:Hsel; cbn [orb].
  - destruct (processFolder_outcome E options folder)
      as [(Hnone & _) | (Hsome & _ & _ & Hkey & Hsum)].
    + rewrite Hnone. cbn [uncaught]. intros H. destruct (IH H) as (? & ? & ? & _). auto.
    + rewrite Hsome. cbn [uncaught]. intros H. inversion H. auto.
  - cbn [uncaught]. exact IH.
Qed.

(** X17.  A run changes neither the folder names nor the file lists, and only
    appends to the log.  A folder without a selected file is left exactly as
    it was and its status is never assigned.  Every file offered for download
    is the document of a folder that has a selected file, is marked completed
    and stores that document, under the folder's name followed by
    "_AI_Processed.docx".  When no file is selected anywhere the run only
    logs one line.  An exception leaves the run exactly when the API key is
    missing, the summary is on and some file is selected; it is the
    missing-key error, and the busy flag is then left set, while a run that
    ends normally clears it. *)
Theorem run_keeps_folders (E : Collaborators) (options : ProcessingOptions)
    (st : AppState) :
  let st' := fst (processFolders E options st) in
  let r := snd (processFolders E options st) in
  map folderName (folders st') = map folderName (folders st)
  /\ map files (folders st') = map files (folders st)
  /\ (exists more, more <> [] /\ processingLog st' = (processingLog st ++ more)%list)
  /\ (forall i folder,
        nth_error (folders st) i = Some folder -> hasSelection folder = false ->
        nth_error (folders st') i = Some folder /\ nth i (writes r) [] = [])
  /\ (forall d, In d (downloads r) ->
        exists g, In g (folders st')
                  /\ hasSelection g = true
                  /\ status g = completed
                  /\ resultDocBlob g = Some (snd d)
                  /\ fst d = (folderName g ++ "_AI_Processed.docx")%string)
  /\ (existsb hasSelection (folders st) = false ->
      folders st' = folders st
      /\ processingLog st' = (processingLog st ++ [ LogNothingSelected ])%list
      /\ isProcessing st' = isProcessing st
      /\ downloads r = [])
  /\ (forall e, uncaught r = Some e <->
        e = ApiKeyNotFound /\ apiKey E = false /\ generateSummary_opt options = true
        /\ existsb hasSelection (folders st) = true)
  /\ (existsb hasSelection (folders st) = true ->
      isProcessing st' = match uncaught r with Some _ => true | None => false end).
Proof.
  cbn zeta. unfold processFolders.
  destruct (existsb hasSelection (folders st)) eqn:Hany.
  - pose proof (folderLoop_keeps_folders E options (folders st))
      as (Hn & Hf & Hu & Hd & Hl). cbn zeta in *.
    assert (Hiff : forall e, uncaught (folderLoop E options (folders st)) = Some e <->
                     e = ApiKeyNotFound /\ apiKey E = false
                     /\ generateSummary_opt options = true /\ true = true).
    { intros e. split.
      - intros H. apply folderLoop_uncaught in H. tauto.
      - intros (-> & Hkey & Hsum & _).
        destruct (folderLoop_stops_without_key E options (folders st) Hkey Hsum Hany)
          as (_ & _ & _ & _ & _ & _ & _ & _ & H & _). exact H. }
    destruct (uncaught (folderLoop E options (folders st))) as [e|] eqn:Hun;
      cbn [fst snd folders processingLog isProcessing].
    + split; [exact Hn|]. split; [exact Hf|].
      split; [eexists; split; [|reflexivity]; discriminate|].
      split; [exact Hu|]. split; [exact Hd|]. split; [discriminate|].
      split; [intros e'; rewrite Hun; apply Hiff | intros _; now rewrite Hun].
    + split; [exact Hn|]. split; [exact Hf|].
      split; [eexists; split; [|reflexivity]; discriminate|].
      split; [exact Hu|]. split; [exact Hd|]. split; [discriminate|].
      split; [intros e'; rewrite Hun; apply Hiff | intros _; now rewrite Hun].
  - cbn [fst snd folders processingLog isProcessing writes downloads uncaught].
    split; [reflexivity|]. split; [reflexivity|].
    split; [eexists; split; [|reflexivity]; discriminate|].
    split.
    { intros i folder Hi _. split; [exact Hi|].
      clear - Hi. revert i Hi. induction (folders st) as [|g rest IH]; intros [|i] Hi;
        cbn in *; try discriminate; try reflexivity. now apply IH. }
    split; [intros d []|]. split; [auto|].
    split; [|discriminate].
    intros e. split; [discriminate|]. intros (_ & _ & _ & H). discriminate.
Qed.

(** X18.  Without an API key, no page is ever analysed.  With the summary on,
    the run is stopped by the missing-key error in the first folder that has a
    selected file: that folder is left in status processing, every other
    folder is left as it was, nothing is offered for download, the last log
    line announces the summary phase and the busy flag stays set.  With the
    summary off, no exception leaves the run and every folder that has a
    selected file receives the packing of an empty document: it is completed
    with that document when the packer accepts a document without children,
    and in error otherwise. *)
Theorem run_without_api_key (E : Collaborators) (options : ProcessingOptions)
    (st : AppState) :
  apiKey E = false ->
  let st' := fst (processFolders E options st) in
  let r := snd (processFolders E options st) in
  (generateSummary_opt options = true ->
   existsb hasSelection (folders st) = true ->
   exists before folder after,
     folders st = (before ++ folder :: after)%list
     /\ existsb hasSelection before = false
     /\ hasSelection folder = true
     /\ folders st'
        = (before ++ withStatus folder processing (resultDocBlob folder) :: after)%list
     /\ downloads r = []
     /\ uncaught r = Some ApiKeyNotFound
     /\ isProcessing st' = true
     /\ last (processingLog st') LogStart = LogPhase3)
  /\ (generateSummary_opt options = false ->
      uncaught r = None
      /\ folders st'
         = map (fun folder =>
                  if hasSelection folder then
                    match packer E [] with
                    | Some blob => withStatus folder completed (Some blob)
                    | None => withStatus folder error (resultDocBlob folder)
                    end
                  else folder)
               (folders st)).
Proof.
  intros Hkey. cbn zeta. split.
  - intros Hsum Hany. unfold processFolders. rewrite Hany.
    destruct (folderLoop_stops_without_key E options (folders st) Hkey Hsum Hany)
      as (before & folder & after & Hst & Hb & Hf & Hu & Hw & Hun & Hd & Hl).
    exists before, folder, after. rewrite Hun.
    cbn [fst snd folders processingLog isProcessing].
    repeat split; try assumption.
    destruct (logged (folderLoop E options (folders st))) as [|x l] eqn:Hlog.
    + cbn in Hl. discriminate.
    + rewrite last_append by discriminate. exact Hl.
  - intros Hsum.
    destruct (processFolders_run E options st) as [Hrun Hfolders].
    rewrite Hfolders, Hrun.
    destruct (existsb hasSelection (folders st)) eqn:Hany.
    + destruct (folderLoop_finishes E options (folders st) (or_intror Hsum)) as [Hnone Hmap].
      split; [exact Hnone|]. rewrite Hmap. apply map_ext. intros folder.
      destruct (hasSelection folder); [|reflexivity].
      destruct (processFolder_without_key E options folder Hkey) as [logged1 ->].
      rewrite Hsum. unfold assemble, createDocx, docChildren. cbn [summaryChildren flat_map app].
      now destruct (packer E []).
    + cbn [uncaught updatedFolders]. split; [reflexivity|].
      rewrite <- (no_selection_map E options (folders st) Hany) at 1.
      apply map_ext_in. intros folder Hin.
      assert (Hf : hasSelection folder = false).
      { destruct (hasSelection folder) eqn:Hs; [|reflexivity].
        assert (existsb hasSelection (folders st) = true)
          by (apply existsb_exists; eauto). congruence. }
      now rewrite Hf.
Qed.

Lemma run_without_api_key_witness :
  let E := sampleCollaborators false RankNoText in
  let st := afterPicking E [ brokenPdf; scanInC ] in
  map status (folders (fst (processFolders E withoutSummary st))) = [ error; error ].
Proof.
  cbn zeta.
  rewrite (proj2 (proj2 (run_without_api_key (sampleCollaborators false RankNoText)
                           withoutSummary
                           (afterPicking (sampleCollaborators false RankNoText)
                              [ brokenPdf; scanInC ])
                           eq_refl) eq_refl)).
  reflexivity.
Defined.

(** ** Selection and rotation handlers *)

Lemma replaceAt_length {A} (arr : list A) (i : nat) (x : A) :
  List.length (replaceAt arr i x) = List.length arr.
Proof.
  revert i. induction arr as [|y arr IH]; intros [|i]; cbn; try reflexivity.
  now rewrite IH.
Qed.

Lemma replaceAt_same {A} (arr : list A) (i : nat) (x y : A) :
  nth_error arr i = Some y -> nth_error (replaceAt arr i x) i = Some x.
Proof.
  revert i. induction arr as [|z arr IH]; intros [|i] H; cbn in *;
    try discriminate; [reflexivity | now apply IH].
Qed.

Lemma replaceAt_other {A} (arr : list A) (i j : nat) (x : A) :
  j <> i -> nth_error (replaceAt arr i x) j = nth_error arr j.
Proof.
  revert i j. induction arr as [|z arr IH]; intros [|i] [|j] H; cbn;
    try reflexivity; [contradiction | apply IH; congruence].
Qed.

Lemma replaceAt_twice {A} (arr : list A) (i : nat) (x y : A) :
  replaceAt (replaceAt arr i x) i y = replaceAt arr i y.
Proof.
  revert i. induction arr as [|z arr IH]; intros [|i]; cbn; try reflexivity.
  now rewrite IH.
Qed.

Lemma replaceAt_current {A} (arr : list A) (i : nat) (x : A) :
  nth_error arr i = Some x -> replaceAt arr i x = arr.
Proof.
  revert i. induction arr as [|z arr IH]; intros [|i] H; cbn in *;
    try discriminate; [congruence | now rewrite IH].
Qed.

Lemma replaceAt_map {A B} (f : A -> B) (arr : list A) (i : nat) (x y : A) :
  nth_error arr i = Some y -> f x = f y -> map f (replaceAt arr i x) = map f arr.
Proof.
  revert i. induction arr as [|z arr IH]; intros [|i] H Hf; cbn in *;
    try discriminate; [congruence | now rewrite IH].
Qed.

Lemma withFiles_current (folder : FolderGroup) : withFiles folder (files folder) = folder.
Proof. now destruct folder. Qed.

Lemma withSelected_current (f : FileItem) : withSelected f (selected f) = f.
Proof. now destruct f. Qed.

Lemma toggle_twice (items : list FileItem) (fileId : string) :
  map (fun f => if String.eqb (id f) fileId
                then withSelected f (negb (selected f)) else f)
      (map (fun f => if String.eqb (id f) fileId
                     then withSelected f (negb (selected f)) else f) items)
  = items.
Proof.
  rewrite map_map. rewrite <- (map_id items) at 2. apply map_ext. intros f.
  destruct (String.eqb (id f) fileId) eqn:Hid; [|now rewrite Hid].
  cbn [withSelected id]. rewrite Hid. cbn. rewrite negb_involutive.
  now destruct f.
Qed.

(** X19.  [toggleFileSelection] fails exactly when the folder index is out of
    range.  Otherwise it keeps the number of folders and every other folder,
    and in the folder at the index it keeps the name, the status, the stored
    document and the number and order of the files; it flips the selection of
    every file that carries the identifier (all of them when several do) and
    changes no other field of any file.  Toggling the same identifier again
    gives back the folders it started from. *)
Theorem file_selection_toggle (prev : list FolderGroup) (folderIdx : nat)
    (fileId : string) :
  (toggleFileSelection prev folderIdx fileId = None <-> List.length prev <= folderIdx)
  /\ forall next,
       toggleFileSelection prev folderIdx fileId = Some next ->
       List.length next = List.length prev
       /\ (forall j, j <> folderIdx -> nth_error next j = nth_error prev j)
       /\ (exists folder folder',
             nth_error prev folderIdx = Some folder
             /\ nth_error next folderIdx = Some folder'
             /\ folderName folder' = folderName folder
             /\ status folder' = status folder
             /\ resultDocBlob folder' = resultDocBlob folder
             /\ map selected (files folder')
                = map (fun f => xorb (selected f) (String.eqb (id f) fileId))
                      (files folder)
             /\ map (fun f => withSelected f true) (files folder')
                = map (fun f => withSelected f true) (files folder))
       /\ toggleFileSelection next folderIdx fileId = Some prev.
Proof.
  unfold toggleFileSelection. split.
  - destruct (nth_error prev folderIdx) eqn:Hn.
    + split; [discriminate|]. intros Hle. apply nth_error_None in Hle. congruence.
    + split; [intros _; now apply nth_error_None | reflexivity].
  - intros next Hnext.
    destruct (nth_error prev folderIdx) as [folder|] eqn:Hn; [|discriminate].
    inversion Hnext; subst next; clear Hnext.
    split; [apply replaceAt_length|].
    split; [intros j Hj; now apply replaceAt_other|].
    split.
    { eexists. eexists. split; [reflexivity|].
      split; [eapply replaceAt_same, Hn|].
      cbn [withFiles folderName status resultDocBlob files]. rewrite !map_map.
      repeat split; apply map_ext; intros f;
        destruct (String.eqb (id f) fileId); cbn;
        try (destruct (selected f); reflexivity); reflexivity. }
    rewrite (replaceAt_same _ _ _ _ Hn). rewrite replaceAt_twice.
    cbn [withFiles folderName status resultDocBlob files].
    f_equal. apply replaceAt_current. rewrite Hn. f_equal.
    destruct folder as [fname items st doc]. unfold withFiles. cbn. f_equal.
    symmetry. apply toggle_twice.
Qed.

Lemma processFolders_skips_unselected (E : Collaborators) (options : ProcessingOptions)
    (st : AppState) (i : nat) (folder : FolderGroup) :
  nth_error (folders st) i = Some folder -> hasSelection folder = false ->
  nth_error (folders (fst (processFolders E options st))) i = Some folder
  /\ nth i (writes (snd (processFolders E options st))) [] = [].
Proof.
  intros Hi Hsel. destruct (processFolders_run E options st) as [Hrun Hfolders].
  rewrite Hfolders, Hrun. destruct (existsb hasSelection (folders st)).
  - now apply (folderLoop_keeps_folders E options (folders st)).
  - cbn [updatedFolders writes]. split; [exact Hi|].
    clear - Hi. revert i Hi. induction (folders st) as [|g rest IH]; intros [|i] Hi;
      cbn in *; try discriminate; try reflexivity. now apply IH.
Qed.

(** X20.  [toggleFolderSelection] fails exactly when the folder index is out
    of range.  Otherwise it changes only the folder at the index, and there
    only the selection of the files: every file gets the requested value.
    Asking for the same value again changes nothing.  After the folder was
    deselected, a run leaves it exactly as it is and never assigns its
    status. *)
Theorem folder_selection (prev : list FolderGroup) (folderIdx : nat)
    (selectAll : bool) :
  (toggleFolderSelection prev folderIdx selectAll = None
   <-> List.length prev <= folderIdx)
  /\ forall next,
       toggleFolderSelection prev folderIdx selectAll = Some next ->
       List.length next = List.length prev
       /\ (forall j, j <> folderIdx -> nth_error next j = nth_error prev j)
       /\ (exists folder folder',
             nth_error prev folderIdx = Some folder
             /\ nth_error next folderIdx = Some folder'
             /\ folderName folder' = folderName folder
             /\ status folder' = status folder
             /\ resultDocBlob folder' = resultDocBlob folder
             /\ map selected (files folder') = map (fun _ => selectAll) (files folder)
             /\ map (fun f => withSelected f true) (files folder')
                = map (fun f => withSelected f true) (files folder)
             /\ (selectAll = false ->
                 forall E options st,
                   folders st = next ->
                   nth_error (folders (fst (processFolders E options st))) folderIdx
                   = Some folder'
                   /\ nth folderIdx (writes (snd (processFolders E options st))) [] = []))
       /\ toggleFolderSelection next folderIdx selectAll = Some next.
Proof.
  unfold toggleFolderSelection. split.
  - destruct (nth_error prev folderIdx) eqn:Hn.
    + split; [discriminate|]. intros Hle. apply nth_error_None in Hle. congruence.
    + split; [intros _; now apply nth_error_None | reflexivity].
  - intros next Hnext.
    destruct (nth_error prev folderIdx) as [folder|] eqn:Hn; [|discriminate].
    inversion Hnext; subst next; clear Hnext.
    split; [apply replaceAt_length|].
    split; [intros j Hj; now apply replaceAt_other|].
    pose proof (replaceAt_same prev folderIdx
                  (withFiles folder (map (fun f => withSelected f selectAll) (files folder)))
                  folder Hn) as Hnew.
    split.
    { eexists. eexists. split; [reflexivity|]. split; [exact Hnew|].
      cbn [withFiles folderName status resultDocBlob files]. rewrite !map_map.
      split; [reflexivity|]. split; [reflexivity|]. split; [reflexivity|].
      split; [reflexivity|]. split; [reflexivity|].
      intros -> E options st Hst. apply processFolders_skips_unselected.
      - now rewrite Hst.
      - unfold hasSelection. cbn [withFiles files]. clear.
        induction (files folder) as [|f fs IH]; [reflexivity | exact IH]. }
    rewrite Hnew, replaceAt_twice.
    cbn [withFiles folderName status resultDocBlob files]. rewrite map_map.
    reflexivity.
Qed.

Lemma rotation_update_twice (items : list FileItem) (fileId : string) (r r' : Z) :
  map (fun f => if String.eqb (id f) fileId then withRotation f r' else f)
      (map (fun f => if String.eqb (id f) fileId then withRotation f r else f) items)
  = map (fun f => if String.eqb (id f) fileId then withRotation f r' else f) items.
Proof.
  rewrite map_map. apply map_ext. intros f.
  destruct (String.eqb (id f) fileId) eqn:Hid; [|now rewrite Hid].
  cbn [withRotation id]. now rewrite Hid.
Qed.

(** X21.  [updateFileRotation] keeps the folders, their names, statuses and
    documents and the number and order of their files; in every folder, every
    file that carries the identifier gets the new rotation (all of them when
    several do) and no other field of any file changes.  A second update of
    the same identifier overrides the first.  [handleRotate] shows the
    rotation advanced by a quarter turn modulo 360, requests exactly this
    update for a file that is not a PDF and none for a PDF; from a rotation
    among 0, 90, 180 and 270 it stays among them and four presses come back
    to the start. *)
Theorem rotation_handlers (prev : list FolderGroup) (fileItem : FileItem)
    (fileId : string) (r : Z) :
  let next := updateFileRotation prev fileId r in
  map folderName next = map folderName prev
  /\ map status next = map status prev
  /\ map resultDocBlob next = map resultDocBlob prev
  /\ map (fun g => map rotation (files g)) next
     = map (fun g => map (fun f => if String.eqb (id f) fileId then r else rotation f)
                         (files g)) prev
  /\ map (fun g => map (fun f => withRotation f 0) (files g)) next
     = map (fun g => map (fun f => withRotation f 0) (files g)) prev
  /\ (forall r', updateFileRotation next fileId r' = updateFileRotation prev fileId r')
  /\ (isPdf (file fileItem) = true -> snd (handleRotate fileItem r prev) = prev)
  /\ (isPdf (file fileItem) = false ->
      snd (handleRotate fileItem r prev)
      = updateFileRotation prev (id fileItem) (fst (handleRotate fileItem r prev)))
  /\ (In r [ 0; 90; 180; 270 ]%Z ->
      let press x := fst (handleRotate fileItem x prev) in
      press r = ((r + 90) mod 360)%Z
      /\ In (press r) [ 0; 90; 180; 270 ]%Z
      /\ press (press (press (press r))) = r).
Proof.
  cbn zeta. unfold updateFileRotation. rewrite !map_map.
  cbn [withFiles folderName status resultDocBlob files].
  split; [reflexivity|]. split; [reflexivity|]. split; [reflexivity|].
  split.
  { apply map_ext. intros g. rewrite map_map. apply map_ext. intros f.
    now destruct (String.eqb (id f) fileId). }
  split.
  { apply map_ext. intros g. rewrite map_map. apply map_ext. intros f.
    now destruct (String.eqb (id f) fileId). }
  split.
  { intros r'. rewrite map_map. apply map_ext. intros g. unfold withFiles.
    cbn [folderName status resultDocBlob files]. f_equal. apply rotation_update_twice. }
  unfold handleRotate. cbn [fst snd].
  split; [intros ->; reflexivity|]. split; [intros ->; reflexivity|].
  intros [<- | [<- | [<- | [<- | []]]]]; cbn; intuition.
Qed.

(** ** Summary generation and the pages of an item *)

(** X22.  [generateSummary] throws only for a missing API key.  With a key
    it always returns a text, and the text holds no asterisk.  Its [language]
    argument has no influence on the outcome. *)
Theorem generateSummary_outcomes (E : Collaborators) (fullText language : string) :
  (apiKey E = false -> generateSummary E fullText language = Throw ApiKeyNotFound)
  /\ (forall e, generateSummary E fullText language = Throw e ->
        e = ApiKeyNotFound /\ apiKey E = false)
  /\ (apiKey E = true ->
      exists s, generateSummary E fullText language = Ok s
                /\ everyChar (fun c => negb (Ascii.eqb "*" c)) s = true)
  /\ (forall language',
        generateSummary E fullText language' = generateSummary E fullText language).
Proof.
  unfold generateSummary. destruct (apiKey E); cbn [negb].
  - split; [discriminate|]. split.
    { intros e H. destruct (summaryModel E (sanitizedInput fullText)); discriminate. }
    split; [|reflexivity]. intros _.
    destruct (summaryModel E (sanitizedInput fullText)) as [reply|].
    + eexists. split; [reflexivity | apply cleanMarkdown_no_star].
    + eexists. split; reflexivity.
  - split; [reflexivity|]. split; [intros e H; inversion H; auto|].
    split; [discriminate | reflexivity].
Qed.

Lemma analyzePage_returns (E : Collaborators) (f : File) (lang : string) :
  apiKey E = true -> fileReadable E f = true ->
  exists page, analyzePage E f lang = Ok page.
Proof.
  intros Hk Hr. unfold analyzePage. rewrite Hk, Hr. cbn [negb].
  destruct (analyzeModel E f lang); eauto.
Qed.

Lemma analyzePdfPages_all (E : Collaborators) (options : ProcessingOptions)
    (item : FileItem) (total idx : nat) (blobs : list Blob) :
  apiKey E = true -> (forall f, fileReadable E f = true) ->
  let '(pushed, logged, thrown) := analyzePdfPages E options item total idx blobs in
  thrown = None
  /\ map imageBlob pushed = map Some blobs
  /\ map originalFileName pushed
     = map (fun k => (name item ++ " [Page " ++ decimalNat k ++ "]")%string)
           (seq (S idx) (List.length blobs))
  /\ logged = map (fun k => LogPdfPageAnalysis k total) (seq (S idx) (List.length blobs)).
Proof.
  intros Hk Hr. revert idx. induction blobs as [|blob rest IH]; intros idx.
  - cbn. auto.
  - cbn [analyzePdfPages].
    destruct (analyzePage_returns E
                (newFile blob (name item ++ "_page_" ++ decimalNat (idx + 1) ++ ".jpg")
                         "image/jpeg") (language options) Hk (Hr _)) as [page ->].
    specialize (IH (S idx)).
    destruct (analyzePdfPages E options item total (S idx) rest) as [[pushed logged] thrown].
    destruct IH as (Ht & Hb & Hn & Hl). rewrite Nat.add_1_r. cbn.
    rewrite Hb, Hn, Hl. auto.
Qed.

(** X23.  With an API key and readable files, every item contributes its
    pages.  An unrotated image gives one page that carries the item's name,
    the analysis of the file and the file's own content; a rotated image
    whose rotation succeeds gives one page with the analysis and the content
    of the rotated file.  A PDF whose pages were extracted gives one page per
    extracted page, in order, holding that page's raster and named after the
    item with " [Page k]", k counting from 1; the log then has one line per
    page and no error line. *)
Theorem pages_of_an_item (E : Collaborators) (options : ProcessingOptions)
    (item : FileItem) :
  apiKey E = true -> (forall f, fileReadable E f = true) ->
  (item_type item = image -> rotation item = 0%Z ->
   exists a,
     analyzePage E (file item) (language options) = Ok a
     /\ processItem E options item
        = ([ {| originalFileName := name item; analysis := a;
                imageBlob := Some (file_blob (file item)); sourceType := image |} ],
           [ LogImageAnalysis (name item) ]))
  /\ (item_type item = image -> rotation item <> 0%Z ->
      forall rotated,
        processImageWithRotation E (file item) (rotation item) = Ok rotated ->
        exists a,
          analyzePage E rotated (language options) = Ok a
          /\ processItem E options item
             = ([ {| originalFileName := name item; analysis := a;
                     imageBlob := Some (file_blob rotated); sourceType := image |} ],
                [ LogRotation (rotation item) (name item);
                  LogImageAnalysis (name item) ]))
  /\ (item_type item = pdf ->
      forall blobs,
        snd (convertPdfToImages E (file item)) = Ok blobs ->
        map imageBlob (fst (processItem E options item)) = map Some blobs
        /\ map originalFileName (fst (processItem E options item))
           = map (fun k => (name item ++ " [Page " ++ decimalNat k ++ "]")%string)
                 (seq 1 (List.length blobs))
        /\ snd (processItem E options item)
           = LogPdfExtract (name item) :: LogPdfPageCount (List.length blobs)
               :: map (fun k => LogPdfPageAnalysis k (List.length blobs))
                      (seq 1 (List.length blobs))).
Proof.
  intros Hk Hr. unfold processItem. split; [|split].
  - intros -> ->. cbn [Z.eqb].
    destruct (analyzePage_returns E (file item) (language options) Hk (Hr _)) as [a Ha].
    exists a. split; [exact Ha|]. now rewrite Ha.
  - intros -> Hrot rotated Hrotated.
    destruct (rotation item =? 0)%Z eqn:H0; [apply Z.eqb_eq in H0; contradiction|].
    rewrite Hrotated.
    destruct (analyzePage_returns E rotated (language options) Hk (Hr _)) as [a Ha].
    exists a. split; [exact Ha|]. now rewrite Ha.
  - intros -> blobs ->.
    pose proof (analyzePdfPages_all E options item (List.length blobs) 0 blobs Hk Hr) as H.
    destruct (analyzePdfPages E options item (List.length blobs) 0 blobs)
      as [[pushed logged] thrown].
    destruct H as (-> & Hb & Hn & ->). cbn [fst snd caught].
    rewrite app_nil_r. auto.
Qed.

Lemma pages_of_an_item_witness :
  fst (processItem (sampleCollaborators true RankRejected) withoutSummary
         (fileItemOf "c" scanInC))
  = [ {| originalFileName := "p2.png";
         analysis := analysisErrorPage scanInC;
         imageBlob := Some (file_blob scanInC);
         sourceType := image |} ].
Proof.
  destruct (proj1 (pages_of_an_item (sampleCollaborators true RankRejected) withoutSummary
                     (fileItemOf "c" scanInC) eq_refl (fun _ => eq_refl))
              eq_refl eq_refl) as (a & Ha & Hitem).
  rewrite Hitem. cbn [fst]. inversion Ha. reflexivity.
Defined.

(** ** The zoom of the preview *)

Lemma handleZoomIn_value (scale : Q) :
  (scale + (1 # 4) <= 3 -> handleZoomIn scale == scale + (1 # 4))%Q
  /\ (3 <= scale + (1 # 4) -> handleZoomIn scale == 3)%Q.
Proof.
  unfold handleZoomIn.
  destruct (Q.min_spec (scale + (1 # 4)) 3) as [[Hlt Hm] | [Hle Hm]];
    rewrite Hm; split; intros H; lra.
Qed.

Lemma handleZoomOut_value (scale : Q) :
  ((1 # 2) <= scale - (1 # 4) -> handleZoomOut scale == scale - (1 # 4))%Q
  /\ (scale - (1 # 4) <= (1 # 2) -> handleZoomOut scale == 1 # 2)%Q.
Proof.
  unfold handleZoomOut.
  destruct (Q.max_spec (scale - (1 # 4)) (1 # 2)) as [[Hlt Hm] | [Hle Hm]];
    rewrite Hm; split; intros H; lra.
Qed.

Lemma quarters_below (k bound : Z) (scale : Q) :
  (scale == inject_Z k / 4)%Q -> (scale < inject_Z bound / 4)%Q ->
  (scale + (1 # 4) <= inject_Z bound / 4)%Q.
Proof.
  intros Hk Hlt. rewrite Hk in Hlt |- *. unfold Qdiv in *.
  change (/ 4)%Q with (1 # 4)%Q in *.
  assert (Hz : (k < bound)%Z).
  { destruct (Z_lt_ge_dec k bound) as [H | H]; [exact H|]. exfalso.
    assert (inject_Z bound <= inject_Z k)%Q by (rewrite <- Zle_Qle; lia). lra. }
  assert (Hq : (inject_Z (k + 1) <= inject_Z bound)%Q) by (rewrite <- Zle_Qle; lia).
  rewrite inject_Z_plus in Hq. change (inject_Z 1) with 1%Q in Hq. lra.
Qed.

Lemma zoom_step (scale : Q) (press : ZoomPress) :
  ((1 # 2) <= scale <= 3)%Q ->
  (exists k : Z, scale == inject_Z k / 4)%Q ->
  let scale' := match press with
                | ZoomIn => handleZoomIn scale
                | ZoomOut => handleZoomOut scale
                end in
  ((1 # 2) <= scale' <= 3)%Q /\ (exists k : Z, scale' == inject_Z k / 4)%Q.
Proof.
  intros [Hlo Hhi] [k Hk]. destruct press; cbn zeta.
  - destruct (handleZoomIn_value scale) as [Hin Hcap].
    destruct (Qlt_le_dec 3 (scale + (1 # 4))) as [H | H].
    + assert (Hv : (handleZoomIn scale == 3)%Q) by (apply Hcap; lra).
      split; [rewrite Hv; split; lra|]. exists 12%Z. rewrite Hv. reflexivity.
    + assert (Hv : (handleZoomIn scale == scale + (1 # 4))%Q) by (apply Hin; lra).
      split; [rewrite Hv; split; lra|]. exists (k + 1)%Z.
      rewrite Hv, inject_Z_plus, Hk. unfold Qdiv. change (/ 4)%Q with (1 # 4)%Q.
      change (inject_Z 1) with 1%Q. lra.
  - destruct (handleZoomOut_value scale) as [Hout Hcap].
    destruct (Qlt_le_dec (scale - (1 # 4)) (1 # 2)) as [H | H].
    + assert (Hv : (handleZoomOut scale == 1 # 2)%Q) by (apply Hcap; lra).
      split; [rewrite Hv; split; lra|]. exists 2%Z. rewrite Hv. reflexivity.
    + assert (Hv : (handleZoomOut scale == scale - (1 # 4))%Q) by (apply Hout; lra).
      split; [rewrite Hv; split; lra|]. exists (k - 1)%Z.
      unfold Z.sub. rewrite Hv, inject_Z_plus, Hk. unfold Qdiv.
      change (/ 4)%Q with (1 # 4)%Q. change (inject_Z (- (1))) with (- (1))%Q. lra.
Qed.

(** X24.  Whatever sequence of zoom buttons is pressed in the preview, the
    scale stays between 0.5 and 3 and is a whole number of quarters.  Zooming
    in is undone by zooming out, unless the scale was already at 3, where the
    two presses leave 2.75. *)
Theorem zoom_stays_in_range (presses : list ZoomPress) :
  ((1 # 2) <= zoomed presses <= 3)%Q
  /\ (exists k : Z, zoomed presses == inject_Z k / 4)%Q
  /\ (zoomed presses < 3 ->
      zoomed (presses ++ [ ZoomIn; ZoomOut ]) == zoomed presses)%Q
  /\ (zoomed presses == 3 ->
      zoomed (presses ++ [ ZoomIn; ZoomOut ]) == 11 # 4)%Q.
Proof.
  assert (Hinv : ((1 # 2) <= zoomed presses <= 3)%Q
                 /\ (exists k : Z, zoomed presses == inject_Z k / 4)%Q).
  { unfold zoomed. induction presses as [|press presses IH] using rev_ind.
    - cbn. split; [split; lra|]. exists 4%Z. reflexivity.
    - rewrite fold_left_app. cbn [fold_left]. destruct IH as [Hr Hk].
      apply (zoom_step _ press Hr Hk). }
  destruct Hinv as [[Hlo Hhi] [k Hk]].
  split; [split; assumption|]. split; [exists k; exact Hk|].
  unfold zoomed in *. rewrite !fold_left_app. cbn [fold_left].
  set (scale := fold_left _ presses 1%Q) in *.
  split.
  - intros Hlt.
    assert (Hroom : (scale + (1 # 4) <= 3)%Q).
    { assert (H12 : (inject_Z 12 / 4 == 3)%Q) by reflexivity.
      rewrite <- H12. apply (quarters_below k); [exact Hk|].
      rewrite H12. exact Hlt. }
    destruct (handleZoomIn_value scale) as [Hin _].
    destruct (handleZoomOut_value (handleZoomIn scale)) as [Hout _].
    rewrite Hout; rewrite (Hin Hroom); lra.
  - intros Heq.
    destruct (handleZoomIn_value scale) as [_ Hcap].
    destruct (handleZoomOut_value (handleZoomIn scale)) as [Hout _].
    rewrite Hout; rewrite Hcap; lra.
Qed.

(** ** From the pick to the documents *)

Lemma ingested_folder_has_selection (E : Collaborators) (st st' : AppState)
    (allFiles : list File) :
  allFiles <> [] -> handleFileInputChange E st allFiles = Ok st' ->
  Forall (fun g => hasSelection g = true) (folders st').
Proof.
  intros Hne Hrun. destruct (ingested_folders E st st' allFiles Hne Hrun) as (-> & _ & _).
  apply Forall_forall. intros g Hg. apply in_map_iff in Hg.
  destruct Hg as [entry [<- Hentry]].
  apply (Permutation_in _ (objectEntries_perm _)) in Hentry.
  apply groupsOf_entry in Hentry. destruct Hentry as [Hsnd [f [Hf Hk]]].
  unfold hasSelection, newFolder. cbn [files]. apply existsb_exists.
  exists (entryOf f). split; [|reflexivity].
  apply (Permutation_in _ (naturalSort_perm E _ name)).
  rewrite Hsnd. unfold entriesUnder. apply in_map, filter_In.
  split; [exact Hf | now apply String.eqb_eq].
Qed.

Lemma folderLoop_all_selected (E : Collaborators) (options : ProcessingOptions)
    (todo : list FolderGroup) :
  apiKey E = true \/ generateSummary_opt options = false ->
  Forall (fun g => hasSelection g = true) todo ->
  let r := folderLoop E options todo in
  Forall (fun g => status g = completed \/ status g = error) (updatedFolders r)
  /\ writes r = map (fun g => [ processing; status g ]) (updatedFolders r)
  /\ downloads r = flat_map offered (updatedFolders r)
  /\ (todo <> [] -> logged r <> []).
Proof.
  intros Hcfg Hall. cbn zeta.
  induction Hall as [|folder rest Hsel _ (IHs & IHw & IHd & _)].
  - cbn. repeat split; [constructor | congruence].
  - cbn [folderLoop]. rewrite Hsel.
    pose proof (processFolder_keeps_folder E options folder) as (_ & _ & Hlog & Hdl).
    cbn zeta in Hlog, Hdl.
    destruct (processFolder_outcome E options folder)
      as [(Hnone & Hw) | (_ & _ & _ & Hkey & Hsum)];
      [|destruct Hcfg; congruence].
    rewrite Hnone. cbn [updatedFolders writes downloads logged map flat_map].
    rewrite IHw, IHd.
    split; [constructor; [tauto | exact IHs]|].
    split; [destruct Hw as [[-> ->] | [-> ->]]; reflexivity|].
    split.
    + f_equal. unfold offered.
      destruct (run_download (processFolder E options folder)) as [[n b]|].
      * destruct Hdl as (-> & -> & Hn & _). cbn [fst snd] in *.
        pose proof (processFolder_keeps_folder E options folder) as (-> & _).
        now rewrite Hn.
      * destruct Hdl as [Hnot _].
        destruct Hw as [[_ Hst] | [_ Hst]]; [contradiction | now rewrite Hst].
    + intros _ H. apply app_eq_nil in H. now destruct H.
Qed.

(** X25.  A pick followed by a run, with the API key set or the summary
    off: no exception leaves the run, every folder the pick created is
    processed, its status is assigned processing and then completed or error,
    and it ends the run in the second.  The files offered for download are,
    in folder order, the documents of the completed folders, each under the
    folder's name followed by "_AI_Processed.docx".  When the pick created a
    folder the busy flag is cleared at the end; when every picked file was
    filtered out there is no folder and the run only reports that nothing is
    selected. *)
Theorem pick_then_run (E : Collaborators) (options : ProcessingOptions)
    (st picked : AppState) (allFiles : list File) :
  allFiles <> [] ->
  handleFileInputChange E st allFiles = Ok picked ->
  apiKey E = true \/ generateSummary_opt options = false ->
  let st' := fst (processFolders E options picked) in
  let r := snd (processFolders E options picked) in
  uncaught r = None
  /\ map folderName (folders st') = map folderName (folders picked)
  /\ map files (folders st') = map files (folders picked)
  /\ Forall (fun g => status g = completed \/ status g = error) (folders st')
  /\ writes r = map (fun g => [ processing; status g ]) (folders st')
  /\ downloads r = flat_map offered (folders st')
  /\ (folders picked <> [] -> isProcessing st' = false)
  /\ (folders picked = [] <-> filter accepted allFiles = [])
  /\ (folders picked = [] ->
      processingLog st' = (processingLog picked ++ [ LogNothingSelected ])%list).
Proof.
  intros Hne Hpick Hcfg. cbn zeta.
  pose proof (ingested_folder_has_selection E st picked allFiles Hne Hpick) as Hsel.
  pose proof (ingested_items E st picked allFiles Hne Hpick) as Hitems.
  assert (Hempty : folders picked = [] <-> filter accepted allFiles = []).
  { split; intros H.
    - rewrite H in Hitems. cbn in Hitems. apply Permutation_nil in Hitems.
      now apply map_eq_nil in Hitems.
    - rewrite H in Hitems. cbn in Hitems. apply Permutation_sym, Permutation_nil in Hitems.
      destruct (folders picked) as [|g rest]; [reflexivity|]. exfalso.
      inversion Hsel as [|? ? Hg _]; subst. unfold hasSelection in Hg.
      cbn [flat_map] in Hitems. apply app_eq_nil in Hitems. destruct Hitems as [Hnil _].
      rewrite Hnil in Hg. discriminate. }
  unfold processFolders.
  destruct (existsb hasSelection (folders picked)) eqn:Hany.
  - destruct (folderLoop_finishes E options (folders picked) Hcfg) as [Hnone _].
    destruct (folderLoop_all_selected E options (folders picked) Hcfg Hsel)
      as (Hs & Hw & Hd & _).
    destruct (folderLoop_keeps_folders E options (folders picked)) as (Hn & Hf & _).
    rewrite Hnone. cbn [fst snd folders isProcessing processingLog].
    split; [exact Hnone|]. split; [exact Hn|]. split; [exact Hf|].
    split; [exact Hs|]. split; [exact Hw|]. split; [exact Hd|].
    split; [reflexivity|]. split; [exact Hempty|].
    intros Hnil. rewrite Hnil in Hany. discriminate.
  - assert (Hnil : folders picked = []).
    { destruct (folders picked) as [|g rest]; [reflexivity|].
      inversion Hsel as [|? ? Hg _]; subst. cbn in Hany. rewrite Hg in Hany.
      discriminate. }
    cbn [fst snd folders isProcessing processingLog uncaught writes downloads].
    rewrite Hnil. cbn.
    split; [reflexivity|]. split; [reflexivity|]. split; [reflexivity|].
    split; [constructor|]. split; [reflexivity|]. split; [reflexivity|].
    split; [congruence|]. split; [|reflexivity].
    split; [intros _; now apply Hempty | reflexivity].
Qed.

Lemma pick_then_run_witness :
  let E := sampleCollaborators true RankNoText in
  let picked := afterPicking E [ brokenPdf; scanInC ] in
  map status (folders (fst (processFolders E withoutSummary picked)))
  = [ error; completed ]
  /\ map fst (downloads (snd (processFolders E withoutSummary picked)))
     = [ "c_AI_Processed.docx" ].
Proof.
  cbn zeta.
  destruct (pick_then_run (sampleCollaborators true RankNoText) withoutSummary
              emptyState
              (afterPicking (sampleCollaborators true RankNoText) [ brokenPdf; scanInC ])
              [ brokenPdf; scanInC ]
              ltac:(discriminate) eq_refl (or_introl eq_refl))
    as (_ & _ & _ & _ & _ & Hd & _).
  rewrite Hd. split; reflexivity.
Defined.
